(** * VisionLabel: the image annotation pipeline of [app.py]

    A shallow embedding of the helpers and of the [/upload] route of
    [src/app.py], and the properties of the specification checked against
    it.

    Conventions of the embedding.
    - Python numbers are [pynum]: an [int] is a [Z], a [float] is a binary64
      value of the kernel ([PrimFloat]), with Python's mixed arithmetic.
    - Python dictionaries with fixed, heterogeneous keys (a label, an
      instance) are records of optional fields; the bounding box, which the
      code reads with [dict.get] and tests for emptiness, is a [gmap].
    - What the code calls but does not define (Pillow, boto3, werkzeug, the
      clock, the random source, a few Python builtins) is gathered in the
      record [runtime]; every statement quantifies over it.
    - The file system and the log of requests sent to the labeling service
      are the explicit state [world], threaded through [upload].
    - Drawing is not rasterized: the image that is saved is the normalized
      image together with the list of the calls made on its
      [ImageDraw.Draw]. *)

From Stdlib Require Import ZArith Floats Ascii String List Lia.
From stdpp Require Import base option list gmap strings pretty.

Set Warnings "-inexact-float".
Local Open Scope Z_scope.

(** ** Python numbers *)

Module PyNum.

(** [int.__float__]: the nearest binary64 value, ties to even.  (Python
    raises [OverflowError] from 2^1024 on; the integers met here are image
    sizes, font metrics and literals.) *)
Definition Z2float (z : Z) : float :=
  SF2Prim (binary_normalize prec emax z 0 false).

Inductive pynum : Type :=
| PInt (z : Z)
| PFloat (f : float).

Definition py_add (a b : pynum) : pynum :=
  match a, b with
  | PInt x, PInt y => PInt (x + y)
  | PInt x, PFloat y => PFloat (Z2float x + y)%float
  | PFloat x, PInt y => PFloat (x + Z2float y)%float
  | PFloat x, PFloat y => PFloat (x + y)%float
  end.

Definition py_sub (a b : pynum) : pynum :=
  match a, b with
  | PInt x, PInt y => PInt (x - y)
  | PInt x, PFloat y => PFloat (Z2float x - y)%float
  | PFloat x, PInt y => PFloat (x - Z2float y)%float
  | PFloat x, PFloat y => PFloat (x - y)%float
  end.

Definition py_mul (a b : pynum) : pynum :=
  match a, b with
  | PInt x, PInt y => PInt (x * y)
  | PInt x, PFloat y => PFloat (Z2float x * y)%float
  | PFloat x, PInt y => PFloat (x * Z2float y)%float
  | PFloat x, PFloat y => PFloat (x * y)%float
  end.

(** Comparison of an [int] with a [float] is exact in Python: the float is
    read as the dyadic rational it denotes.  [Z_cmp_float a f] is the
    comparison of [a] with [f], [None] when [f] is a NaN. *)
Definition Z_cmp_float (a : Z) (f : float) : option comparison :=
  match Prim2SF f with
  | S754_nan => None
  | S754_infinity s => Some (if s then Gt else Lt)
  | S754_zero _ => Some (a ?= 0)
  | S754_finite s m e =>
      let v := if s then Z.neg m else Z.pos m in
      Some (if 0 <=? e then a ?= v * 2 ^ e else a * 2 ^ (- e) ?= v)
  end.

(** [a > b] *)
Definition py_gt (a b : pynum) : bool :=
  match a, b with
  | PInt x, PInt y => y <? x
  | PInt x, PFloat y =>
      match Z_cmp_float x y with Some Gt => true | _ => false end
  | PFloat x, PInt y =>
      match Z_cmp_float y x with Some Lt => true | _ => false end
  | PFloat x, PFloat y => (y <? x)%float
  end.

End PyNum.
Export PyNum.

(** ** Exceptions *)

Inductive exception : Type :=
| KeyError (key : string)
| ValueError (msg : string)
| FileNotFoundError (path : string)
| OtherError (msg : string).

(** ** Drawing surface *)

(** Python's [max(a, b)] on two arguments: [b] replaces [a] only when
    [b > a]. *)
Definition py_max (a b : pynum) : pynum :=
  if py_gt b a then b else a.

Abbreviation color := (Z * Z * Z)%type.

Inductive font : Type :=
| TrueType (name : string) (size : Z)
| DefaultFont.

(** One call on an [ImageDraw.Draw] object. *)
Inductive draw_op : Type :=
| Rectangle (xy : pynum * pynum * pynum * pynum) (fill outline : option color)
    (width : Z)
| Text (xy : pynum * pynum) (text : string) (fill : color) (f : font).

(** What Pillow contributes to [draw_label_box]: whether a TrueType font
    file loads, the bounding box of a text set at the origin
    ([draw.textbbox((0, 0), text, font)[2:]]), and its check of the
    arguments of a drawing call: [rejects op] is the message of the
    [ValueError] the call raises, [None] when it draws.  (Pillow 9.5 and
    later refuse a rectangle whose second corner is left of or above the
    first; earlier versions refuse nothing.)  [textbbox_raises] is the
    message of the [ValueError] the measuring call itself raises, [None]
    when it measures.  (Older versions of Pillow measure TrueType fonts
    only, and refuse the bitmap font of [load_default].) *)
Record font_env : Type := {
  truetype_loads : string -> Z -> bool;
  textbbox : font -> string -> pynum * pynum;
  textbbox_raises : font -> string -> option string;
  rejects : draw_op -> option string
}.

(** One call on [draw]: recorded after those already made, unless Pillow
    refuses its arguments. *)
Definition draw_call (fe : font_env) (draw : list draw_op) (op : draw_op)
  : exception + list draw_op :=
  match rejects fe op with
  | Some msg => inl (ValueError msg)
  | None => inr (draw ++ [op])
  end.

(** [ImageFont.truetype("arial.ttf", 16)], else [ImageFont.load_default()]. *)
Definition pick_font (fe : font_env) (given : option font) : font :=
  match given with
  | Some f => f
  | None =>
      if truetype_loads fe "arial.ttf" 16
      then TrueType "arial.ttf" 16
      else DefaultFont
  end.

Definition pad : Z := 4.

(** The four edges of the label background, lines 67-72. *)
Definition label_background (xy_box : pynum * pynum * pynum * pynum)
  (text_wh : pynum * pynum) : pynum * pynum * pynum * pynum :=
  let '(left_, top_, right_, bottom_) := xy_box in
  let '(text_w, text_h) := text_wh in
  let bg_left := left_ in
  let bg_top :=
    py_max (py_sub (py_sub top_ text_h) (PInt (2 * pad))) (PInt 0) in
  let bg_right := py_add (py_add left_ text_w) (PInt (2 * pad)) in
  let bg_bottom := py_add (py_add bg_top text_h) (PInt (2 * pad)) in
  (bg_left, bg_top, bg_right, bg_bottom).

(** [draw_label_box(draw, xy_box, label_text, font=None)], lines 54-76: the
    calls it makes on [draw], in order. *)
Definition draw_label_box (fe : font_env) (draw : list draw_op)
  (xy_box : pynum * pynum * pynum * pynum) (label_text : string)
  (given : option font) : exception + list draw_op :=
  match draw_call fe draw (Rectangle xy_box None (Some (255, 0, 0)) 3) with
  | inl e => inl e
  | inr draw =>
      let f := pick_font fe given in
      match textbbox_raises fe f label_text with
      | Some msg => inl (ValueError msg)
      | None =>
          let text_wh := textbbox fe f label_text in
          let '(bg_left, bg_top, bg_right, bg_bottom) :=
            label_background xy_box text_wh in
          match draw_call fe draw
                  (Rectangle (bg_left, bg_top, bg_right, bg_bottom)
                     (Some (255, 255, 255)) None 1) with
          | inl e => inl e
          | inr draw =>
              draw_call fe draw
                (Text (py_add bg_left (PInt pad), py_add bg_top (PInt pad))
                   label_text (255, 0, 0) f)
          end
      end
  end.

(** ** Images (Pillow)

    The 8-bit greyscale and true-colour modes, with and without an alpha
    band (L, LA, RGB, RGBA); palette, CMYK and the other modes are not
    modelled.  Pixels are stored row by row; [orientation] is the EXIF
    Orientation tag when the image carries one. *)

Abbreviation rgb := (Z * Z * Z)%type.
Abbreviation rgba := (Z * Z * Z * Z)%type.

Inductive raster : Type :=
| RasterL (px : list Z)
| RasterLA (px : list (Z * Z))
| RasterRGB (px : list rgb)
| RasterRGBA (px : list rgba).

Record image : Type := {
  size : Z * Z;
  pixels : raster;
  orientation : option Z
}.

Definition mode (im : image) : string :=
  match pixels im with
  | RasterL _ => "L"
  | RasterLA _ => "LA"
  | RasterRGB _ => "RGB"
  | RasterRGBA _ => "RGBA"
  end.

Inductive transpose_method : Type :=
| FLIP_LEFT_RIGHT | FLIP_TOP_BOTTOM | ROTATE_90 | ROTATE_180 | ROTATE_270
| TRANSPOSE | TRANSVERSE.

Definition transposed_size (m : transpose_method) (wh : Z * Z) : Z * Z :=
  match m with
  | FLIP_LEFT_RIGHT | FLIP_TOP_BOTTOM | ROTATE_180 => wh
  | _ => (wh.2, wh.1)
  end.

(** The source pixel shown at [(x, y)] of the transposed image. *)
Definition transposed_from (m : transpose_method) (wh : Z * Z) (x y : Z)
  : Z * Z :=
  let '(w, h) := wh in
  match m with
  | FLIP_LEFT_RIGHT => (w - 1 - x, y)
  | FLIP_TOP_BOTTOM => (x, h - 1 - y)
  | ROTATE_180 => (w - 1 - x, h - 1 - y)
  | TRANSPOSE => (y, x)
  | TRANSVERSE => (w - 1 - y, h - 1 - x)
  | ROTATE_90 => (w - 1 - y, x)
  | ROTATE_270 => (y, h - 1 - x)
  end.

Definition transpose_list {P : Type} (m : transpose_method) (wh : Z * Z)
  (px : list P) : list P :=
  let '(w', h') := transposed_size m wh in
  y ← seqZ 0 h';
  x ← seqZ 0 w';
  let '(sx, sy) := transposed_from m wh x y in
  option_list (px !! Z.to_nat (sy * wh.1 + sx)).

Definition raster_map (f : forall P : Type, list P -> list P) (r : raster)
  : raster :=
  match r with
  | RasterL px => RasterL (f _ px)
  | RasterLA px => RasterLA (f _ px)
  | RasterRGB px => RasterRGB (f _ px)
  | RasterRGBA px => RasterRGBA (f _ px)
  end.

(** [Image.transpose(method)] *)
Definition transpose (im : image) (m : transpose_method) : image :=
  {| size := transposed_size m (size im);
     pixels := raster_map (fun P => transpose_list m (size im)) (pixels im);
     orientation := orientation im |}.

(** The transposition an Orientation tag asks for. *)
Definition exif_method (orientation : Z) : option transpose_method :=
  match orientation with
  | 2 => Some FLIP_LEFT_RIGHT
  | 3 => Some ROTATE_180
  | 4 => Some FLIP_TOP_BOTTOM
  | 5 => Some TRANSPOSE
  | 6 => Some ROTATE_270
  | 7 => Some TRANSVERSE
  | 8 => Some ROTATE_90
  | _ => None
  end.

(** [ImageOps.exif_transpose]: the image turned as its Orientation tag asks,
    the tag removed; a copy when the tag is absent, 1 or unknown. *)
Definition exif_transpose (im : image) : image :=
  match exif_method (default 1 (orientation im)) with
  | Some m =>
      let transposed_image := transpose im m in
      {| size := size transposed_image;
         pixels := pixels transposed_image;
         orientation := None |}
  | None => im
  end.

(** [Image.convert("RGB")]: grey levels are repeated on the three channels
    and an alpha band is dropped ([l2rgb], [la2rgb], [rgba2rgb] of Pillow's
    [Convert.c]); the metadata is kept. *)
Definition convert_RGB (im : image) : image :=
  {| size := size im;
     pixels :=
       RasterRGB
         match pixels im with
         | RasterL px => (fun v => (v, v, v)) <$> px
         | RasterLA px => (fun va => (va.1, va.1, va.1)) <$> px
         | RasterRGB px => px
         | RasterRGBA px => (fun p => let '(r, g, b, _) := p in (r, g, b)) <$> px
         end;
     orientation := orientation im |}.

(** [Image.new("RGB", size, color)] *)
Definition Image_new_RGB (wh : Z * Z) (c : rgb) : image :=
  {| size := wh;
     pixels := RasterRGB (replicate (Z.to_nat (wh.1 * wh.2)) c);
     orientation := None |}.

(** Band 3 of [Image.split()] on an RGBA raster. *)
Definition alpha_band (px : list rgba) : list Z :=
  (fun p => let '(_, _, _, a) := p in a) <$> px.

(** [BLEND8] of Pillow's [ImagingUtils.h]: [in1] where the mask is 0, [in2]
    where it is 255, the rounded mix in between. *)
Definition blend8 (mask in1 in2 : Z) : Z :=
  let tmp := in1 * (255 - mask) + in2 * mask + 128 in
  Z.shiftr (Z.shiftr tmp 8 + tmp) 8.

Definition paste_pixel (out : rgb) (src : rgba) (mask : Z) : rgb :=
  let '(r0, g0, b0) := out in
  let '(r, g, b, _) := src in
  (blend8 mask r0 r, blend8 mask g0 g, blend8 mask b0 b).

(** A pixel of an RGBA image laid over white. *)
Definition over_white (p : rgba) : rgb :=
  paste_pixel (255, 255, 255) p (let '(_, _, _, a) := p in a).

Fixpoint paste_mask_L (out : list rgb) (src : list rgba) (mask : list Z)
  : list rgb :=
  match out, src, mask with
  | o :: out, s :: src, m :: mask =>
      paste_pixel o s m :: paste_mask_L out src mask
  | _, _, _ => []
  end.

(** [bg.paste(im, mask=mask)] for an RGB [bg], an RGBA [im] and an L
    [mask], all of one size. *)
Definition paste (bg : image) (im : list rgba) (mask : list Z) : image :=
  match pixels bg with
  | RasterRGB out =>
      {| size := size bg;
         pixels := RasterRGB (paste_mask_L out im mask);
         orientation := orientation bg |}
  | _ => bg
  end.

(** [pil_auto_prepare], lines 42-52. *)
Definition pil_auto_prepare (pil_img : image) : image :=
  let pil_img := exif_transpose pil_img in
  let pil_img :=
    if bool_decide (mode pil_img ∉ ["RGB"; "RGBA"])
    then convert_RGB pil_img
    else pil_img in
  match pixels pil_img with
  | RasterRGBA px =>
      (* mode == "RGBA" *)
      let bg := Image_new_RGB (size pil_img) (255, 255, 255) in
      paste bg px (alpha_band px)
  | _ => pil_img
  end.

(** ** Detection data

    The shapes of the labeling service's response, as the code reads them.
    A key the code reads with [get] or a subscript is an optional field
    ([None]: the key is absent); the bounding box is the dictionary itself.
    Keys the code never reads are not modelled. *)

Abbreviation bytes := (list Byte.byte).

Record instance : Type := {
  BoundingBox : option (gmap string float);
  InstanceConfidence : option float
}.

Record label : Type := {
  Name : option string;
  Confidence : option float;
  Instances : option (list instance)
}.

(** The keyword arguments of [rekognition.detect_labels]. *)
Record detect_request : Type := {
  Image_Bytes : bytes;
  MaxLabels : Z;
  MinConfidence : Z
}.

Record detect_response : Type := {
  Labels : option (list label)
}.

(** A [BotoCoreError] or [ClientError]: the service's message when the
    exception carries a response with one, and [str(e)]. *)
Record boto_error : Type := {
  response_message : option string;
  error_str : string
}.

Inductive detect_outcome : Type :=
| Responded (resp : detect_response)
| RaisedBoto (e : boto_error)
| RaisedOther (e : exception).

(** ** The surroundings of the pipeline *)

Record datetime : Type := {
  year : Z; month : Z; day : Z; hour : Z; minute : Z; second : Z
}.

(** The image object after drawing: the pixels it was created with and the
    calls made on its [ImageDraw.Draw]. *)
Abbreviation canvas := (image * list draw_op)%type.

Record runtime : Type := {
  (** [werkzeug.utils.secure_filename] *)
  secure_filename : string -> string;
  (** [datetime.utcnow()] at its k-th call *)
  utcnow : nat -> datetime;
  (** [uuid.uuid4().int] at its k-th call *)
  uuid4 : nat -> Z;
  (** [Image.open] and the decoding of the stream; [inl] is the message of
      the exception raised *)
  Image_open : bytes -> string + image;
  (** the bytes [Image.save(path, quality=q)] writes, or the message of the
      exception it raises, in which case no file is left *)
  Image_save : string -> canvas -> Z -> string + bytes;
  (** [rekognition.detect_labels] *)
  detect_labels : detect_request -> detect_outcome;
  (** fonts and text metrics *)
  fonts : font_env;
  (** [round(x, ndigits)] on a float *)
  py_round : float -> Z -> float;
  (** [str] of a float, as an f-string writes it *)
  float_str : float -> string
}.

(** The state a request reads and changes: the files, how many times the
    clock and the random source were read, and the requests sent to the
    labeling service, oldest first. *)
Record world : Type := {
  files : gmap string bytes;
  clock_reads : nat;
  uuid_draws : nat;
  sent : list detect_request
}.

Definition write_file (path : string) (data : bytes) (w : world) : world :=
  {| files := <[path := data]> (files w);
     clock_reads := clock_reads w;
     uuid_draws := uuid_draws w;
     sent := sent w |}.

Definition send_request (r : detect_request) (w : world) : world :=
  {| files := files w;
     clock_reads := clock_reads w;
     uuid_draws := uuid_draws w;
     sent := sent w ++ [r] |}.

Definition tick (w : world) : world :=
  {| files := files w;
     clock_reads := S (clock_reads w);
     uuid_draws := S (uuid_draws w);
     sent := sent w |}.

(** ** Configuration and file names *)

Definition UPLOAD_FOLDER : string := "static/uploads".
Definition ALLOWED_EXTENSIONS : list string := ["png"; "jpg"; "jpeg"].

(** [str.rfind] of one character: the index of its last occurrence. *)
Fixpoint rfind (c : ascii) (s : list ascii) : option nat :=
  match s with
  | [] => None
  | a :: s' =>
      match rfind c s' with
      | Some i => Some (S i)
      | None => if Ascii.eqb a c then Some 0%nat else None
      end
  end.

Definition lower_ascii (c : ascii) : ascii :=
  let n := nat_of_ascii c in
  if (65 <=? n)%nat && (n <=? 90)%nat then ascii_of_nat (n + 32) else c.

(** [str.lower] on the bytes of the name (the letters A to Z). *)
Definition lower (s : list ascii) : list ascii := lower_ascii <$> s.

(** [allowed_file], lines 34-35. *)
Definition allowed_file (filename : string) : bool :=
  let s := list_ascii_of_string filename in
  match rfind "." s with
  | None => false   (* "." in filename *)
  | Some i =>
      (* filename.rsplit(".", 1)[1] *)
      let ext := drop (S i) s in
      bool_decide (string_of_list_ascii (lower ext) ∈ ALLOWED_EXTENSIONS)
  end.

(** [os.path.splitext] ([posixpath]): the extension starts at the last dot
    of the last path component, unless only dots precede it there. *)
Definition splitext (p : string) : string * string :=
  let s := list_ascii_of_string p in
  let sepIndex := from_option Z.of_nat (-1) (rfind "/" s) in
  let dotIndex := from_option Z.of_nat (-1) (rfind "." s) in
  if bool_decide (dotIndex > sepIndex)
     && existsb (fun c => negb (Ascii.eqb c "."))
          (take (Z.to_nat (dotIndex - (sepIndex + 1)))
             (drop (Z.to_nat (sepIndex + 1)) s))
  then (string_of_list_ascii (take (Z.to_nat dotIndex) s),
        string_of_list_ascii (drop (Z.to_nat dotIndex) s))
  else (p, "").

(** [os.path.join] of two components ([posixpath]). *)
Definition os_path_join (a b : string) : string :=
  match b with
  | String "/" _ => b
  | _ =>
      match a with
      | "" => b
      | _ =>
          if bool_decide (last (list_ascii_of_string a) = Some "/"%char)
          then a +:+ b else a +:+ "/" +:+ b
      end
  end.

Definition digit (d : Z) : ascii := ascii_of_nat (48 + Z.to_nat (d mod 10)).

Definition hexdigit (d : Z) : ascii :=
  let d := d mod 16 in
  if d <? 10 then ascii_of_nat (48 + Z.to_nat d)
  else ascii_of_nat (87 + Z.to_nat d).

(** [n] in decimal on [width] digits, zero padded. *)
Definition zpad (width : nat) (n : Z) : list ascii :=
  (fun i => digit (n / 10 ^ (Z.of_nat width - 1 - i))) <$> seqZ 0 (Z.of_nat width).

(** [strftime('%Y%m%d-%H%M%S')] *)
Definition strftime (t : datetime) : string :=
  string_of_list_ascii
    ((zpad 4 (year t) ++ zpad 2 (month t) ++ zpad 2 (day t))
     ++ ["-"%char]
     ++ (zpad 2 (hour t) ++ zpad 2 (minute t) ++ zpad 2 (second t))).

Definition is_digit (c : ascii) : bool :=
  let n := nat_of_ascii c in ((48 <=? n) && (n <=? 57))%nat.

Definition is_hexdigit (c : ascii) : bool :=
  let n := nat_of_ascii c in
  ((48 <=? n) && (n <=? 57) || (97 <=? n) && (n <=? 102))%nat.

(** [UUID.hex]: the 128-bit integer on 32 lowercase hexadecimal digits. *)
Definition uuid_hex (u : Z) : string :=
  string_of_list_ascii ((fun i => hexdigit (u / 16 ^ (31 - i))) <$> seqZ 0 32).

(** [s[:n]] *)
Definition prefix_of (n : nat) (s : string) : string :=
  string_of_list_ascii (take n (list_ascii_of_string s)).

(** [unique_name], lines 37-40: the name, and the world after one reading
    of the clock and one of the random source. *)
Definition unique_name (rt : runtime) (original_name : string)
  (prefix : string) (w : world) : string * world :=
  let base := secure_filename rt original_name in
  let '(stem, ext) := splitext base in
  (prefix +:+ stem +:+ "_" +:+ strftime (utcnow rt (clock_reads w)) +:+ "_"
   +:+ prefix_of 8 (uuid_hex (uuid4 rt (uuid_draws w)))
   +:+ (if bool_decide (ext = "") then ".jpg" else ext),
   tick w).

(** ** The upload route *)

Record upload_file : Type := {
  filename : string;
  stream : bytes
}.

(** [request.files]: the part named "file", when the form has one. *)
Record http_request : Type := {
  file : option upload_file
}.

Inductive response : Type :=
| ErrorPage (body : string) (status : Z)
| ResultPage (original_image labeled_image : string) (labels : list label)
| Unhandled (e : exception).

(** The labels of the dry run, lines 123-139. *)
Definition dry_run_labels : list label :=
  [ {| Name := Some "SampleObject";
       Confidence := Some 99.1%float;
       Instances :=
         Some [ {| BoundingBox :=
                     Some (<["Left" := 0.25%float]>
                          (<["Top" := 0.25%float]>
                          (<["Width" := 0.5%float]>
                          (<["Height" := 0.5%float]> ∅))));
                   InstanceConfidence := Some 99.1%float |} ] |} ].

(** Lines 118-150: the labels, or the response the route returns at once;
    an exception that is neither a [BotoCoreError] nor a [ClientError] is
    not caught. *)
Definition detect (rt : runtime) (DRY_RUN : bool) (pil : image)
  (image_bytes : bytes) (w : world) : (response + list label) * world :=
  if DRY_RUN then
    let '(pil_w, pil_h) := size pil in
    (inr dry_run_labels, w)
  else
    let req := {| Image_Bytes := image_bytes;
                  MaxLabels := 10;
                  MinConfidence := 70 |} in
    let w := send_request req w in
    match detect_labels rt req with
    | Responded resp => (inr (default [] (Labels resp)), w)
    | RaisedBoto e =>
        (inl (ErrorPage
                ("AWS Rekognition error: "
                 +:+ default (error_str e) (response_message e)) 500), w)
    | RaisedOther e => (inl (Unhandled e), w)
    end.

(** Lines 160-164: the pixel box of a bounding box on an image of
    [img_w] by [img_h] pixels. *)
Definition pixel_box (img_w img_h : Z) (box : gmap string float)
  : pynum * pynum * pynum * pynum :=
  let get (k : string) : pynum := default (PInt 0) (PFloat <$> box !! k) in
  let left_ := py_mul (PInt img_w) (get "Left") in
  let top_ := py_mul (PInt img_h) (get "Top") in
  let width := py_mul (PInt img_w) (get "Width") in
  let height := py_mul (PInt img_h) (get "Height") in
  (left_, top_, py_add left_ width, py_add top_ height).

(** Line 165: the f-string; the subscript [label['Name']] raises on a label
    without the key. *)
Definition label_text (rt : runtime) (lab : label) : exception + string :=
  match Name lab with
  | None => inl (KeyError "Name")
  | Some name =>
      inr (name +:+ " ("
           +:+ float_str rt (py_round rt (default 0%float (Confidence lab)) 1)
           +:+ "%)")
  end.

(** Lines 156-166: the inner loop, over the instances of one label. *)
Fixpoint draw_instances (rt : runtime) (img_w img_h : Z) (lab : label)
  (insts : list instance) (draw : list draw_op)
  : exception + list draw_op :=
  match insts with
  | [] => inr draw
  | inst :: insts =>
      match BoundingBox inst with
      | None => draw_instances rt img_w img_h lab insts draw
      | Some box =>
          if bool_decide (box = ∅)
          then draw_instances rt img_w img_h lab insts draw
          else
            let xy := pixel_box img_w img_h box in
            match label_text rt lab with
            | inl e => inl e
            | inr text =>
                match draw_label_box (fonts rt) draw xy text None with
                | inl e => inl e
                | inr draw => draw_instances rt img_w img_h lab insts draw
                end
            end
      end
  end.

(** Lines 155-166: the outer loop, over the labels. *)
Fixpoint draw_labels (rt : runtime) (img_w img_h : Z) (labels : list label)
  (draw : list draw_op) : exception + list draw_op :=
  match labels with
  | [] => inr draw
  | lab :: labels =>
      match draw_instances rt img_w img_h lab
              (default [] (Instances lab)) draw with
      | inl e => inl e
      | inr draw => draw_labels rt img_w img_h labels draw
      end
  end.

(** An instance the loop draws: it has a bounding box, and the box is not
    the empty dictionary ([if not box: continue]). *)
Definition drawable (inst : instance) : bool :=
  match BoundingBox inst with
  | Some box => negb (bool_decide (box = ∅))
  | None => false
  end.

(** A label the loop gets through: it has a name, or no instance to draw. *)
Definition renderable (lab : label) : bool :=
  negb (existsb drawable (default [] (Instances lab)))
  || bool_decide (is_Some (Name lab)).

(** [upload], lines 87-177. *)
Definition upload (rt : runtime) (DRY_RUN : bool) (request : http_request)
  (w : world) : response * world :=
  match file request with
  | None => (ErrorPage "No file uploaded" 400, w)
  | Some file =>
  if bool_decide (filename file = "")
  then (ErrorPage "No selected file" 400, w)
  else if negb (allowed_file (filename file))
  then (ErrorPage "Invalid file type. Only JPG and PNG allowed." 400, w)
  else
  let '(original_name, w) := unique_name rt (filename file) "" w in
  let '(labeled_name, w) := unique_name rt (filename file) "labeled_" w in
  let save_path := os_path_join UPLOAD_FOLDER original_name in
  (* try: open, prepare, save *)
  match Image_open rt (stream file) with
  | inl e => (ErrorPage ("Image processing error: " +:+ e) 400, w)
  | inr pil =>
  let pil := pil_auto_prepare pil in
  match Image_save rt save_path (pil, []) 95 with
  | inl e => (ErrorPage ("Image processing error: " +:+ e) 400, w)
  | inr saved =>
  let w := write_file save_path saved w in
  (* with open(save_path, "rb") *)
  match files w !! save_path with
  | None => (Unhandled (FileNotFoundError save_path), w)
  | Some image_bytes =>
  match detect rt DRY_RUN pil image_bytes w with
  | (inl resp, w) => (resp, w)
  | (inr labels, w) =>
  let '(img_w, img_h) := size pil in
  match draw_labels rt img_w img_h labels [] with
  | inl e => (Unhandled e, w)
  | inr draw =>
  let labeled_path := os_path_join UPLOAD_FOLDER labeled_name in
  match Image_save rt labeled_path (pil, draw) 95 with
  | inl e => (Unhandled (OtherError e), w)
  | inr saved =>
      (ResultPage original_name labeled_name labels,
       write_file labeled_path saved w)
  end end end end end end end.

(** ** The route behind Flask

    Line 22 sets MAX_CONTENT_LENGTH: for a body longer than it, reading
    [request.files] (line 89) raises [RequestEntityTooLarge], and Flask
    answers with the handler registered for 413 (lines 83-85). *)





(** ** The exact value of a float

    Every finite binary64 number is an integer multiple of 2^-1074, the
    smallest positive one: [sf_val] is that integer.  [repr v x] says that
    [x] is a well-formed finite float of value [v], [representable v] that
    such a float exists; [fval] reads the value of a primitive float. *)

Definition sf_val (x : spec_float) : option Z :=
  match x with
  | S754_zero _ => Some 0
  | S754_finite s m e => Some (cond_Zopp s (Z.pos m * 2 ^ (e + 1074)))
  | _ => None
  end.

Definition repr (v : Z) (x : spec_float) : Prop :=
  SpecFloat.valid_binary prec emax x = true /\ sf_val x = Some v.

Definition representable (v : Z) : Prop := exists x, repr v x.

Definition fval (x : float) : option Z := sf_val (Prim2SF x).

(** ** Configuration read from the environment

    Lines 25-31, as functions of the process environment.  The statements
    of lines 29-31 run when the module is loaded: an exception of
    [boto3.client] ends the import. *)

Module Config.

(** [os.getenv(key, default)] *)
Definition getenv (environ : gmap string string) (key default_ : string)
  : string :=
  default default_ (environ !! key).

(** Line 25. *)
Definition AWS_REGION (environ : gmap string string) : string :=
  getenv environ "AWS_REGION" "us-east-1".

(** Line 26.  ([str.lower] moves no character outside ASCII onto one of
    the letters of "true", so lowering the letters A to Z decides the
    comparison.) *)
Definition DRY_RUN (environ : gmap string string) : bool :=
  bool_decide
    (string_of_list_ascii
       (lower (list_ascii_of_string
                 (getenv environ "REKOGNITION_DRY_RUN" "false")))
     = "true").

(** Lines 29-31.  [boto3_client service region] is
    [boto3.client(service, region_name=region)]: the client, or the
    exception botocore raises (an empty or malformed region name, for one).
    The result is the value of [rekognition] after line 31, or the
    exception that escapes the module. *)
Definition rekognition {client : Type}
  (boto3_client : string -> string -> exception + client)
  (environ : gmap string string) : exception + option client :=
  let rekognition := None in
  if negb (DRY_RUN environ) then
    match boto3_client "rekognition" (AWS_REGION environ) with
    | inl e => inl e
    | inr c => inr (Some c)
    end
  else inr rekognition.

End Config.

(** ** Vocabulary of the properties *)

(** [n < 0], read off the sign of [n]: a negative integer; a float with
    its sign bit set that is neither a zero nor a NaN. *)
Definition negative (n : pynum) : bool :=
  match n with
  | PInt z => z <? 0
  | PFloat x =>
      match Prim2SF x with
      | S754_finite true _ _ | S754_infinity true => true
      | _ => false
      end
  end.

(** The digit a character writes, in bases up to 16 (lower case), and the
    number a string of digits writes in base [b]. *)
Definition digit_value (c : ascii) : Z :=
  let n := Z.of_nat (nat_of_ascii c) in
  if n <? 58 then n - 48 else n - 87.

Definition number_in (b : Z) (s : list ascii) : Z :=
  fold_left (fun n c => b * n + digit_value c) s 0.

(** The request does not pass the checks of lines 89-97. *)
Definition refused (request : http_request) : bool :=
  match file request with
  | None => true
  | Some f => bool_decide (filename f = "") || negb (allowed_file (filename f))
  end.

(** A time as [datetime.utcnow] returns it today: four digits of year and
    fields in their calendar ranges, for which [strftime] pads as modelled. *)
Definition utc_time (t : datetime) : Prop :=
  1000 <= year t <= 9999 /\ 1 <= month t <= 12 /\ 1 <= day t <= 31
  /\ 0 <= hour t <= 23 /\ 0 <= minute t <= 59 /\ 0 <= second t <= 59.

Definition raster_length (r : raster) : nat :=
  match r with
  | RasterL px => length px
  | RasterLA px => length px
  | RasterRGB px => length px
  | RasterRGBA px => length px
  end.

(** An image holds as many pixels as its size says. *)
Definition well_formed (im : image) : Prop :=
  0 <= (size im).1 /\ 0 <= (size im).2
  /\ raster_length (pixels im) = Z.to_nat ((size im).1 * (size im).2).

(** The Orientation tags that ask for a quarter turn or a diagonal flip:
    width and height change places. *)
Definition quarter_turn (im : image) : bool :=
  bool_decide (default 1 (orientation im) ∈ [5; 6; 7; 8]).

(** The channels and the alpha of an 8-bit pixel. *)
Definition eight_bit (p : rgba) : Prop :=
  let '(r, g, b, a) := p in
  0 <= r <= 255 /\ 0 <= g <= 255 /\ 0 <= b <= 255 /\ 0 <= a <= 255.

(** A channel [c] under alpha [a] over white, [(c * a + 255 * (255 - a)) / 255]
    rounded to the nearest integer. *)
Definition white_mix (c a : Z) : Z := 255 - a + (c * a + 127) / 255.

(** The three calls [draw_label_box] makes for one box and one text, with
    the font it picks when none is given. *)
Definition label_box_calls (fe : font_env)
  (xy_box : pynum * pynum * pynum * pynum) (text : string) : list draw_op :=
  let f := pick_font fe None in
  let bg := label_background xy_box (textbbox fe f text) in
  [Rectangle xy_box None (Some (255, 0, 0)) 3;
   Rectangle bg (Some (255, 255, 255)) None 1;
   Text (py_add bg.1.1.1 (PInt 4), py_add bg.1.1.2 (PInt 4)) text (255, 0, 0) f].

(** What the loop draws for one instance of a label. *)
Definition instance_calls (rt : runtime) (img_w img_h : Z) (lab : label)
  (inst : instance) : list draw_op :=
  match BoundingBox inst, label_text rt lab with
  | Some box, inr text =>
      if bool_decide (box = ∅) then []
      else label_box_calls (fonts rt) (pixel_box img_w img_h box) text
  | _, _ => []
  end.

(** Pillow measures the text and accepts the three calls of one label
    box. *)
Definition label_box_accepted (fe : font_env)
  (xy_box : pynum * pynum * pynum * pynum) (text : string) : bool :=
  bool_decide (textbbox_raises fe (pick_font fe None) text = None)
  && forallb (fun op => bool_decide (rejects fe op = None))
       (label_box_calls fe xy_box text).

(** The same for every box the loop draws for the instances of a label,
    and for every label of a response: the calls of this loop, and no
    other, are accepted. *)
Definition instance_accepted (rt : runtime) (img_w img_h : Z) (lab : label)
  (inst : instance) : bool :=
  match BoundingBox inst, label_text rt lab with
  | Some box, inr text =>
      bool_decide (box = ∅)
      || label_box_accepted (fonts rt) (pixel_box img_w img_h box) text
  | _, _ => true
  end.

Definition instances_accepted (rt : runtime) (img_w img_h : Z) (lab : label)
  (insts : list instance) : bool :=
  forallb (instance_accepted rt img_w img_h lab) insts.

Definition loop_accepted (rt : runtime) (img_w img_h : Z)
  (labels : list label) : bool :=
  forallb
    (fun lab =>
       instances_accepted rt img_w img_h lab (default [] (Instances lab)))
    labels.

(** The instances of a response that have a box to draw, in order. *)
Definition drawn_instances (labels : list label) : list instance :=
  lab ← labels;
  filter (fun inst => drawable inst = true) (default [] (Instances lab)).

(** The float [x] is the rational [num / den], exactly. *)
Definition float_is (x : float) (num den : Z) : Prop :=
  exists v : Z, fval x = Some v /\ v * den = num * 2 ^ 1074.

(** ** A runtime to run the pipeline on

    Concrete surroundings, used to evaluate the definitions above on
    examples. *)

Module Sample.

(** [n / d] rounded to the nearest integer, ties to even ([d > 0]). *)
Definition round_half_even (n d : Z) : Z :=
  let q := n / d in
  let r := n mod d in
  if 2 * r <? d then q
  else if d <? 2 * r then q + 1
  else if Z.even q then q else q + 1.

(** The magnitude of a finite float in tenths, rounded half to even on its
    exact value. *)
Definition tenths (x : float) : option Z :=
  match Prim2SF x with
  | S754_zero _ => Some 0
  | S754_finite _ m e =>
      Some (if 0 <=? e then 10 * Z.pos m * 2 ^ e
            else round_half_even (10 * Z.pos m) (2 ^ (- e)))
  | _ => None
  end.

(** [round(x, 1)]: the float nearest to the rounded decimal. *)
Definition round1 (x : float) (ndigits : Z) : float :=
  match tenths x with
  | Some t =>
      let r := (Z2float t / 10)%float in
      if get_sign x then (- r)%float else r
  | None => x
  end.

(** A float written on one decimal, as Python writes the result of
    [round(x, 1)] (below 10^15). *)
Definition str1 (x : float) : string :=
  match tenths x with
  | Some t =>
      (if get_sign x then "-" else "")
      +:+ pretty (t / 10) +:+ "." +:+ pretty (t mod 10)
  | None => if is_nan x then "nan" else if get_sign x then "-inf" else "inf"
  end.

(** Letters, digits, dot, underscore and hyphen are kept. *)
Definition keep (c : ascii) : bool :=
  let n := nat_of_ascii c in
  ((48 <=? n) && (n <=? 57) || (65 <=? n) && (n <=? 90)
   || (97 <=? n) && (n <=? 122) || (n =? 45) || (n =? 46) || (n =? 95))%nat.

Definition sanitize (s : string) : string :=
  string_of_list_ascii (filter (fun c => keep c = true) (list_ascii_of_string s)).

(** An empty stream does not decode; a stream of one byte decodes to a
    white image of 400 by 400 pixels, any other to a black image of 4 by 3
    pixels. *)
Definition open_image (b : bytes) : string + image :=
  match b with
  | [] => inl "cannot identify image file"
  | [_] => inr (Image_new_RGB (400, 400) (255, 255, 255))
  | _ => inr {| size := (4, 3);
                pixels := RasterRGB (replicate 12 (0, 0, 0));
                orientation := None |}
  end.

(** One byte for the image and one for each call drawn on it. *)
Definition save_image (path : string) (c : canvas) (quality : Z)
  : string + bytes :=
  inr (replicate (S (length c.2)) Byte.x2a).

Definition runtime_with (service : detect_request -> detect_outcome)
  : runtime :=
  {| secure_filename := sanitize;
     utcnow := fun _ =>
       {| year := 2026; month := 11; day := 3;
          hour := 8; minute := 5; second := 59 |};
     uuid4 := fun k => 0x9f1c2b3a4d5e4f60a1b2c3d4e5f60718 + Z.of_nat k * 2 ^ 96;
     Image_open := open_image;
     Image_save := save_image;
     detect_labels := service;
     fonts := {| truetype_loads := fun _ _ => false;
                 textbbox := fun _ s =>
                   (PInt (6 * Z.of_nat (String.length s)), PInt 11);
                 textbbox_raises := fun _ _ => None;
                 rejects := fun _ => None |};
     py_round := round1;
     float_str := str1 |}.

(** The check of Pillow 9.5 and later on a rectangle. *)
Definition rejects_inverted (op : draw_op) : option string :=
  match op with
  | Rectangle (x0, y0, x1, y1) _ _ _ =>
      if py_gt x0 x1 then Some "x1 must be greater than or equal to x0"
      else if py_gt y0 y1 then Some "y1 must be greater than or equal to y0"
      else None
  | Text _ _ _ _ => None
  end.

Definition with_checks (rt : runtime) : runtime :=
  {| secure_filename := secure_filename rt;
     utcnow := utcnow rt;
     uuid4 := uuid4 rt;
     Image_open := Image_open rt;
     Image_save := Image_save rt;
     detect_labels := detect_labels rt;
     fonts := {| truetype_loads := truetype_loads (fonts rt);
                 textbbox := textbbox (fonts rt);
                 textbbox_raises := textbbox_raises (fonts rt);
                 rejects := rejects_inverted |};
     py_round := py_round rt;
     float_str := float_str rt |}.

(** A label whose only instance has a box of negative width. *)
Definition inverted : label :=
  {| Name := Some "Dog";
     Confidence := Some 91.5%float;
     Instances :=
       Some [ {| BoundingBox :=
                   Some (<["Left" := 0.5%float]> (<["Top" := 0.5%float]>
                         (<["Width" := (-0.25)%float]>
                         (<["Height" := 0.25%float]> ∅))));
                 InstanceConfidence := None |} ] |}.

Definition cat_box : gmap string float :=
  <["Left" := 0.5%float]> (<["Width" := 0.25%float]> ∅).

(** A label as the service may send it: no overall confidence, one
    instance without a box, one whose box lacks two of its keys. *)
Definition cat : label :=
  {| Name := Some "Cat";
     Confidence := None;
     Instances :=
       Some [ {| BoundingBox := None; InstanceConfidence := Some 80%float |};
              {| BoundingBox := Some cat_box; InstanceConfidence := None |} ] |}.

(** The same label without its name. *)
Definition nameless : label :=
  {| Name := None; Confidence := Confidence cat; Instances := Instances cat |}.

Definition service_up (r : detect_request) : detect_outcome :=
  Responded {| Labels := Some [cat] |}.

Definition service_down (r : detect_request) : detect_outcome :=
  RaisedBoto {| response_message := Some "Rate exceeded";
                error_str := "An error occurred (ThrottlingException)" |}.

Definition service_nameless (r : detect_request) : detect_outcome :=
  Responded {| Labels := Some [nameless] |}.

Definition empty_world : world :=
  {| files := ∅; clock_reads := 0; uuid_draws := 0; sent := [] |}.

Definition photo : http_request :=
  {| file := Some {| filename := "my cat.JPG"; stream := [Byte.xff; Byte.xd8] |} |}.

Definition square_photo : http_request :=
  {| file := Some {| filename := "square.jpeg"; stream := [Byte.xff] |} |}.

Definition not_a_photo : http_request :=
  {| file := Some {| filename := "notes.jpg"; stream := [] |} |}.

End Sample.

(** * Properties *)

(** ** Geometry *)

Lemma pixel_box_get (img_w img_h : Z) (box : gmap string float) :
  pixel_box img_w img_h box
  = (let get (k : string) := default (PInt 0) (PFloat <$> box !! k) in
     (py_mul (PInt img_w) (get "Left"),
      py_mul (PInt img_h) (get "Top"),
      py_add (py_mul (PInt img_w) (get "Left")) (py_mul (PInt img_w) (get "Width")),
      py_add (py_mul (PInt img_h) (get "Top")) (py_mul (PInt img_h) (get "Height")))).
Proof. reflexivity. Qed.

Lemma pixel_box_full (img_w img_h : Z) (l t w h : float)
  (box : gmap string float) :
  pixel_box img_w img_h
    (<["Left" := l]> (<["Top" := t]> (<["Width" := w]> (<["Height" := h]> box))))
  = (PFloat (Z2float img_w * l),
     PFloat (Z2float img_h * t),
     PFloat (Z2float img_w * l + Z2float img_w * w),
     PFloat (Z2float img_h * t + Z2float img_h * h)).
Proof. rewrite pixel_box_get. cbv zeta. by simplify_map_eq. Qed.

(** C1. For a bounding box with fractions (l, t, w, h) and an image of W by
    H pixels the pixel box is left = W*l, top = H*t, right = left + W*w,
    bottom = top + H*h, in Python's float arithmetic and for every float,
    so nothing is clamped: fractions below 0 or above 1 give edges off the
    canvas.  The box (0.25, 0.25, 0.5, 0.5) on 800 by 600 gives
    (200, 150, 600, 450). *)
Theorem pixel_box_formula :
  (forall (img_w img_h : Z) (l t w h : float) (box : gmap string float),
     pixel_box img_w img_h
       (<["Left" := l]> (<["Top" := t]> (<["Width" := w]> (<["Height" := h]> box))))
     = (PFloat (Z2float img_w * l),
        PFloat (Z2float img_h * t),
        PFloat (Z2float img_w * l + Z2float img_w * w),
        PFloat (Z2float img_h * t + Z2float img_h * h)))
  /\ pixel_box 800 600
       (<["Left" := 0.25%float]> (<["Top" := 0.25%float]>
        (<["Width" := 0.5%float]> (<["Height" := 0.5%float]> ∅))))
     = (PFloat 200, PFloat 150, PFloat 600, PFloat 450)
  /\ pixel_box 800 600
       (<["Left" := (-0.5)%float]> (<["Top" := 1.25%float]>
        (<["Width" := 2%float]> (<["Height" := 0.5%float]> ∅))))
     = (PFloat (-400), PFloat 750, PFloat 1200, PFloat 1050).
Proof.
  split; [apply pixel_box_full | split; vm_compute; reflexivity].
Qed.

(** ** The synthetic detector *)

(** C2. With the dry run selected, whatever the image, its bytes and the
    state, detection returns (it sends nothing and raises nothing) exactly
    one label, "SampleObject" with confidence 99.1, holding exactly one
    instance of confidence 99.1 whose box is Left 0.25, Top 0.25,
    Width 0.5, Height 0.5 and has no other key. *)
Theorem detect_dry_run (rt : runtime) (pil : image) (image_bytes : bytes)
  (w : world) :
  detect rt true pil image_bytes w = (inr dry_run_labels, w)
  /\ exists (lab : label) (inst : instance) (box : gmap string float),
       dry_run_labels = [lab]
       /\ Name lab = Some "SampleObject"
       /\ Confidence lab = Some 99.1%float
       /\ Instances lab = Some [inst]
       /\ InstanceConfidence inst = Some 99.1%float
       /\ BoundingBox inst = Some box
       /\ box !! "Left" = Some 0.25%float
       /\ box !! "Top" = Some 0.25%float
       /\ box !! "Width" = Some 0.5%float
       /\ box !! "Height" = Some 0.5%float
       /\ base.size box = 4%nat.
Proof.
  split.
  - unfold detect. by destruct (size pil).
  - do 3 eexists. split; [reflexivity |].
    repeat split; vm_compute; reflexivity.
Qed.

(** ** Exact float arithmetic

    Binary64 addition and subtraction, as the kernel's floats and their
    specification [SpecFloat] define them, return the exact result whenever
    it is a binary64 number. *)

Lemma digits2_pos_size (m : positive) : digits2_pos m = Pos.size m.
Proof. induction m as [m IH | m IH |]; simpl; congruence. Qed.

Lemma digits2_log2 (m : positive) : Z.pos (digits2_pos m) = Z.log2 (Z.pos m) + 1.
Proof.
  rewrite digits2_pos_size.
  destruct m as [m | m |]; cbn [Pos.size Z.log2]; lia.
Qed.

(** bounds of a number of [d] binary digits *)
Lemma digits2_bounds (m : positive) :
  2 ^ (Z.pos (digits2_pos m) - 1) <= Z.pos m < 2 ^ Z.pos (digits2_pos m).
Proof.
  rewrite digits2_log2. replace (Z.log2 (Z.pos m) + 1 - 1) with (Z.log2 (Z.pos m)) by lia.
  pose proof (Z.log2_spec (Z.pos m) ltac:(lia)) as H.
  rewrite <- Z.add_1_r in H. exact H.
Qed.

Lemma digits2_mul_pow2 (m : positive) (k : Z) (p : positive) :
  0 <= k -> Z.pos p = Z.pos m * 2 ^ k ->
  Z.pos (digits2_pos p) = Z.pos (digits2_pos m) + k.
Proof.
  intros Hk Hp. rewrite !digits2_log2, Hp, Z.log2_mul_pow2 by lia. lia.
Qed.

Lemma pos_iter_xO (m d : positive) :
  Z.pos (Pos.iter xO m d) = Z.pos m * 2 ^ Z.pos d.
Proof.
  induction d as [| d IH] using Pos.peano_ind.
  - simpl. lia.
  - rewrite Pos.iter_succ, Pos2Z.inj_succ, Z.pow_succ_r by lia.
    change (Z.pos (xO (Pos.iter xO m d))) with (2 * Z.pos (Pos.iter xO m d)).
    rewrite IH. lia.
Qed.

Lemma iter_pos_nat {A : Type} (f : A -> A) (p : positive) (x : A) :
  SpecFloat.iter_pos f p x = Nat.iter (Pos.to_nat p) f x.
Proof.
  revert x. induction p as [p IH | p IH |]; intros x; cbn [SpecFloat.iter_pos].
  - rewrite !IH, Pos2Nat.inj_xI, <- Nat.iter_add, <- Nat.iter_succ_r.
    f_equal. lia.
  - rewrite !IH, Pos2Nat.inj_xO, <- Nat.iter_add. f_equal. lia.
  - reflexivity.
Qed.

Lemma shr_1_even (m : positive) :
  shr_1 {| shr_m := Z.pos (xO m); shr_r := false; shr_s := false |}
  = {| shr_m := Z.pos m; shr_r := false; shr_s := false |}.
Proof. reflexivity. Qed.

Lemma iter_shr_1_exact (n : nat) (m p : positive) :
  Z.pos p = Z.pos m * 2 ^ Z.of_nat n ->
  Nat.iter n shr_1 {| shr_m := Z.pos p; shr_r := false; shr_s := false |}
  = {| shr_m := Z.pos m; shr_r := false; shr_s := false |}.
Proof.
  revert p. induction n as [| n IH]; intros p Hp.
  - simpl in *. f_equal. lia.
  - rewrite Nat.iter_succ_r.
    rewrite Nat2Z.inj_succ, Z.pow_succ_r in Hp by lia.
    destruct p as [p | p |]; try lia.
    rewrite shr_1_even. apply IH. lia.
Qed.

Lemma bounded_spec (m : positive) (e : Z) :
  bounded prec emax m e = true <->
  Z.max (Z.pos (digits2_pos m) + e - 53) (-1074) = e /\ e <= 971.
Proof.
  unfold bounded, canonical_mantissa, fexp, SpecFloat.emin, prec, emax.
  rewrite Bool.andb_true_iff, Z.eqb_eq, Z.leb_le.
  change (3 - 1024 - 53) with (-1074). change (1024 - 53) with 971. reflexivity.
Qed.

Lemma pow2_nonzero (k : Z) : 0 <= k -> 2 ^ k <> 0.
Proof. intros Hk. pose proof (Z.pow_pos_nonneg 2 k ltac:(lia) Hk). lia. Qed.

Lemma fexp_spec (x : Z) : fexp prec emax x = Z.max (x - 53) (-1074).
Proof. reflexivity. Qed.

Lemma shr_exact (mz m : positive) (ez e : Z) :
  ez <= e -> Z.pos mz = Z.pos m * 2 ^ (e - ez) ->
  shr {| shr_m := Z.pos mz; shr_r := false; shr_s := false |} ez (e - ez)
  = ({| shr_m := Z.pos m; shr_r := false; shr_s := false |}, e).
Proof.
  intros Hle Hm. unfold shr.
  destruct (e - ez) as [| p | p] eqn:Hp; try lia.
  - rewrite Z.pow_0_r, Z.mul_1_r in Hm. injection Hm as ->. f_equal. lia.
  - rewrite iter_pos_nat. f_equal; [| lia].
    apply iter_shr_1_exact. rewrite positive_nat_Z. exact Hm.
Qed.

Lemma binary_round_aux_exact (s : bool) (mz m : positive) (ez e : Z) :
  bounded prec emax m e = true ->
  ez <= e -> Z.pos mz = Z.pos m * 2 ^ (e - ez) ->
  binary_round_aux prec emax s (Z.pos mz) ez loc_Exact = S754_finite s m e.
Proof.
  intros Hb Hle Hm. pose proof Hb as Hb'. apply bounded_spec in Hb' as [Hc He].
  unfold binary_round_aux, shr_fexp.
  cbn [Zdigits2 shr_record_of_loc]. rewrite fexp_spec.
  rewrite (digits2_mul_pow2 m (e - ez) mz) by (lia || assumption).
  replace (Z.pos (digits2_pos m) + (e - ez) + ez - 53)
    with (Z.pos (digits2_pos m) + e - 53) by lia.
  rewrite Hc, (shr_exact mz m ez e Hle Hm).
  cbn [shr_m loc_of_shr_record round_nearest_even Zdigits2 shr_record_of_loc].
  rewrite fexp_spec, Hc, Z.sub_diag. cbn [shr shr_m].
  change (emax - prec) with 971.
  destruct (Z.leb_spec e 971); [reflexivity | lia].
Qed.

Lemma binary_round_exact (s : bool) (mx m : positive) (ex e : Z) :
  bounded prec emax m e = true ->
  Z.pos mx * 2 ^ (ex + 1074) = Z.pos m * 2 ^ (e + 1074) ->
  -1074 <= ex ->
  binary_round prec emax s mx ex = S754_finite s m e.
Proof.
  intros Hb Hv Hex. pose proof Hb as Hb'. apply bounded_spec in Hb' as [Hc He].
  assert (Hemin : -1074 <= e) by lia.
  assert (Hd : Z.pos (digits2_pos mx) + ex = Z.pos (digits2_pos m) + e).
  { rewrite !digits2_log2.
    assert (Z.log2 (Z.pos mx * 2 ^ (ex + 1074)) = Z.log2 (Z.pos m * 2 ^ (e + 1074)))
      by (f_equal; exact Hv).
    rewrite !Z.log2_mul_pow2 in H by lia. lia. }
  unfold binary_round. rewrite fexp_spec, Hd, Hc.
  unfold shl_align.
  destruct (e - ex) as [| p | p] eqn:Hp.
  - apply binary_round_aux_exact; [assumption | lia |].
    assert (e = ex) by lia. subst e.
    apply Z.mul_cancel_r in Hv; [| apply pow2_nonzero; lia].
    rewrite Z.sub_diag. lia.
  - apply binary_round_aux_exact; [assumption | lia |].
    replace (e + 1074) with ((e - ex) + (ex + 1074)) in Hv by lia.
    rewrite (Z.pow_add_r 2 (e - ex) (ex + 1074)), Z.mul_assoc in Hv by lia.
    apply Z.mul_cancel_r in Hv; [exact Hv | apply pow2_nonzero; lia].
  - apply binary_round_aux_exact; [assumption | lia |].
    rewrite Z.sub_diag, Z.mul_1_r, pos_iter_xO.
    replace (ex + 1074) with (Z.pos p + (e + 1074)) in Hv by lia.
    rewrite (Z.pow_add_r 2 (Z.pos p) (e + 1074)), Z.mul_assoc in Hv by lia.
    apply Z.mul_cancel_r in Hv; [exact Hv | apply pow2_nonzero; lia].
Qed.

(** two canonical representations of one value *)
Lemma canonical_unique (m1 m2 : positive) (e1 e2 : Z) :
  bounded prec emax m1 e1 = true -> bounded prec emax m2 e2 = true ->
  Z.pos m1 * 2 ^ (e1 + 1074) = Z.pos m2 * 2 ^ (e2 + 1074) ->
  m1 = m2 /\ e1 = e2.
Proof.
  intros [Hc1 He1]%bounded_spec [Hc2 He2]%bounded_spec Hv.
  assert (Hd : Z.pos (digits2_pos m1) + e1 = Z.pos (digits2_pos m2) + e2).
  { rewrite !digits2_log2.
    assert (Z.log2 (Z.pos m1 * 2 ^ (e1 + 1074)) = Z.log2 (Z.pos m2 * 2 ^ (e2 + 1074)))
      by (f_equal; exact Hv).
    rewrite !Z.log2_mul_pow2 in H by lia. lia. }
  assert (e1 = e2) by lia. subst e2.
  split; [| reflexivity].
  apply Z.mul_cancel_r in Hv; [lia | apply pow2_nonzero; lia].
Qed.

Lemma pow2_pos (k : Z) : 0 <= k -> 0 < 2 ^ k.
Proof. intros Hk. apply Z.pow_pos_nonneg; lia. Qed.

Lemma repr_finite_pos (v : Z) (x : spec_float) :
  repr v x -> 0 < v ->
  exists m e, x = S754_finite false m e /\ bounded prec emax m e = true
              /\ v = Z.pos m * 2 ^ (e + 1074).
Proof.
  intros [Hvalid Hval] Hv. destruct x as [s | s | | s m e]; try discriminate.
  - injection Hval as <-. lia.
  - cbn [SpecFloat.valid_binary] in Hvalid. cbn [sf_val] in Hval.
    assert (v = cond_Zopp s (Z.pos m * 2 ^ (e + 1074))) by congruence.
    subst v. clear Hval.
    pose proof Hvalid as [Hc He]%bounded_spec.
    pose proof (Z.mul_pos_pos (Z.pos m) _ ltac:(lia) (pow2_pos (e + 1074) ltac:(lia))).
    destruct s; unfold cond_Zopp in *; [lia |]. eauto.
Qed.

Lemma repr_finite_neg (v : Z) (x : spec_float) :
  repr v x -> v < 0 ->
  exists m e, x = S754_finite true m e /\ bounded prec emax m e = true
              /\ v = - (Z.pos m * 2 ^ (e + 1074)).
Proof.
  intros [Hvalid Hval] Hv. destruct x as [s | s | | s m e]; try discriminate.
  - injection Hval as <-. lia.
  - cbn [SpecFloat.valid_binary] in Hvalid. cbn [sf_val] in Hval.
    assert (v = cond_Zopp s (Z.pos m * 2 ^ (e + 1074))) by congruence.
    subst v. clear Hval.
    pose proof Hvalid as [Hc He]%bounded_spec.
    pose proof (Z.mul_pos_pos (Z.pos m) _ ltac:(lia) (pow2_pos (e + 1074) ltac:(lia))).
    destruct s; unfold cond_Zopp in *; [eauto | lia].
Qed.

Lemma repr_unique (v : Z) (x y : spec_float) :
  v <> 0 -> repr v x -> repr v y -> x = y.
Proof.
  intros Hv Hx Hy.
  destruct (Z.lt_trichotomy v 0) as [Hneg | [H0 | Hpos]]; [| lia |].
  - destruct (repr_finite_neg v x Hx Hneg) as (m1 & e1 & -> & Hb1 & Hv1).
    destruct (repr_finite_neg v y Hy Hneg) as (m2 & e2 & -> & Hb2 & Hv2).
    destruct (canonical_unique m1 m2 e1 e2 Hb1 Hb2 ltac:(lia)) as [-> ->].
    reflexivity.
  - destruct (repr_finite_pos v x Hx Hpos) as (m1 & e1 & -> & Hb1 & Hv1).
    destruct (repr_finite_pos v y Hy Hpos) as (m2 & e2 & -> & Hb2 & Hv2).
    destruct (canonical_unique m1 m2 e1 e2 Hb1 Hb2 ltac:(lia)) as [-> ->].
    reflexivity.
Qed.

(** [n * 2^k], with [n] of at most 53 bits, is a binary64 value. *)
Lemma representable_scaled (n k : Z) :
  0 <= n < 2 ^ 53 -> 0 <= k <= 2045 -> representable (n * 2 ^ k).
Proof.
  intros Hn Hk.
  destruct (Z.eq_dec n 0) as [-> | Hn0].
  { exists (S754_zero false). split; reflexivity. }
  set (D := Z.log2 n + 1).
  assert (HD : 1 <= D <= 53).
  { subst D. pose proof (Z.log2_nonneg n).
    assert (Z.log2 n < 53) by (apply Z.log2_lt_pow2; lia). lia. }
  set (j := Z.min k (53 - D)).
  assert (Hj : 0 <= j) by lia.
  pose proof (pow2_pos j Hj) as Hpj.
  remember (Z.to_pos (n * 2 ^ j)) as m eqn:Hm.
  assert (Hmz : Z.pos m = n * 2 ^ j) by (subst m; rewrite Z2Pos.id; nia).
  exists (S754_finite false m (k - j - 1074)). split.
  - cbn [SpecFloat.valid_binary]. apply bounded_spec.
    rewrite digits2_log2, Hmz, Z.log2_mul_pow2 by lia. fold D. lia.
  - cbn [sf_val cond_Zopp].
    rewrite Hmz, <- Z.mul_assoc, <- Z.pow_add_r by lia.
    do 3 f_equal. lia.
Qed.

Lemma shl_align_fst (mx : positive) (ex ez : Z) :
  ez <= ex ->
  Z.pos (fst (shl_align mx ex ez)) = Z.pos mx * 2 ^ (ex - ez).
Proof.
  intros Hle. unfold shl_align.
  destruct (ez - ex) as [| p | p] eqn:Hp; cbn [fst]; try lia.
  - replace (ex - ez) with 0 by lia. lia.
  - rewrite pos_iter_xO. do 2 f_equal. lia.
Qed.

Lemma binary_normalize_exact (M ez : Z) :
  -1074 <= ez -> representable (M * 2 ^ (ez + 1074)) ->
  repr (M * 2 ^ (ez + 1074)) (binary_normalize prec emax M ez false).
Proof.
  intros Hez [r Hr].
  pose proof (pow2_pos (ez + 1074) ltac:(lia)) as Hp.
  destruct M as [| p | p]; cbn [binary_normalize].
  - split; reflexivity.
  - destruct (repr_finite_pos _ _ Hr ltac:(nia)) as (m & e & -> & Hb & Hv).
    rewrite (binary_round_exact false p m ez e Hb Hv Hez). exact Hr.
  - destruct (repr_finite_neg _ _ Hr ltac:(nia)) as (m & e & -> & Hb & Hv).
    rewrite (binary_round_exact true p m ez e Hb ltac:(lia) Hez). exact Hr.
Qed.

Lemma aligned_sum (sx sy : bool) (mx my : positive) (ex ey : Z) (neg : bool) :
  -1074 <= ex -> -1074 <= ey ->
  (cond_Zopp sx (Z.pos (fst (shl_align mx ex (Z.min ex ey))))
   + cond_Zopp neg (cond_Zopp sy (Z.pos (fst (shl_align my ey (Z.min ex ey))))))
  * 2 ^ (Z.min ex ey + 1074)
  = cond_Zopp sx (Z.pos mx * 2 ^ (ex + 1074))
    + cond_Zopp neg (cond_Zopp sy (Z.pos my * 2 ^ (ey + 1074))).
Proof.
  intros Hex Hey.
  rewrite !shl_align_fst by lia.
  assert (Hx : 2 ^ (ex + 1074) = 2 ^ (ex - Z.min ex ey) * 2 ^ (Z.min ex ey + 1074))
    by (rewrite <- Z.pow_add_r by lia; f_equal; lia).
  assert (Hy : 2 ^ (ey + 1074) = 2 ^ (ey - Z.min ex ey) * 2 ^ (Z.min ex ey + 1074))
    by (rewrite <- Z.pow_add_r by lia; f_equal; lia).
  rewrite Hx, Hy.
  destruct sx, sy, neg; cbn [cond_Zopp]; ring.
Qed.

Lemma valid_finite_emin (s : bool) (m : positive) (e : Z) :
  SpecFloat.valid_binary prec emax (S754_finite s m e) = true -> -1074 <= e.
Proof. cbn. intros [Hc He]%bounded_spec. lia. Qed.

Lemma SFadd_exact (x y : spec_float) (vx vy : Z) :
  repr vx x -> repr vy y -> representable (vx + vy) ->
  repr (vx + vy) (SFadd prec emax x y).
Proof.
  intros [Hvx Hx] [Hvy Hy] Hr.
  destruct x as [sx | sx | | sx mx ex]; try discriminate;
    destruct y as [sy | sy | | sy my ey]; try discriminate;
    cbn [sf_val] in Hx, Hy;
    match type of Hx with Some ?a = _ => assert (vx = a) by congruence end;
    match type of Hy with Some ?a = _ => assert (vy = a) by congruence end;
    subst vx vy; clear Hx Hy.
  - cbn. destruct sx, sy; split; reflexivity.
  - rewrite Z.add_0_l. cbn [SFadd]. split; [assumption | reflexivity].
  - rewrite Z.add_0_r. cbn [SFadd]. split; [assumption | reflexivity].
  - pose proof (valid_finite_emin _ _ _ Hvx). pose proof (valid_finite_emin _ _ _ Hvy).
    cbn [SFadd].
    pose proof (aligned_sum sx sy mx my ex ey false ltac:(lia) ltac:(lia)) as Hs.
    cbn [cond_Zopp] in Hs. rewrite <- Hs in Hr |- *.
    apply binary_normalize_exact; [lia | exact Hr].
Qed.

Lemma SFsub_exact (x y : spec_float) (vx vy : Z) :
  repr vx x -> repr vy y -> representable (vx - vy) ->
  repr (vx - vy) (SFsub prec emax x y).
Proof.
  intros [Hvx Hx] [Hvy Hy] Hr.
  destruct x as [sx | sx | | sx mx ex]; try discriminate;
    destruct y as [sy | sy | | sy my ey]; try discriminate;
    cbn [sf_val] in Hx, Hy;
    match type of Hx with Some ?a = _ => assert (vx = a) by congruence end;
    match type of Hy with Some ?a = _ => assert (vy = a) by congruence end;
    subst vx vy; clear Hx Hy.
  - cbn. destruct sx, sy; split; reflexivity.
  - cbn [SFsub]. split; [exact Hvy |]. cbn. destruct sy; cbn; f_equal; lia.
  - rewrite Z.sub_0_r. cbn [SFsub]. split; [assumption | reflexivity].
  - pose proof (valid_finite_emin _ _ _ Hvx). pose proof (valid_finite_emin _ _ _ Hvy).
    cbn [SFsub].
    pose proof (aligned_sum sx sy mx my ex ey true ltac:(lia) ltac:(lia)) as Hs.
    cbn [cond_Zopp] in Hs. rewrite <- !Z.add_opp_r in Hr |- *.
    rewrite <- Hs in Hr |- *.
    apply binary_normalize_exact; [lia | exact Hr].
Qed.

Lemma fval_repr (x : float) (v : Z) : fval x = Some v -> repr v (Prim2SF x).
Proof. intros Hv. split; [apply Prim2SF_valid | exact Hv]. Qed.

Lemma add_exact (x y : float) (vx vy : Z) :
  fval x = Some vx -> fval y = Some vy -> representable (vx + vy) ->
  fval (x + y) = Some (vx + vy).
Proof.
  intros Hx Hy Hr. unfold fval. rewrite add_spec.
  apply (SFadd_exact _ _ vx vy); auto using fval_repr.
Qed.

Lemma sub_exact (x y : float) (vx vy : Z) :
  fval x = Some vx -> fval y = Some vy -> representable (vx - vy) ->
  fval (x - y) = Some (vx - vy).
Proof.
  intros Hx Hy Hr. unfold fval. rewrite sub_spec.
  apply (SFsub_exact _ _ vx vy); auto using fval_repr.
Qed.

Lemma Z2float_exact (z : Z) :
  0 <= z < 2 ^ 53 -> fval (Z2float z) = Some (z * 2 ^ 1074).
Proof.
  intros Hz. unfold fval, Z2float.
  pose proof (binary_normalize_exact z 0 ltac:(lia)
                (representable_scaled z 1074 Hz ltac:(lia))) as [Hvalid Hval].
  rewrite Prim2SF_SF2Prim by exact Hvalid. exact Hval.
Qed.

Lemma fval_inj (x y : float) (v : Z) :
  v <> 0 -> fval x = Some v -> fval y = Some v -> x = y.
Proof.
  intros Hv Hx Hy. apply Prim2SF_inj.
  apply (repr_unique v); auto using fval_repr.
Qed.

Lemma Z_cmp_float_val (a : Z) (f : float) (v : Z) :
  fval f = Some v -> Z_cmp_float a f = Some (a * 2 ^ 1074 ?= v).
Proof.
  unfold fval, Z_cmp_float. pose proof (Prim2SF_valid f) as Hvalid.
  pose proof (pow2_pos 1074 ltac:(lia)) as H1074.
  destruct (Prim2SF f) as [s | s | | s m e]; try discriminate;
    cbn [sf_val]; intros Hv;
    match type of Hv with Some ?t = _ => assert (v = t) by congruence end;
    subst v; clear Hv.
  - f_equal. rewrite (Zmult_compare_compat_r a 0 (2 ^ 1074)) by lia.
    reflexivity.
  - apply valid_finite_emin in Hvalid. f_equal.
    assert (Hsign : cond_Zopp s (Z.pos m * 2 ^ (e + 1074))
                    = (if s then Z.neg m else Z.pos m) * 2 ^ (e + 1074))
      by (destruct s; cbn [cond_Zopp]; lia).
    rewrite Hsign. set (v0 := if s then Z.neg m else Z.pos m).
    destruct (Z.leb_spec 0 e) as [He | He].
    + rewrite (Zmult_compare_compat_r a (v0 * 2 ^ e) (2 ^ 1074)) by lia.
      rewrite <- Z.mul_assoc, <- Z.pow_add_r by lia. reflexivity.
    + pose proof (pow2_pos (e + 1074) ltac:(lia)).
      rewrite (Zmult_compare_compat_r (a * 2 ^ (- e)) v0 (2 ^ (e + 1074))) by lia.
      rewrite <- Z.mul_assoc, <- Z.pow_add_r by lia.
      do 3 f_equal. lia.
Qed.

(** A float below 2^53 and at least [c > 0] is finite and positive: its
    value is [m * 2^k] with [m] of at most 53 bits and [k <= 1074]. *)
Lemma float_between (top : float) (c : Z) :
  0 < c ->
  py_gt (PInt (2 ^ 53)) (PFloat top) = true ->
  py_gt (PInt c) (PFloat top) = false ->
  exists m k : Z,
    fval top = Some (m * 2 ^ k) /\ 0 <= k <= 1074
    /\ c * 2 ^ (1074 - k) <= m < 2 ^ 53.
Proof.
  intros Hc Hlt Hge. cbn [py_gt] in Hlt, Hge.
  pose proof (Prim2SF_valid top) as Hvalid.
  destruct (fval top) as [T |] eqn:HT.
  2:{ unfold fval in HT. unfold Z_cmp_float in Hlt, Hge.
      destruct (Prim2SF top) as [s | s | | s m e]; try discriminate.
      destruct s; discriminate. }
  rewrite (Z_cmp_float_val _ _ _ HT) in Hlt.
  rewrite (Z_cmp_float_val _ _ _ HT) in Hge.
  assert (HT1 : T < 2 ^ 53 * 2 ^ 1074).
  { destruct (Z.compare_spec (2 ^ 53 * 2 ^ 1074) T); try discriminate. lia. }
  assert (HT2 : c * 2 ^ 1074 <= T).
  { destruct (Z.compare_spec (c * 2 ^ 1074) T); try discriminate; lia. }
  pose proof (pow2_pos 1074 ltac:(lia)) as H1074.
  destruct (repr_finite_pos T _ (fval_repr _ _ HT) ltac:(nia))
    as (m & e & Hsf & Hb & HTm).
  pose proof Hb as [Hcan He]%bounded_spec.
  pose proof (digits2_bounds m) as [Hlo Hhi].
  set (d := Z.pos (digits2_pos m)) in *.
  assert (Hd : d <= 53) by lia.
  assert (Hm : Z.pos m < 2 ^ 53).
  { eapply Z.lt_le_trans; [exact Hhi |]. apply Z.pow_le_mono_r; lia. }
  assert (He0 : e <= 0).
  { destruct (Z.le_gt_cases e 0) as [| Hpos]; [assumption | exfalso].
    assert (d = 53) by lia.
    assert (2 ^ 52 <= Z.pos m) by (replace 52 with (d - 1) by lia; exact Hlo).
    assert (2 ^ 1075 <= 2 ^ (e + 1074)) by (apply Z.pow_le_mono_r; lia).
    assert (2 ^ 52 * 2 ^ 1075 <= Z.pos m * 2 ^ (e + 1074)) by (apply Z.mul_le_mono_nonneg; lia).
    rewrite <- !Z.pow_add_r in * by lia. cbn [Z.add Pos.add Pos.succ Pos.add_carry] in *.
    change (52 + 1075) with 1127 in *. change (53 + 1074) with 1127 in *. lia. }
  exists (Z.pos m), (e + 1074). split; [congruence |]. split; [lia |].
  split; [| exact Hm].
  replace (1074 - (e + 1074)) with (- e) by lia.
  pose proof (pow2_pos (e + 1074) ltac:(lia)) as Hk.
  assert (Hsplit : 2 ^ 1074 = 2 ^ (- e) * 2 ^ (e + 1074))
    by (rewrite <- Z.pow_add_r by lia; f_equal; lia).
  rewrite Hsplit, HTm, Z.mul_assoc in HT2.
  apply Z.mul_le_mono_pos_r in HT2; lia.
Qed.

Lemma py_gt_0_nonneg (x : float) (v : Z) :
  fval x = Some v -> 0 <= v -> py_gt (PInt 0) (PFloat x) = false.
Proof.
  intros Hx Hv. cbn [py_gt]. rewrite (Z_cmp_float_val _ _ _ Hx).
  rewrite Z.mul_0_l. destruct (Z.compare_spec 0 v); try reflexivity. lia.
Qed.

(** With an integer text height, a float top below 2^53 and at least
    text_h + 8: subtracting text_h and 8 and adding them back is exact. *)
Lemma label_background_bottom_float (l r b tw : pynum) (top : float) (th : Z) :
  0 <= th ->
  py_gt (PInt (2 ^ 53)) (PFloat top) = true ->
  py_gt (PInt (th + 8)) (PFloat top) = false ->
  (label_background (l, PFloat top, r, b) (tw, PInt th)).2 = PFloat top.
Proof.
  intros Hth Hlt Hge.
  destruct (float_between top (th + 8) ltac:(lia) Hlt Hge)
    as (m & k & HT & Hk & Hlo & Hhi).
  set (U := 2 ^ (1074 - k)) in *.
  set (P := 2 ^ k) in *.
  assert (HU : 0 < U) by (apply pow2_pos; lia).
  assert (HP : 0 < P) by (apply pow2_pos; lia).
  assert (HUP : 2 ^ 1074 = U * P)
    by (subst U P; rewrite <- Z.pow_add_r by lia; f_equal; lia).
  assert (Hth53 : 0 <= th < 2 ^ 53) by nia.
  pose proof (Z2float_exact th Hth53) as Hfth.
  pose proof (Z2float_exact 8 ltac:(lia)) as Hf8.
  (* top - text_h *)
  assert (Ha : fval (top - Z2float th) = Some ((m - th * U) * P)).
  { replace ((m - th * U) * P) with (m * P - th * 2 ^ 1074) by (rewrite HUP; ring).
    apply sub_exact; [assumption .. |].
    replace (m * P - th * 2 ^ 1074) with ((m - th * U) * P) by (rewrite HUP; ring).
    apply representable_scaled; [nia | lia]. }
  (* ... - 2 * pad *)
  assert (Hb : fval (top - Z2float th - Z2float 8) = Some ((m - th * U - 8 * U) * P)).
  { replace ((m - th * U - 8 * U) * P) with ((m - th * U) * P - 8 * 2 ^ 1074)
      by (rewrite HUP; ring).
    apply sub_exact; [assumption .. |].
    replace ((m - th * U) * P - 8 * 2 ^ 1074) with ((m - th * U - 8 * U) * P)
      by (rewrite HUP; ring).
    apply representable_scaled; [nia | lia]. }
  (* bg_top + text_h *)
  assert (Hc : fval (top - Z2float th - Z2float 8 + Z2float th) = Some ((m - 8 * U) * P)).
  { replace ((m - 8 * U) * P) with ((m - th * U - 8 * U) * P + th * 2 ^ 1074)
      by (rewrite HUP; ring).
    apply add_exact; [assumption .. |].
    replace ((m - th * U - 8 * U) * P + th * 2 ^ 1074) with ((m - 8 * U) * P)
      by (rewrite HUP; ring).
    apply representable_scaled; [nia | lia]. }
  (* ... + 2 * pad *)
  assert (Hd : fval (top - Z2float th - Z2float 8 + Z2float th + Z2float 8) = Some (m * P)).
  { replace (m * P) with ((m - 8 * U) * P + 8 * 2 ^ 1074) by (rewrite HUP; ring).
    apply add_exact; [assumption .. |].
    replace ((m - 8 * U) * P + 8 * 2 ^ 1074) with (m * P) by (rewrite HUP; ring).
    apply representable_scaled; [nia | lia]. }
  change ((label_background (l, PFloat top, r, b) (tw, PInt th)).2)
    with (py_add (py_add (py_max (PFloat (top - Z2float th - Z2float 8)) (PInt 0))
                    (PInt th)) (PInt 8)).
  unfold py_max.
  rewrite (py_gt_0_nonneg _ _ Hb) by nia.
  cbn [py_add]. f_equal.
  apply (fval_inj _ _ (m * P)); [nia | exact Hd | exact HT].
Qed.

(** [0 > n], read off the sign of [n]. *)
Lemma py_gt_0_negative (n : pynum) : py_gt (PInt 0) n = negative n.
Proof.
  destruct n as [z | x]; [reflexivity |].
  cbn [py_gt negative]. unfold Z_cmp_float.
  destruct (Prim2SF x) as [s | s | | s m e]; try reflexivity.
  - by destruct s.
  - destruct (0 <=? e) eqn:He.
    + apply Z.leb_le in He. pose proof (pow2_pos e He).
      destruct s; [| destruct (Z.compare_spec 0 (Z.pos m * 2 ^ e)); (done || lia)].
      destruct (Z.compare_spec 0 (Z.neg m * 2 ^ e)); (done || lia).
    + rewrite Z.mul_0_l. by destruct s.
Qed.

(** Comparing an integer with a float of known value. *)
Lemma py_gt_fval (a : Z) (x : float) (v : Z) :
  fval x = Some v ->
  py_gt (PInt a) (PFloat x) = bool_decide (v < a * 2 ^ 1074).
Proof.
  intros Hx. cbn [py_gt]. rewrite (Z_cmp_float_val _ _ _ Hx).
  destruct (Z.compare_spec (a * 2 ^ 1074) v);
    [rewrite bool_decide_eq_false_2 | rewrite bool_decide_eq_false_2
    | rewrite bool_decide_eq_true_2]; (done || lia).
Qed.

(** With an integer text height and a float top of value [v], below 2^53
    and at least text_h + 8: the unclamped top of the background is the
    float of value [v - (text_h + 8)], exactly. *)
Lemma label_background_top_float (top : float) (th v : Z) :
  0 <= th -> fval top = Some v ->
  (th + 8) * 2 ^ 1074 <= v < 2 ^ 53 * 2 ^ 1074 ->
  fval (top - Z2float th - Z2float 8) = Some (v - (th + 8) * 2 ^ 1074).
Proof.
  intros Hth HT Hv.
  assert (Hlt : py_gt (PInt (2 ^ 53)) (PFloat top) = true)
    by (rewrite (py_gt_fval _ _ _ HT); apply bool_decide_eq_true_2; lia).
  assert (Hge : py_gt (PInt (th + 8)) (PFloat top) = false)
    by (rewrite (py_gt_fval _ _ _ HT); apply bool_decide_eq_false_2; lia).
  destruct (float_between top (th + 8) ltac:(lia) Hlt Hge)
    as (m & k & HT' & Hk & Hlo & Hhi).
  assert (v = m * 2 ^ k) by congruence. subst v.
  set (U := 2 ^ (1074 - k)) in *.
  set (P := 2 ^ k) in *.
  assert (HU : 0 < U) by (apply pow2_pos; lia).
  assert (HP : 0 < P) by (apply pow2_pos; lia).
  assert (HUP : 2 ^ 1074 = U * P)
    by (subst U P; rewrite <- Z.pow_add_r by lia; f_equal; lia).
  assert (Hth53 : 0 <= th < 2 ^ 53) by nia.
  pose proof (Z2float_exact th Hth53) as Hfth.
  pose proof (Z2float_exact 8 ltac:(lia)) as Hf8.
  assert (Ha : fval (top - Z2float th) = Some ((m - th * U) * P)).
  { replace ((m - th * U) * P) with (m * P - th * 2 ^ 1074)
      by (rewrite HUP; ring).
    apply sub_exact; [assumption .. |].
    replace (m * P - th * 2 ^ 1074) with ((m - th * U) * P)
      by (rewrite HUP; ring).
    apply representable_scaled; [nia | lia]. }
  replace (m * P - (th + 8) * 2 ^ 1074) with ((m - th * U) * P - 8 * 2 ^ 1074)
    by (rewrite HUP; ring).
  apply sub_exact; [assumption .. |].
  replace ((m - th * U) * P - 8 * 2 ^ 1074) with ((m - th * U - 8 * U) * P)
    by (rewrite HUP; ring).
  apply representable_scaled; [nia | lia].
Qed.

(** The calls of [draw_label_box], when Pillow measures the text and
    accepts the three calls. *)
Lemma draw_label_box_accepted (fe : font_env) (draw : list draw_op)
  (xy_box : pynum * pynum * pynum * pynum) (text : string)
  (given : option font) :
  let f := pick_font fe given in
  let bg := label_background xy_box (textbbox fe f text) in
  let outline := Rectangle xy_box None (Some (255, 0, 0)) 3 in
  let background := Rectangle bg (Some (255, 255, 255)) None 1 in
  let caption :=
    Text (py_add bg.1.1.1 (PInt 4), py_add bg.1.1.2 (PInt 4))
      text (255, 0, 0) f in
  draw_label_box fe draw xy_box text given
  = match rejects fe outline with
    | Some msg => inl (ValueError msg)
    | None =>
        match textbbox_raises fe f text with
        | Some msg => inl (ValueError msg)
        | None =>
            match rejects fe background with
            | Some msg => inl (ValueError msg)
            | None =>
                match rejects fe caption with
                | Some msg => inl (ValueError msg)
                | None => inr (draw ++ [outline; background; caption])
                end
            end
        end
    end.
Proof.
  intros f bg outline background caption.
  unfold draw_label_box, draw_call. fold outline.
  destruct (rejects fe outline); [reflexivity |]. fold f.
  destruct (textbbox_raises fe f text); [reflexivity |].
  fold bg. subst background caption.
  destruct bg as [[[bg_left bg_top] bg_right] bg_bottom]. cbn [fst snd].
  destruct (rejects fe (Rectangle _ _ _ _)); [reflexivity |].
  change (PInt pad) with (PInt 4).
  destruct (rejects fe (Text _ _ _ _)); [reflexivity |].
  by rewrite <- !app_assoc.
Qed.

(** ** The label background *)

(** C9, as the code has it.  For every box, text and font, on Python
    numbers (floats included): the calls [draw_label_box] makes, when
    Pillow measures the text and accepts them, are the outline of the box,
    then the filled rectangle from (left, bg_top) to
    (left + text_w + 2*pad, bg_top + text_h + 2*pad) with pad = 4, then the
    text at (left + pad, bg_top + pad); the right and bottom edges are sums
    that nothing cuts back to the canvas.  bg_top is
    max(top - text_h - 2*pad, 0): 0 exactly when top - text_h - 2*pad is
    negative, that difference otherwise.  On integers the four edges are
    left, max(top - text_h - 8, 0), left + text_w + 8 and
    max(top - text_h - 8, 0) + text_h + 8.  The bottom edge is the top edge
    of the box when top >= text_h + 2*pad, for an integer text height and a
    top below 2^53 (int or float): there the float subtractions and
    additions are exact, bg_top being the float of value
    top - text_h - 8.  For a float left edge of integer value and an integer
    text width, with left + text_w + 8 below 2^53, the right edge is the
    float of value left + text_w + 8; under the clamp the bottom edge is
    text_h + 8. *)
Theorem draw_label_box_background (fe : font_env) (draw : list draw_op)
  (l t r b : pynum) (text : string) (given : option font) :
  let f := pick_font fe given in
  let tw := (textbbox fe f text).1 in
  let th := (textbbox fe f text).2 in
  let bg_top := py_max (py_sub (py_sub t th) (PInt 8)) (PInt 0) in
  let bg_right := py_add (py_add l tw) (PInt 8) in
  let bg_bottom := py_add (py_add bg_top th) (PInt 8) in
  let outline := Rectangle (l, t, r, b) None (Some (255, 0, 0)) 3 in
  let background :=
    Rectangle (l, bg_top, bg_right, bg_bottom) (Some (255, 255, 255)) None 1 in
  let caption :=
    Text (py_add l (PInt 4), py_add bg_top (PInt 4)) text (255, 0, 0) f in
  label_background (l, t, r, b) (tw, th) = (l, bg_top, bg_right, bg_bottom)
  /\ (textbbox_raises fe f text = None ->
      rejects fe outline = None -> rejects fe background = None ->
      rejects fe caption = None ->
      draw_label_box fe draw (l, t, r, b) text given
      = inr (draw ++ [outline; background; caption]))
  /\ py_gt (PInt 0) bg_top = false
  /\ (py_gt (PInt 0) (py_sub (py_sub t th) (PInt 8)) = true -> bg_top = PInt 0)
  /\ (forall h : Z,
        th = PInt h -> 0 <= h ->
        py_gt (PInt (2 ^ 53)) t = true ->
        py_gt (py_add th (PInt 8)) t = false ->
        bg_bottom = t)
  /\ bg_top = (if negative (py_sub (py_sub t th) (PInt 8)) then PInt 0
               else py_sub (py_sub t th) (PInt 8))
  /\ (forall li ti twi thi : Z,
        l = PInt li -> t = PInt ti -> tw = PInt twi -> th = PInt thi ->
        (l, bg_top, bg_right, bg_bottom)
        = (PInt li, PInt (Z.max (ti - thi - 8) 0), PInt (li + twi + 8),
           PInt (Z.max (ti - thi - 8) 0 + thi + 8)))
  /\ (forall (top : float) (v h : Z),
        t = PFloat top -> th = PInt h -> 0 <= h -> fval top = Some v ->
        (h + 8) * 2 ^ 1074 <= v < 2 ^ 53 * 2 ^ 1074 ->
        exists x : float,
          bg_top = PFloat x /\ fval x = Some (v - (h + 8) * 2 ^ 1074)
          /\ bg_bottom = t)
  /\ (forall (left_ : float) (a w : Z),
        l = PFloat left_ -> tw = PInt w -> fval left_ = Some (a * 2 ^ 1074) ->
        0 <= a -> 0 <= w -> a + w + 8 < 2 ^ 53 ->
        exists x : float,
          bg_right = PFloat x /\ fval x = Some ((a + w + 8) * 2 ^ 1074))
  /\ (forall h : Z,
        th = PInt h -> negative (py_sub (py_sub t th) (PInt 8)) = true ->
        bg_top = PInt 0 /\ bg_bottom = PInt (h + 8)).
Proof.
  intros f tw th bg_top bg_right bg_bottom outline background caption.
  split; [reflexivity |].
  split; [| split; [| split; [| split; [| split; [| split; [| split; [| split]]]]]]].
  - intros H0 H1 H2 H3.
    rewrite draw_label_box_accepted. fold f.
    rewrite (surjective_pairing (textbbox fe f text)). fold tw th.
    change (label_background (l, t, r, b) (tw, th))
      with (l, bg_top, bg_right, bg_bottom).
    cbn [fst snd]. fold outline background caption.
    by rewrite H0, H1, H2, H3.
  - subst bg_top. unfold py_max.
    destruct (py_gt (PInt 0) (py_sub (py_sub t th) (PInt 8))) eqn:E;
      [reflexivity | exact E].
  - intros Hneg. subst bg_top. unfold py_max. by rewrite Hneg.
  - intros h Hth Hh Hlt Hge. subst bg_bottom bg_top. rewrite Hth in *.
    destruct t as [z | top].
    + cbn [py_add py_gt py_sub] in *. apply Z.ltb_ge in Hge.
      unfold py_max. cbn [py_gt].
      destruct (Z.ltb_spec (z - h - 8) 0); [lia |].
      cbn [py_add]. f_equal. lia.
    + exact (label_background_bottom_float l r b tw top h Hh Hlt Hge).
  - subst bg_top. unfold py_max. by rewrite py_gt_0_negative.
  - intros li ti twi thi -> -> Htw Hth.
    subst bg_bottom bg_right bg_top. rewrite Htw, Hth.
    unfold py_max. cbn [py_sub py_add py_gt].
    destruct (Z.ltb_spec (ti - thi - 8) 0).
    + rewrite Z.max_r by lia. reflexivity.
    + rewrite Z.max_l by lia. reflexivity.
  - intros top v h -> Hth Hh HT Hv.
    pose proof (label_background_top_float top h v Hh HT Hv) as Hx.
    exists (top - Z2float h - Z2float 8)%float.
    assert (Htop : bg_top = PFloat (top - Z2float h - Z2float 8)).
    { subst bg_top. rewrite Hth. cbn [py_sub]. unfold py_max.
      rewrite (py_gt_0_nonneg _ _ Hx) by lia. reflexivity. }
    split; [exact Htop |]. split; [exact Hx |].
    subst bg_bottom bg_top. rewrite Hth.
    apply (label_background_bottom_float l r b tw top h Hh).
    + rewrite (py_gt_fval _ _ _ HT). apply bool_decide_eq_true_2. lia.
    + rewrite (py_gt_fval _ _ _ HT). apply bool_decide_eq_false_2. lia.
  - intros left_ a w Hl Htw Hleft Ha Hw Hsum.
    subst bg_right. rewrite Hl, Htw. cbn [py_add].
    eexists. split; [reflexivity |].
    assert (Hlw : fval (left_ + Z2float w) = Some ((a + w) * 2 ^ 1074)).
    { rewrite Z.mul_add_distr_r.
      apply add_exact; [done | apply Z2float_exact; lia |].
      rewrite <- Z.mul_add_distr_r. apply representable_scaled; lia. }
    replace ((a + w + 8) * 2 ^ 1074)
      with ((a + w) * 2 ^ 1074 + 8 * 2 ^ 1074) by lia.
    apply add_exact; [done | apply Z2float_exact; lia |].
    rewrite <- Z.mul_add_distr_r. apply representable_scaled; lia.
  - intros h Hth Hneg.
    assert (Htop : bg_top = PInt 0).
    { subst bg_top. unfold py_max. by rewrite py_gt_0_negative, Hneg. }
    split; [exact Htop |].
    subst bg_bottom. rewrite Htop, Hth. reflexivity.
Qed.

(** A box whose top is at the float 150.3, with a text of 60 by 11
    pixels: the background ends on the float 150.3 itself. *)
Lemma draw_label_box_background_witness :
  (label_background (PFloat 200, PFloat 150.3, PFloat 600, PFloat 450)
     (PInt 60, PInt 11)).2
  = PFloat 150.3.
Proof.
  pose proof (draw_label_box_background
                {| truetype_loads := fun _ _ => false;
                   textbbox := fun _ _ => (PInt 60, PInt 11);
                   textbbox_raises := fun _ _ => None;
                   rejects := fun _ => None |}
                [] (PFloat 200) (PFloat 150.3) (PFloat 600) (PFloat 450)
                "Cat (0.0%)" None)
    as (_ & _ & _ & _ & Htouch & _).
  apply (Htouch 11); [reflexivity | lia | reflexivity | reflexivity].
Defined.

(** C9, as stated, fails: a box whose top is the float 36028797018963976
    (above 2^53) with a text 4 pixels high has room for the label, and the
    background ends 8 rows above the top of the box. *)
Lemma label_background_bottom_rounded :
  py_gt (py_add (PInt 4) (PInt 8)) (PFloat 36028797018963976) = false
  /\ (label_background
        (PFloat 0, PFloat 36028797018963976, PFloat 100, PFloat 36028797018964076)
        (PInt 10, PInt 4)).2
     = PFloat 36028797018963968
  /\ PFloat 36028797018963968 <> PFloat 36028797018963976.
Proof.
  split; [by vm_compute |]. split; [by vm_compute |].
  intros H.
  apply (f_equal (fun n => match n with
                           | PFloat x => Prim2SF x
                           | PInt _ => S754_nan
                           end)) in H.
  vm_compute in H. discriminate H.
Qed.

(** ** The normalizer *)

Lemma exif_transpose_settled (im : image) :
  exif_method (default 1 (orientation (exif_transpose im))) = None.
Proof.
  unfold exif_transpose.
  destruct (exif_method (default 1 (orientation im))) eqn:E; [reflexivity | exact E].
Qed.

Lemma exif_transpose_fixed (im : image) :
  exif_method (default 1 (orientation im)) = None -> exif_transpose im = im.
Proof. intros E. unfold exif_transpose. by rewrite E. Qed.

(** What leaves the normalizer is an RGB raster whose Orientation tag, if
    any is left, asks for no turn. *)
Lemma pil_auto_prepare_shape (im : image) :
  (exists px, pixels (pil_auto_prepare im) = RasterRGB px)
  /\ exif_method (default 1 (orientation (pil_auto_prepare im))) = None.
Proof.
  unfold pil_auto_prepare.
  pose proof (exif_transpose_settled im) as Hs.
  destruct (exif_transpose im) as [wh [px | px | px | px] o]; cbn in *; eauto.
Qed.

Lemma pil_auto_prepare_fixed (im : image) (px : list rgb) :
  pixels im = RasterRGB px ->
  exif_method (default 1 (orientation im)) = None ->
  pil_auto_prepare im = im.
Proof.
  intros Hpx Ho. unfold pil_auto_prepare.
  rewrite (exif_transpose_fixed _ Ho).
  destruct im as [wh r o]. cbn in Hpx. by subst r.
Qed.

(** The output is always of mode RGB: three channels, no alpha band. *)
Lemma pil_auto_prepare_mode (im : image) : mode (pil_auto_prepare im) = "RGB".
Proof.
  destruct (pil_auto_prepare_shape im) as [[px Hpx] _].
  unfold mode. by rewrite Hpx.
Qed.

(** C4. Normalizing the output of the normalizer gives that output again,
    pixel for pixel, size and metadata included: this holds for every
    image, and so for every opaque RGB one. *)
Theorem pil_auto_prepare_idempotent (im : image) :
  pil_auto_prepare (pil_auto_prepare im) = pil_auto_prepare im.
Proof.
  destruct (pil_auto_prepare_shape im) as [[px Hpx] Ho].
  by apply (pil_auto_prepare_fixed _ px).
Qed.

(** An RGB image that needs no turn goes through unchanged. *)
Lemma pil_auto_prepare_RGB_unturned (wh : Z * Z) (px : list rgb) :
  pil_auto_prepare {| size := wh; pixels := RasterRGB px; orientation := None |}
  = {| size := wh; pixels := RasterRGB px; orientation := None |}.
Proof. by apply (pil_auto_prepare_fixed _ px). Qed.

Lemma paste_over_white (n : nat) (px : list rgba) :
  (length px <= n)%nat ->
  paste_mask_L (replicate n (255, 255, 255)) px (alpha_band px)
  = over_white <$> px.
Proof.
  revert n. induction px as [| p px IH]; intros n Hn.
  - by destruct n.
  - destruct n as [| n]; [cbn in Hn; lia |].
    cbn. f_equal. apply IH. cbn in Hn. lia.
Qed.

Lemma over_white_transparent (r g b : Z) :
  over_white (r, g, b, 0) = (255, 255, 255).
Proof.
  unfold over_white, paste_pixel, blend8.
  by rewrite !Z.mul_0_r.
Qed.

Lemma over_white_opaque (r g b : Z) :
  0 <= r <= 255 -> 0 <= g <= 255 -> 0 <= b <= 255 ->
  over_white (r, g, b, 255) = (r, g, b).
Proof.
  intros Hr Hg Hb. unfold over_white, paste_pixel, blend8.
  rewrite !Z.shiftr_div_pow2 by lia.
  change (2 ^ 8) with 256. change (255 - 255) with 0.
  repeat f_equal; Z.to_euclidean_division_equations; lia.
Qed.

(** On an RGBA image with as many pixels as its size says, the output is
    the turned image laid over white, pixel by pixel; a pixel of alpha 0
    comes out white. *)
Lemma pil_auto_prepare_RGBA (im : image) (px : list rgba) :
  pixels (exif_transpose im) = RasterRGBA px ->
  length px = Z.to_nat ((size (exif_transpose im)).1 * (size (exif_transpose im)).2) ->
  pixels (pil_auto_prepare im) = RasterRGB (over_white <$> px)
  /\ forall (i : nat) (r g b : Z),
       px !! i = Some (r, g, b, 0) ->
       (over_white <$> px) !! i = Some (255, 255, 255).
Proof.
  intros Hpx Hlen. split.
  - unfold pil_auto_prepare.
    destruct (exif_transpose im) as [wh r o]. cbn in Hpx, Hlen. subst r.
    change (bool_decide (mode _ ∉ ["RGB"; "RGBA"])) with false.
    cbn. f_equal. apply paste_over_white. lia.
  - intros i r g b Hi. rewrite list_lookup_fmap, Hi. cbn.
    f_equal. apply over_white_transparent.
Qed.

Lemma pil_auto_prepare_RGBA_witness :
  pixels
    (pil_auto_prepare
       {| size := (2, 1);
          pixels := RasterRGBA [(10, 20, 30, 0); (10, 20, 30, 255)];
          orientation := Some 6 |})
  = RasterRGB [(255, 255, 255); (10, 20, 30)].
Proof.
  apply (pil_auto_prepare_RGBA
           {| size := (2, 1);
              pixels := RasterRGBA [(10, 20, 30, 0); (10, 20, 30, 255)];
              orientation := Some 6 |}
           [(10, 20, 30, 0); (10, 20, 30, 255)]);
    reflexivity.
Defined.

(** With an alpha band on a grey image the conversion comes first and drops
    the band: the pixel keeps its grey level whatever its alpha. *)
Lemma pil_auto_prepare_LA (wh : Z * Z) (px : list (Z * Z)) :
  pil_auto_prepare {| size := wh; pixels := RasterLA px; orientation := None |}
  = {| size := wh;
       pixels := RasterRGB ((fun va => (va.1, va.1, va.1)) <$> px);
       orientation := None |}.
Proof. reflexivity. Qed.

(** C3. A grey image with an alpha band (mode LA) of one pixel, black and
    fully transparent: the normalizer returns an RGB image, but its pixel
    is black (0, 0, 0), not the white (255, 255, 255) the claim asks for. *)
Theorem pil_auto_prepare_LA_transparent_pixel :
  pil_auto_prepare {| size := (1, 1); pixels := RasterLA [(0, 0)]; orientation := None |}
  = {| size := (1, 1); pixels := RasterRGB [(0, 0, 0)]; orientation := None |}.
Proof. reflexivity. Qed.

(** ** File names *)

Lemma string_app_cons (c : ascii) (a b : string) :
  String c a +:+ b = String c (a +:+ b).
Proof. reflexivity. Qed.

Lemma list_ascii_of_string_app (a b : string) :
  list_ascii_of_string (a +:+ b) = list_ascii_of_string a ++ list_ascii_of_string b.
Proof.
  induction a as [| c a IH]; [reflexivity |].
  rewrite string_app_cons. simpl. by rewrite IH.
Qed.

Lemma string_app_inv_tail (a b e : string) : a +:+ e = b +:+ e -> a = b.
Proof.
  intros Heq. apply (f_equal list_ascii_of_string) in Heq.
  rewrite !list_ascii_of_string_app in Heq. apply app_inv_tail in Heq.
  rewrite <- (string_of_list_ascii_of_string a), <- (string_of_list_ascii_of_string b).
  by rewrite Heq.
Qed.

Lemma string_app_inv_head (p a b : string) : p +:+ a = p +:+ b -> a = b.
Proof.
  induction p as [| c p IH]; [done |].
  rewrite !string_app_cons. intros [=]. auto.
Qed.

Lemma is_digit_digit (d : Z) : is_digit (digit d) = true.
Proof.
  unfold is_digit, digit.
  pose proof (Z.mod_pos_bound d 10 ltac:(lia)) as Hd.
  rewrite nat_ascii_embedding by lia.
  apply andb_true_intro; split; apply Nat.leb_le; lia.
Qed.

Lemma is_hexdigit_hexdigit (d : Z) : is_hexdigit (hexdigit d) = true.
Proof.
  unfold is_hexdigit, hexdigit.
  pose proof (Z.mod_pos_bound d 16 ltac:(lia)) as Hd.
  destruct (d mod 16 <? 10) eqn:E.
  - apply Z.ltb_lt in E. rewrite nat_ascii_embedding by lia.
    apply orb_true_intro; left.
    apply andb_true_intro; split; apply Nat.leb_le; lia.
  - apply Z.ltb_ge in E. rewrite nat_ascii_embedding by lia.
    apply orb_true_intro; right.
    apply andb_true_intro; split; apply Nat.leb_le; lia.
Qed.

Lemma zpad_digits (width : nat) (n : Z) :
  length (zpad width n) = width /\ forallb is_digit (zpad width n) = true.
Proof.
  unfold zpad. split.
  - rewrite length_fmap, length_seqZ. lia.
  - apply forallb_forall. intros c Hc. apply in_map_iff in Hc as (i & <- & _).
    apply is_digit_digit.
Qed.

Lemma string_of_list_ascii_app (l1 l2 : list ascii) :
  string_of_list_ascii (l1 ++ l2)
  = string_of_list_ascii l1 +:+ string_of_list_ascii l2.
Proof.
  induction l1 as [| c l1 IH]; [reflexivity |].
  simpl. by rewrite string_app_cons, IH.
Qed.

Lemma string_app_empty_r (p : string) : p +:+ "" = p.
Proof.
  induction p as [| c p IH]; [reflexivity |].
  by rewrite string_app_cons, IH.
Qed.

Lemma splitext_join (p : string) : (splitext p).1 +:+ (splitext p).2 = p.
Proof.
  unfold splitext.
  destruct (_ && _); cbn [fst snd].
  - by rewrite <- string_of_list_ascii_app, take_drop,
      string_of_list_ascii_of_string.
  - apply string_app_empty_r.
Qed.

Lemma rfind_nth (c : ascii) (s : list ascii) (i : nat) :
  rfind c s = Some i -> s !! i = Some c.
Proof.
  revert i. induction s as [| a s IH]; intros i; cbn; [done |].
  destruct (rfind c s) as [j |].
  - intros [= <-]. cbn. by apply IH.
  - destruct (Ascii.eqb a c) eqn:E; [| done].
    intros [= <-]. cbn. apply Ascii.eqb_eq in E. by subst.
Qed.

(** The extension is empty or starts with a dot. *)
Lemma splitext_ext (p : string) :
  (splitext p).2 = "" \/ exists rest, (splitext p).2 = String "." rest.
Proof.
  unfold splitext.
  destruct (bool_decide _) eqn:Hgt; cbn [andb]; [| by left].
  destruct (existsb _ _); cbn [snd]; [| by left].
  right. apply bool_decide_eq_true in Hgt.
  destruct (rfind "." (list_ascii_of_string p)) as [i |] eqn:Hdot; cbn in *.
  - apply rfind_nth in Hdot. rewrite Nat2Z.id.
    rewrite (drop_S _ _ _ Hdot). cbn. eauto.
  - destruct (rfind "/" (list_ascii_of_string p)); cbn in Hgt; lia.
Qed.

Lemma length_string_of_list_ascii (l : list ascii) :
  String.length (string_of_list_ascii l) = length l.
Proof. induction l as [| c l IH]; simpl; [reflexivity | by rewrite IH]. Qed.

Lemma unique_name_fst (rt : runtime) (original_name prefix : string) (w : world) :
  (unique_name rt original_name prefix w).1
  = prefix +:+ (splitext (secure_filename rt original_name)).1 +:+ "_"
    +:+ strftime (utcnow rt (clock_reads w)) +:+ "_"
    +:+ prefix_of 8 (uuid_hex (uuid4 rt (uuid_draws w)))
    +:+ (if bool_decide ((splitext (secure_filename rt original_name)).2 = "")
         then ".jpg" else (splitext (secure_filename rt original_name)).2).
Proof.
  unfold unique_name.
  by destruct (splitext (secure_filename rt original_name)).
Qed.

Lemma unique_name_snd (rt : runtime) (original_name prefix : string) (w : world) :
  (unique_name rt original_name prefix w).2 = tick w.
Proof.
  unfold unique_name.
  by destruct (splitext (secure_filename rt original_name)).
Qed.

(** ** The upload route *)

Lemma allowed_file_nonempty (name : string) :
  allowed_file name = true -> bool_decide (name = "") = false.
Proof.
  intros Ha. apply bool_decide_eq_false. intros ->. discriminate Ha.
Qed.

(** The two names are drawn one after the other. *)
Lemma unique_name_twice (rt : runtime) (name : string) (w : world) {T : Type}
  (k : string -> string -> world -> T) :
  (let '(original_name, w1) := unique_name rt name "" w in
   let '(labeled_name, w2) := unique_name rt name "labeled_" w1 in
   k original_name labeled_name w2)
  = k (unique_name rt name "" w).1
      (unique_name rt name "labeled_" (tick w)).1
      (tick (tick w)).
Proof.
  rewrite (surjective_pairing (unique_name rt name "" w)), unique_name_snd.
  rewrite (surjective_pairing (unique_name rt name "labeled_" (tick w))),
    unique_name_snd.
  reflexivity.
Qed.

Ltac upload_accepted Hallowed :=
  unfold upload; cbn [file];
  rewrite (allowed_file_nonempty _ Hallowed), Hallowed; cbn [negb];
  rewrite unique_name_twice.

(** Detection leaves the files as they are. *)
Lemma detect_files (rt : runtime) (DRY_RUN : bool) (pil : image)
  (image_bytes : bytes) (w : world) :
  files (detect rt DRY_RUN pil image_bytes w).2 = files w.
Proof.
  unfold detect. destruct DRY_RUN.
  - by destruct (size pil).
  - by destruct (detect_labels rt _).
Qed.

(** C5. When the uploaded bytes do not decode, under a file name with an
    accepted extension, the route answers the decode error (status 400,
    with the decoder's message) and the files are what they were: neither
    the original nor the annotated image is written, and nothing is sent to
    the labeling service. *)
Theorem upload_decode_error (rt : runtime) (DRY_RUN : bool) (f : upload_file)
  (w : world) (msg : string) :
  allowed_file (filename f) = true ->
  Image_open rt (stream f) = inl msg ->
  exists w' : world,
    upload rt DRY_RUN {| file := Some f |} w
    = (ErrorPage ("Image processing error: " +:+ msg) 400, w')
    /\ files w' = files w
    /\ sent w' = sent w.
Proof.
  intros Hallowed Hopen. exists (tick (tick w)).
  upload_accepted Hallowed. by rewrite Hopen.
Qed.

Lemma upload_decode_error_witness :
  exists w' : world,
    upload (Sample.runtime_with Sample.service_up) false Sample.not_a_photo
      Sample.empty_world
    = (ErrorPage "Image processing error: cannot identify image file" 400, w')
    /\ files w' = ∅
    /\ sent w' = [].
Proof.
  apply (upload_decode_error (Sample.runtime_with Sample.service_up) false
           {| filename := "notes.jpg"; stream := [] |} Sample.empty_world
           "cannot identify image file");
    reflexivity.
Defined.



(** C8. In the remote variant, whatever the service answers, detection
    sends it exactly one request: the image bytes, MaxLabels = 10 and
    MinConfidence = 70; and when the service responds, the labels detection
    returns are the list under "Labels" of the response as it stands (the
    empty list when the key is absent). *)
Theorem detect_remote (rt : runtime) (pil : image) (image_bytes : bytes)
  (w : world) :
  let req :=
    {| Image_Bytes := image_bytes; MaxLabels := 10; MinConfidence := 70 |} in
  sent (detect rt false pil image_bytes w).2 = sent w ++ [req]
  /\ files (detect rt false pil image_bytes w).2 = files w
  /\ forall resp : detect_response,
       detect_labels rt req = Responded resp ->
       (detect rt false pil image_bytes w).1 = inr (default [] (Labels resp)).
Proof.
  intros req. split; [| split].
  - unfold detect. fold req. by destruct (detect_labels rt req).
  - apply detect_files.
  - intros resp Hresp. unfold detect. fold req. by rewrite Hresp.
Qed.

Lemma detect_remote_witness :
  (detect (Sample.runtime_with Sample.service_up) false
     (Image_new_RGB (4, 3) (0, 0, 0)) [Byte.x2a] Sample.empty_world).1
  = inr [Sample.cat].
Proof.
  pose proof (detect_remote (Sample.runtime_with Sample.service_up)
                (Image_new_RGB (4, 3) (0, 0, 0)) [Byte.x2a] Sample.empty_world)
    as (_ & _ & Hlabels).
  exact (Hlabels {| Labels := Some [Sample.cat] |} eq_refl).
Defined.

(** The whole route in the remote variant, when every step succeeds: the
    page shows the two names and the labels of the response, both files
    are written, and one request went out, carrying the saved original. *)
Lemma upload_remote_result (rt : runtime) (f : upload_file) (w : world)
  (pil : image) (saved annotated : bytes) (resp : detect_response)
  (draw : list draw_op) :
  let original_name := (unique_name rt (filename f) "" w).1 in
  let labeled_name := (unique_name rt (filename f) "labeled_" (tick w)).1 in
  let save_path := os_path_join UPLOAD_FOLDER original_name in
  let labeled_path := os_path_join UPLOAD_FOLDER labeled_name in
  let req := {| Image_Bytes := saved; MaxLabels := 10; MinConfidence := 70 |} in
  let labels := default [] (Labels resp) in
  allowed_file (filename f) = true ->
  Image_open rt (stream f) = inr pil ->
  Image_save rt save_path (pil_auto_prepare pil, []) 95 = inr saved ->
  detect_labels rt req = Responded resp ->
  draw_labels rt (size (pil_auto_prepare pil)).1 (size (pil_auto_prepare pil)).2
    labels [] = inr draw ->
  Image_save rt labeled_path (pil_auto_prepare pil, draw) 95 = inr annotated ->
  exists w' : world,
    upload rt false {| file := Some f |} w
    = (ResultPage original_name labeled_name labels, w')
    /\ files w' = <[labeled_path := annotated]> (<[save_path := saved]> (files w))
    /\ sent w' = sent w ++ [req].
Proof.
  intros original_name labeled_name save_path labeled_path req labels
    Hallowed Hopen Hsave Hresp Hdraw Hsave2.
  eexists. split.
  - upload_accepted Hallowed. rewrite Hopen.
    fold original_name labeled_name save_path. rewrite Hsave.
    set (w1 := write_file save_path saved (tick (tick w))).
    assert (Hread : files w1 !! save_path = Some saved)
      by apply lookup_insert_eq.
    rewrite Hread. unfold detect. fold req. rewrite Hresp. fold labels.
    destruct (size (pil_auto_prepare pil)) as [img_w img_h].
    cbn [fst snd] in Hdraw. rewrite Hdraw.
    fold labeled_path. rewrite Hsave2. reflexivity.
  - split; reflexivity.
Qed.

(** ** The rendering loop *)

Lemma label_box_accepted_spec (fe : font_env)
  (xy_box : pynum * pynum * pynum * pynum) (text : string) :
  let f := pick_font fe None in
  let bg := label_background xy_box (textbbox fe f text) in
  label_box_accepted fe xy_box text = true
  <-> textbbox_raises fe f text = None
      /\ rejects fe (Rectangle xy_box None (Some (255, 0, 0)) 3) = None
      /\ rejects fe (Rectangle bg (Some (255, 255, 255)) None 1) = None
      /\ rejects fe (Text (py_add bg.1.1.1 (PInt 4), py_add bg.1.1.2 (PInt 4))
                       text (255, 0, 0) f) = None.
Proof.
  intros f bg. unfold label_box_accepted, label_box_calls. fold f bg.
  cbn [forallb]. rewrite !andb_true_iff, !bool_decide_eq_true. tauto.
Qed.

(** One label box: the three calls are recorded exactly when Pillow
    measures the text and accepts them; otherwise a [ValueError] is
    raised. *)
Lemma draw_label_box_cases (fe : font_env) (draw : list draw_op)
  (xy_box : pynum * pynum * pynum * pynum) (text : string) :
  (label_box_accepted fe xy_box text = true
   /\ draw_label_box fe draw xy_box text None
      = inr (draw ++ label_box_calls fe xy_box text))
  \/ (label_box_accepted fe xy_box text = false
      /\ exists msg, draw_label_box fe draw xy_box text None
                     = inl (ValueError msg)).
Proof.
  rewrite draw_label_box_accepted.
  destruct (label_box_accepted fe xy_box text) eqn:Hacc.
  - left. split; [reflexivity |].
    apply label_box_accepted_spec in Hacc as (H0 & H1 & H2 & H3).
    by rewrite H1, H0, H2, H3.
  - right. split; [reflexivity |].
    apply not_true_iff_false in Hacc.
    rewrite label_box_accepted_spec in Hacc.
    destruct (rejects fe (Rectangle xy_box _ _ _)); [by eexists |].
    destruct (textbbox_raises fe _ text); [by eexists |].
    destruct (rejects fe (Rectangle _ (Some _) _ _)); [by eexists |].
    destruct (rejects fe (Text _ _ _ _)); [by eexists |].
    by destruct Hacc.
Qed.

Section RenderingLoop.
Context (rt : runtime) (img_w img_h : Z).

Lemma draw_instances_skip (lab : label) (inst : instance)
  (insts : list instance) (draw : list draw_op) :
  drawable inst = false ->
  draw_instances rt img_w img_h lab (inst :: insts) draw
  = draw_instances rt img_w img_h lab insts draw.
Proof.
  unfold drawable. cbn [draw_instances].
  destruct (BoundingBox inst) as [box |]; [| done].
  by destruct (bool_decide (box = ∅)).
Qed.

Lemma draw_instances_draw (lab : label) (inst : instance)
  (insts : list instance) (draw : list draw_op)
  (box : gmap string float) (text : string) :
  BoundingBox inst = Some box ->
  box <> ∅ ->
  label_text rt lab = inr text ->
  draw_instances rt img_w img_h lab (inst :: insts) draw
  = match draw_label_box (fonts rt) draw (pixel_box img_w img_h box)
            text None with
    | inl e => inl e
    | inr draw => draw_instances rt img_w img_h lab insts draw
    end.
Proof.
  intros Hbox Hne Htext. cbn [draw_instances].
  by rewrite Hbox, bool_decide_eq_false_2, Htext.
Qed.

Lemma label_text_named (lab : label) (name : string) :
  Name lab = Some name ->
  label_text rt lab
  = inr (name +:+ " ("
         +:+ float_str rt (py_round rt (default 0%float (Confidence lab)) 1)
         +:+ "%)").
Proof. intros Hn. unfold label_text. by rewrite Hn. Qed.

Lemma instance_calls_skip (lab : label) (inst : instance) :
  drawable inst = false -> instance_calls rt img_w img_h lab inst = [].
Proof.
  unfold drawable, instance_calls.
  destruct (BoundingBox inst) as [box |]; [| done].
  destruct (bool_decide (box = ∅)); [| done].
  by destruct (label_text rt lab).
Qed.

Lemma instance_calls_length (lab : label) (inst : instance) :
  is_Some (Name lab) -> drawable inst = true ->
  length (instance_calls rt img_w img_h lab inst) = 3%nat.
Proof.
  intros [name Hn]. unfold drawable, instance_calls.
  rewrite (label_text_named _ _ Hn).
  destruct (BoundingBox inst) as [box |]; [| done].
  by destruct (bool_decide (box = ∅)).
Qed.

Lemma instance_accepted_skip (lab : label) (inst : instance) :
  drawable inst = false -> instance_accepted rt img_w img_h lab inst = true.
Proof.
  unfold drawable, instance_accepted.
  destruct (BoundingBox inst) as [box |]; [| done].
  destruct (bool_decide (box = ∅)); [| done].
  by destruct (label_text rt lab).
Qed.

Lemma instance_drawn (lab : label) (inst : instance)
  (box : gmap string float) (text : string) :
  BoundingBox inst = Some box -> box <> ∅ -> label_text rt lab = inr text ->
  instance_accepted rt img_w img_h lab inst
  = label_box_accepted (fonts rt) (pixel_box img_w img_h box) text
  /\ instance_calls rt img_w img_h lab inst
     = label_box_calls (fonts rt) (pixel_box img_w img_h box) text.
Proof.
  intros Hbox Hne Htext. unfold instance_accepted, instance_calls.
  by rewrite Hbox, Htext, bool_decide_eq_false_2.
Qed.

(** The inner loop, outcome by outcome. *)
Lemma draw_instances_cases (lab : label) (insts : list instance)
  (draw : list draw_op) :
  match draw_instances rt img_w img_h lab insts draw with
  | inr draw' =>
      instances_accepted rt img_w img_h lab insts = true
      /\ (is_Some (Name lab) \/ existsb drawable insts = false)
      /\ draw' = draw ++ (insts ≫= instance_calls rt img_w img_h lab)
  | inl e =>
      (e = KeyError "Name" /\ Name lab = None
       /\ existsb drawable insts = true)
      \/ (instances_accepted rt img_w img_h lab insts = false
          /\ exists msg, e = ValueError msg)
  end.
Proof.
  revert draw. induction insts as [| inst insts IH]; intros draw.
  { cbn. rewrite app_nil_r. split; [done |]. split; [by right | done]. }
  change (instances_accepted rt img_w img_h lab (inst :: insts))
    with (instance_accepted rt img_w img_h lab inst
          && instances_accepted rt img_w img_h lab insts).
  change (existsb drawable (inst :: insts))
    with (drawable inst || existsb drawable insts).
  change ((inst :: insts) ≫= instance_calls rt img_w img_h lab)
    with (instance_calls rt img_w img_h lab inst
          ++ (insts ≫= instance_calls rt img_w img_h lab)).
  destruct (drawable inst) eqn:Hd.
  2:{ rewrite draw_instances_skip, instance_accepted_skip,
        instance_calls_skip by done.
      exact (IH draw). }
  cbn [orb]. unfold drawable in Hd.
  destruct (BoundingBox inst) as [box |] eqn:Hbox; [| done].
  apply negb_true_iff in Hd. pose proof Hd as Hne%bool_decide_eq_false.
  destruct (Name lab) as [name |] eqn:Hn.
  2:{ cbn [draw_instances]. rewrite Hbox, Hd. unfold label_text.
      rewrite Hn. left. by split. }
  rewrite (draw_instances_draw _ _ _ _ _ _ Hbox Hne (label_text_named _ _ Hn)).
  destruct (instance_drawn _ _ _ _ Hbox Hne (label_text_named _ _ Hn))
    as [-> ->].
  set (text := name +:+ _).
  destruct (draw_label_box_cases (fonts rt) draw (pixel_box img_w img_h box) text)
    as [[Hacc ->] | [Hacc [msg ->]]]; rewrite Hacc; cbn [andb].
  - specialize (IH (draw ++ label_box_calls (fonts rt)
                               (pixel_box img_w img_h box) text)).
    destruct (draw_instances _ _ _ _ _ _) as [e | draw'].
    + destruct IH as [(_ & [=] & _) | IH]. by right.
    + destruct IH as (Ha & _ & ->). split; [done |].
      split; [left; by eexists | by rewrite <- app_assoc].
  - right. split; [done | by eexists].
Qed.

(** The loop, outcome by outcome. *)
Lemma draw_labels_cases (labels : list label) (draw : list draw_op) :
  match draw_labels rt img_w img_h labels draw with
  | inr draw' =>
      loop_accepted rt img_w img_h labels = true
      /\ forallb renderable labels = true
      /\ draw' = draw ++ (lab ← labels;
                          inst ← default [] (Instances lab);
                          instance_calls rt img_w img_h lab inst)
  | inl e =>
      (e = KeyError "Name" /\ forallb renderable labels = false)
      \/ (loop_accepted rt img_w img_h labels = false
          /\ exists msg, e = ValueError msg)
  end.
Proof.
  revert draw. induction labels as [| lab labels IH]; intros draw.
  { cbn. by rewrite app_nil_r. }
  cbn [draw_labels loop_accepted forallb mbind list_bind].
  pose proof (draw_instances_cases lab (default [] (Instances lab)) draw) as Hi.
  fold (instances_accepted rt img_w img_h lab (default [] (Instances lab))).
  fold (loop_accepted rt img_w img_h labels).
  destruct (draw_instances _ _ _ _ _ _) as [e | draw1].
  - destruct Hi as [(-> & Hn & Hd) | [Ha Hmsg]].
    + left. split; [done |]. unfold renderable at 1. by rewrite Hn, Hd.
    + right. by rewrite Ha.
  - destruct Hi as (Ha & Hr & ->). rewrite Ha. cbn [andb].
    assert (Hlab : renderable lab = true).
    { unfold renderable. destruct Hr as [Hn | Hd].
      - apply orb_true_intro. right. by apply bool_decide_eq_true.
      - by rewrite Hd. }
    rewrite Hlab. cbn [andb].
    specialize (IH (draw ++ (default [] (Instances lab)
                             ≫= instance_calls rt img_w img_h lab))).
    destruct (draw_labels _ _ _ _ _) as [e | draw'].
    + exact IH.
    + destruct IH as (Hl & Hrest & ->). split; [done |].
      split; [done | by rewrite <- app_assoc].
Qed.

Lemma draw_labels_total (labels : list label) (draw : list draw_op) :
  (exists draw', draw_labels rt img_w img_h labels draw = inr draw')
  <-> loop_accepted rt img_w img_h labels = true
      /\ forallb renderable labels = true.
Proof.
  pose proof (draw_labels_cases labels draw) as Hc.
  destruct (draw_labels _ _ _ _ _) as [e | draw'].
  - split; [by intros [? [=]] |]. intros [Ha Hr].
    destruct Hc as [[_ Hc] | [Hc _]]; congruence.
  - destruct Hc as (Ha & Hr & _). split; [done | by eexists].
Qed.

Lemma draw_labels_calls (labels : list label) (draw : list draw_op) :
  loop_accepted rt img_w img_h labels = true ->
  forallb renderable labels = true ->
  draw_labels rt img_w img_h labels draw
  = inr (draw ++ (lab ← labels;
                  inst ← default [] (Instances lab);
                  instance_calls rt img_w img_h lab inst)).
Proof.
  intros Ha Hr. pose proof (draw_labels_cases labels draw) as Hc.
  destruct (draw_labels _ _ _ _ _) as [e | draw'].
  - destruct Hc as [[_ Hc] | [Hc _]]; congruence.
  - by destruct Hc as (_ & _ & ->).
Qed.

Lemma renderable_cases (lab : label) :
  renderable lab = true ->
  is_Some (Name lab) \/ existsb drawable (default [] (Instances lab)) = false.
Proof.
  unfold renderable. intros [H | H]%orb_true_iff.
  - right. by apply negb_true_iff.
  - left. by apply bool_decide_eq_true in H.
Qed.

Lemma instances_calls_length (lab : label) (insts : list instance) :
  is_Some (Name lab) \/ existsb drawable insts = false ->
  length (insts ≫= instance_calls rt img_w img_h lab)
  = (3 * length (filter (fun inst => drawable inst = true) insts))%nat.
Proof.
  induction insts as [| inst insts IH]; intros Hok; [reflexivity |].
  cbn [mbind list_bind]. rewrite length_app, filter_cons.
  destruct (drawable inst) eqn:Hd.
  - destruct Hok as [Hn | Hno]; [| cbn in Hno; by rewrite Hd in Hno].
    rewrite decide_True by done.
    rewrite instance_calls_length, IH by (done || by left). cbn [length]. lia.
  - rewrite decide_False by done.
    rewrite instance_calls_skip by done. rewrite IH; [done |].
    destruct Hok as [? | Hno]; [by left | right].
    cbn in Hno. by rewrite Hd in Hno.
Qed.

Lemma labels_calls_length (labels : list label) :
  forallb renderable labels = true ->
  length (lab ← labels;
          inst ← default [] (Instances lab);
          instance_calls rt img_w img_h lab inst)
  = (3 * length (drawn_instances labels))%nat.
Proof.
  unfold drawn_instances.
  induction labels as [| lab labels IH]; intros Hok; [reflexivity |].
  cbn [forallb] in Hok. apply andb_true_iff in Hok as [Hlab Hok].
  cbn [mbind list_bind]. rewrite !length_app, IH by done.
  rewrite instances_calls_length by (by apply renderable_cases). lia.
Qed.

Lemma pixel_box_defaults (box : gmap string float) :
  (box !! "Left" = None -> (pixel_box img_w img_h box).1.1.1 = PInt 0)
  /\ (box !! "Top" = None -> (pixel_box img_w img_h box).1.1.2 = PInt 0)
  /\ (box !! "Width" = None ->
      (pixel_box img_w img_h box).1.2
      = py_add (pixel_box img_w img_h box).1.1.1 (PInt 0))
  /\ (box !! "Height" = None ->
      (pixel_box img_w img_h box).2
      = py_add (pixel_box img_w img_h box).1.1.2 (PInt 0)).
Proof.
  rewrite pixel_box_get. cbn [fst snd].
  repeat split; intros ->; cbn; by rewrite Z.mul_0_r.
Qed.

End RenderingLoop.

Lemma draw_labels_renderable (rt : runtime) (img_w img_h : Z)
  (labels : list label) (draw draw' : list draw_op) :
  draw_labels rt img_w img_h labels draw = inr draw' ->
  forallb renderable labels = true.
Proof.
  intros Hd. apply (draw_labels_total rt img_w img_h labels draw). by eexists.
Qed.

Lemma drawable_false (inst : instance) :
  drawable inst = false
  <-> BoundingBox inst = None \/ BoundingBox inst = Some ∅.
Proof.
  unfold drawable. destruct (BoundingBox inst) as [box |].
  - rewrite negb_false_iff, bool_decide_eq_true.
    split; [intros ->; by right | by intros [[=] | [=]]].
  - split; [by left | done].
Qed.

(** C10, as the code has it.  When Pillow measures the texts and accepts
    the calls this loop makes for these labels, the loop ends without an
    exception exactly when every label that has an instance to draw has a
    name (on a label without "Name" the subscript raises [KeyError]); and
    it only ends without an exception when Pillow accepted them.  An
    instance whose bounding box is absent or empty is passed over: nothing
    is drawn for it and nothing is raised, named label or not.  For any other instance the text is made and
    [draw_label_box] is called on [pixel_box], in which a coordinate
    missing from the bounding box counts as the integer 0.  A label without
    "Confidence" has its text made from 0.0 rounded to one decimal, which
    reads "0.0" when [round] and the float formatting are Python's. *)
Theorem rendering_loop_malformed (rt : runtime) (img_w img_h : Z)
  (labels : list label) (draw : list draw_op) :
  (loop_accepted rt img_w img_h labels = true ->
   (exists draw', draw_labels rt img_w img_h labels draw = inr draw')
   <-> forallb renderable labels = true)
  /\ ((exists draw', draw_labels rt img_w img_h labels draw = inr draw') ->
      loop_accepted rt img_w img_h labels = true)
  /\ (forall (lab : label) (inst : instance) (insts : list instance)
        (d : list draw_op),
        BoundingBox inst = None \/ BoundingBox inst = Some ∅ ->
        draw_instances rt img_w img_h lab (inst :: insts) d
        = draw_instances rt img_w img_h lab insts d)
  /\ (forall (lab : label) (inst : instance) (insts : list instance)
        (d : list draw_op) (box : gmap string float) (text : string),
        BoundingBox inst = Some box -> box <> ∅ ->
        label_text rt lab = inr text ->
        draw_instances rt img_w img_h lab (inst :: insts) d
        = match draw_label_box (fonts rt) d (pixel_box img_w img_h box)
                  text None with
          | inl e => inl e
          | inr d => draw_instances rt img_w img_h lab insts d
          end)
  /\ (forall box : gmap string float,
        (box !! "Left" = None -> (pixel_box img_w img_h box).1.1.1 = PInt 0)
        /\ (box !! "Top" = None -> (pixel_box img_w img_h box).1.1.2 = PInt 0)
        /\ (box !! "Width" = None ->
            (pixel_box img_w img_h box).1.2
            = py_add (pixel_box img_w img_h box).1.1.1 (PInt 0))
        /\ (box !! "Height" = None ->
            (pixel_box img_w img_h box).2
            = py_add (pixel_box img_w img_h box).1.1.2 (PInt 0)))
  /\ (forall (lab : label) (name : string),
        Name lab = Some name -> Confidence lab = None ->
        label_text rt lab
        = inr (name +:+ " (" +:+ float_str rt (py_round rt 0 1) +:+ "%)")
        /\ (py_round rt 0 1 = 0%float -> float_str rt 0 = "0.0" ->
            label_text rt lab = inr (name +:+ " (0.0%)"))).
Proof.
  split; [intros Ha; rewrite draw_labels_total; tauto |].
  split; [intros Hd; by apply (draw_labels_total rt img_w img_h labels draw) |].
  split; [intros lab inst insts d Hbox;
          by apply draw_instances_skip, drawable_false |].
  split; [intros *; apply draw_instances_draw |].
  split; [apply pixel_box_defaults |].
  intros lab name Hn Hc.
  rewrite (label_text_named _ _ _ Hn), Hc. cbn [default from_option].
  split; [reflexivity |]. by intros -> ->.
Qed.

(** A response holding the label "Cat", without confidence, with one
    instance without a box and one whose box has only Left and Width: the
    loop ends, and the text of the label is "Cat (0.0%)". *)
Lemma rendering_loop_malformed_witness :
  (exists draw',
     draw_labels (Sample.runtime_with Sample.service_up) 4 3 [Sample.cat] []
     = inr draw')
  /\ label_text (Sample.runtime_with Sample.service_up) Sample.cat
     = inr "Cat (0.0%)".
Proof.
  pose proof (rendering_loop_malformed (Sample.runtime_with Sample.service_up)
                4 3 [Sample.cat] [])
    as (Htotal & _ & _ & _ & _ & Htext).
  split.
  - apply Htotal; reflexivity.
  - apply (Htext Sample.cat "Cat"); reflexivity.
Defined.

(** C10, as stated, fails: the same label without its "Name" key stops the
    loop with a [KeyError], and the route with it. *)
Lemma rendering_loop_nameless_label :
  draw_labels (Sample.runtime_with Sample.service_nameless) 4 3
    [Sample.nameless] []
  = inl (KeyError "Name")
  /\ (upload (Sample.runtime_with Sample.service_nameless) false Sample.photo
        Sample.empty_world).1
     = Unhandled (KeyError "Name").
Proof. split; vm_compute; reflexivity. Qed.

(** ** The dry run, end to end *)

Lemma draw_labels_dry_run (rt : runtime) (img_w img_h : Z) :
  draw_labels rt img_w img_h dry_run_labels []
  = draw_label_box (fonts rt) []
      (PFloat (Z2float img_w * 0.25), PFloat (Z2float img_h * 0.25),
       PFloat (Z2float img_w * 0.25 + Z2float img_w * 0.5),
       PFloat (Z2float img_h * 0.25 + Z2float img_h * 0.5))
      ("SampleObject (" +:+ float_str rt (py_round rt 99.1 1) +:+ "%)")
      None.
Proof.
  unfold dry_run_labels.
  cbn [draw_labels Instances default from_option id].
  erewrite draw_instances_draw;
    [| reflexivity | apply insert_non_empty | reflexivity].
  rewrite pixel_box_full.
  by destruct (draw_label_box _ _ _ _ _).
Qed.

(** A 400 by 400 image under the dry run, when Pillow measures the text
    and accepts the three calls of the one box (no other call is asked
    about): the page names the two files and shows the one label; the
    annotated file is the image with the outline from (100, 100) to
    (300, 300), the label background and the text "SampleObject (...%)"
    drawn on it; nothing is sent to the labeling service. *)
Theorem upload_dry_run_scenario (rt : runtime) (f : upload_file) (w : world)
  (pil : image) (saved annotated : bytes) :
  let original_name := (unique_name rt (filename f) "" w).1 in
  let labeled_name := (unique_name rt (filename f) "labeled_" (tick w)).1 in
  let save_path := os_path_join UPLOAD_FOLDER original_name in
  let labeled_path := os_path_join UPLOAD_FOLDER labeled_name in
  let text :=
    "SampleObject (" +:+ float_str rt (py_round rt 99.1 1) +:+ "%)" in
  let fnt := pick_font (fonts rt) None in
  let xy := (PFloat 100, PFloat 100, PFloat 300, PFloat 300) in
  let bg := label_background xy (textbbox (fonts rt) fnt text) in
  let draw :=
    [Rectangle xy None (Some (255, 0, 0)) 3;
     Rectangle bg (Some (255, 255, 255)) None 1;
     Text (py_add bg.1.1.1 (PInt 4), py_add bg.1.1.2 (PInt 4))
       text (255, 0, 0) fnt] in
  allowed_file (filename f) = true ->
  Image_open rt (stream f) = inr pil ->
  size (pil_auto_prepare pil) = (400, 400) ->
  textbbox_raises (fonts rt) fnt text = None ->
  (forall op, op ∈ draw -> rejects (fonts rt) op = None) ->
  Image_save rt save_path (pil_auto_prepare pil, []) 95 = inr saved ->
  Image_save rt labeled_path (pil_auto_prepare pil, draw) 95 = inr annotated ->
  exists w' : world,
    upload rt true {| file := Some f |} w
    = (ResultPage original_name labeled_name dry_run_labels, w')
    /\ files w' = <[labeled_path := annotated]> (<[save_path := saved]> (files w))
    /\ sent w' = sent w.
Proof.
  intros original_name labeled_name save_path labeled_path text fnt xy bg draw
    Hallowed Hopen Hsize Hmeasure Hcalls Hsave Hsave2.
  assert (Hacc : label_box_accepted (fonts rt) xy text = true).
  { apply label_box_accepted_spec. fold fnt bg.
    split; [exact Hmeasure |].
    repeat split; apply Hcalls; subst draw;
      repeat (apply list_elem_of_here || apply list_elem_of_further). }
  eexists. split.
  - upload_accepted Hallowed. rewrite Hopen.
    fold original_name labeled_name save_path. rewrite Hsave.
    set (w1 := write_file save_path saved (tick (tick w))).
    assert (Hread : files w1 !! save_path = Some saved)
      by apply lookup_insert_eq.
    rewrite Hread. unfold detect. rewrite Hsize.
    rewrite draw_labels_dry_run.
    change (PFloat (Z2float 400 * 0.25), PFloat (Z2float 400 * 0.25),
            PFloat (Z2float 400 * 0.25 + Z2float 400 * 0.5),
            PFloat (Z2float 400 * 0.25 + Z2float 400 * 0.5))
      with xy.
    fold text.
    destruct (draw_label_box_cases (fonts rt) [] xy text)
      as [[_ ->] | [Hno _]]; [| congruence].
    unfold label_box_calls. fold fnt bg. cbn [app]. fold draw labeled_path.
    rewrite Hsave2. reflexivity.
  - split; reflexivity.
Qed.

Lemma upload_dry_run_scenario_witness :
  exists w' : world,
    upload (Sample.runtime_with Sample.service_down) true Sample.square_photo
      Sample.empty_world
    = (ResultPage "square_20261103-080559_9f1c2b3a.jpeg"
         "labeled_square_20261103-080559_9f1c2b3b.jpeg" dry_run_labels, w')
    /\ files w'
       = <["static/uploads/labeled_square_20261103-080559_9f1c2b3b.jpeg"
            := replicate 4 Byte.x2a]>
           (<["static/uploads/square_20261103-080559_9f1c2b3a.jpeg"
               := [Byte.x2a]]> ∅)
    /\ sent w' = [].
Proof.
  apply (upload_dry_run_scenario (Sample.runtime_with Sample.service_down)
           {| filename := "square.jpeg"; stream := [Byte.xff] |}
           Sample.empty_world
           (Image_new_RGB (400, 400) (255, 255, 255))
           [Byte.x2a] (replicate 4 Byte.x2a));
    reflexivity.
Defined.

(** ** Accepted file names *)

Lemma rfind_None (c : ascii) (s : list ascii) : rfind c s = None <-> c ∉ s.
Proof.
  induction s as [| a s IH]; cbn.
  - split; [intros _; apply not_elem_of_nil | done].
  - rewrite not_elem_of_cons. destruct (rfind c s) as [i |].
    + split; [done | intros [_ H]; by apply IH in H].
    + destruct (Ascii.eqb_spec a c) as [-> | Hne].
      * split; [done | by intros [? _]].
      * split; [intros _; split; [congruence | by apply IH] | done].
Qed.

Lemma rfind_last (c : ascii) (a b : list ascii) :
  c ∉ b -> rfind c (a ++ c :: b) = Some (length a).
Proof.
  intros Hb. induction a as [| x a IH]; cbn.
  - apply rfind_None in Hb. rewrite Hb. by rewrite Ascii.eqb_refl.
  - by rewrite IH.
Qed.

Lemma rfind_split (c : ascii) (s : list ascii) (i : nat) :
  rfind c s = Some i -> s = take i s ++ c :: drop (S i) s.
Proof.
  revert i. induction s as [| a s IH]; intros i; cbn; [done |].
  destruct (rfind c s) as [j |] eqn:E.
  - intros [= <-]. cbn. f_equal. by apply IH.
  - destruct (Ascii.eqb_spec a c) as [-> | Hne]; [| done].
    intros [= <-]. cbn. by rewrite drop_0.
Qed.

(** Lowering a name leaves its dots and slashes where they are, and makes
    none. *)
Lemma lower_ascii_separator (c : ascii) :
  (lower_ascii c = "."%char -> c = "."%char)
  /\ (lower_ascii c = "/"%char -> c = "/"%char).
Proof.
  destruct c as [[] [] [] [] [] [] [] []]; vm_compute; split; congruence.
Qed.

Lemma allowed_letters (ext : list ascii) :
  string_of_list_ascii (lower ext) ∈ ALLOWED_EXTENSIONS ->
  ("."%char ∉ ext) /\ ("/"%char ∉ ext).
Proof.
  intros Hin.
  assert (Hs : forall c : ascii,
            c ∈ ["."; "/"]%char -> c ∈ ext ->
            c ∈ list_ascii_of_string (string_of_list_ascii (lower ext))).
  { intros c Hc Hext. rewrite list_ascii_of_string_of_list_ascii.
    unfold lower. apply list_elem_of_fmap. exists c. split; [| exact Hext].
    rewrite !elem_of_cons, elem_of_nil in Hc.
    by destruct Hc as [-> | [-> | []]]. }
  unfold ALLOWED_EXTENSIONS in Hin.
  rewrite !elem_of_cons, elem_of_nil in Hin.
  split; intros Hext; eapply Hs in Hext;
    try (rewrite !elem_of_cons; auto; fail);
    destruct Hin as [H | [H | [H | []]]]; rewrite H in Hext; cbn in Hext;
    apply list_elem_of_In in Hext; cbn in Hext; intuition discriminate.
Qed.

Lemma allowed_file_accepts (stem ext : string) :
  string_of_list_ascii (lower (list_ascii_of_string ext)) ∈ ALLOWED_EXTENSIONS ->
  allowed_file (stem +:+ "." +:+ ext) = true.
Proof.
  intros Hin. unfold allowed_file.
  rewrite !list_ascii_of_string_app. cbn [list_ascii_of_string app].
  rewrite rfind_last by (by apply allowed_letters).
  rewrite cons_middle, app_assoc, drop_app_length'
    by (rewrite length_app; cbn; lia).
  by apply bool_decide_eq_true.
Qed.

(** A name is accepted exactly when it ends with a dot followed by png, jpg
    or jpeg, in any mix of upper and lower case: what stands before the dot
    plays no part, a name without a dot or ending with a dot is refused. *)
Theorem allowed_file_iff (filename : string) :
  allowed_file filename = true
  <-> exists stem ext : string,
        filename = stem +:+ "." +:+ ext
        /\ string_of_list_ascii (lower (list_ascii_of_string ext))
           ∈ ALLOWED_EXTENSIONS.
Proof.
  split.
  - unfold allowed_file.
    destruct (rfind "." (list_ascii_of_string filename)) as [i |] eqn:Hdot;
      [| done].
    intros Hin%bool_decide_eq_true.
    pose proof (rfind_split _ _ _ Hdot) as Hs.
    exists (string_of_list_ascii (take i (list_ascii_of_string filename))),
           (string_of_list_ascii (drop (S i) (list_ascii_of_string filename))).
    split.
    + rewrite <- (string_of_list_ascii_of_string filename) at 1.
      rewrite Hs at 1. rewrite string_of_list_ascii_app. reflexivity.
    + by rewrite list_ascii_of_string_of_list_ascii.
  - intros (stem & ext & -> & Hin). by apply allowed_file_accepts.
Qed.

(** ** The generated names *)

Lemma length_string_app (a b : string) :
  String.length (a +:+ b) = (String.length a + String.length b)%nat.
Proof.
  induction a as [| c a IH]; [reflexivity |].
  rewrite string_app_cons. cbn. by rewrite IH.
Qed.

Lemma strftime_length (t : datetime) : String.length (strftime t) = 15%nat.
Proof.
  unfold strftime. rewrite length_string_of_list_ascii, !length_app.
  by rewrite !(proj1 (zpad_digits _ _)).
Qed.

Lemma suffix_length (u : Z) : String.length (prefix_of 8 (uuid_hex u)) = 8%nat.
Proof.
  unfold prefix_of, uuid_hex.
  rewrite length_string_of_list_ascii, list_ascii_of_string_of_list_ascii.
  rewrite length_take, length_fmap, length_seqZ. lia.
Qed.

(** The length of a name: that of the prefix, and a part that depends on the
    uploaded name alone. *)
Lemma unique_name_length (rt : runtime) (original_name prefix : string)
  (w : world) :
  let ext := (splitext (secure_filename rt original_name)).2 in
  String.length (unique_name rt original_name prefix w).1
  = (String.length prefix
     + String.length (splitext (secure_filename rt original_name)).1 + 25
     + String.length (if bool_decide (ext = "") then ".jpg" else ext))%nat.
Proof.
  intros ext.
  rewrite unique_name_fst, !length_string_app, strftime_length, suffix_length.
  cbn [String.length]. fold ext. lia.
Qed.

Lemma names_differ (rt : runtime) (name : string) (w1 w2 : world) :
  (unique_name rt name "" w1).1 <> (unique_name rt name "labeled_" w2).1.
Proof.
  intros Heq. apply (f_equal String.length) in Heq.
  pose proof (unique_name_length rt name "labeled_" w2) as H2.
  pose proof (unique_name_length rt name "" w1) as H1.
  cbv zeta in H1, H2. rewrite H1, H2 in Heq. cbn in Heq. lia.
Qed.

Lemma os_path_join_UPLOAD_FOLDER (b : string) :
  os_path_join UPLOAD_FOLDER b
  = match b with
    | String "/" _ => b
    | _ => "static/uploads/" +:+ b
    end.
Proof.
  unfold os_path_join.
  destruct b as [| c b]; [reflexivity |].
  destruct c as [[] [] [] [] [] [] [] []]; reflexivity.
Qed.

Lemma os_path_join_length (b : string) :
  String.length (os_path_join UPLOAD_FOLDER b) = String.length b
  \/ String.length (os_path_join UPLOAD_FOLDER b) = (15 + String.length b)%nat.
Proof.
  rewrite os_path_join_UPLOAD_FOLDER.
  destruct b as [| c b]; [by right |].
  destruct c as [[] [] [] [] [] [] [] []];
    first [by left | right; by rewrite length_string_app].
Qed.

(** The two artifacts of one upload never share a path. *)
Lemma upload_paths_differ (rt : runtime) (name : string) (w1 w2 : world) :
  os_path_join UPLOAD_FOLDER (unique_name rt name "" w1).1
  <> os_path_join UPLOAD_FOLDER (unique_name rt name "labeled_" w2).1.
Proof.
  intros Heq. apply (f_equal String.length) in Heq.
  assert (Hl : exists rest, (unique_name rt name "labeled_" w2).1 = String "l" rest)
    by (rewrite unique_name_fst; by eexists).
  destruct Hl as [rest Hl].
  rewrite (os_path_join_UPLOAD_FOLDER (unique_name rt name "labeled_" w2).1) in Heq.
  rewrite Hl in Heq. rewrite <- Hl in Heq.
  rewrite length_string_app in Heq.
  pose proof (unique_name_length rt name "labeled_" w2) as H2.
  pose proof (unique_name_length rt name "" w1) as H1.
  cbv zeta in H1, H2. rewrite H2 in Heq.
  destruct (os_path_join_length (unique_name rt name "" w1).1) as [H | H];
    rewrite H, H1 in Heq; cbn in Heq; lia.
Qed.

(** *** Positional notation *)

Lemma digit_inj (a b : Z) : digit a = digit b <-> a mod 10 = b mod 10.
Proof.
  unfold digit. split; [| by intros ->].
  pose proof (Z.mod_pos_bound a 10 ltac:(lia)).
  pose proof (Z.mod_pos_bound b 10 ltac:(lia)).
  intros Heq. apply (f_equal nat_of_ascii) in Heq.
  rewrite !nat_ascii_embedding in Heq by lia. lia.
Qed.

Lemma hexdigit_inj (a b : Z) : hexdigit a = hexdigit b <-> a mod 16 = b mod 16.
Proof.
  unfold hexdigit. split; [| by intros ->].
  pose proof (Z.mod_pos_bound a 16 ltac:(lia)).
  pose proof (Z.mod_pos_bound b 16 ltac:(lia)).
  intros Heq. apply (f_equal nat_of_ascii) in Heq.
  destruct (Z.ltb_spec (a mod 16) 10), (Z.ltb_spec (b mod 16) 10);
    rewrite !nat_ascii_embedding in Heq by lia; lia.
Qed.

(** Two numbers have the same [k] low digits in base [b] exactly when they
    are equal modulo [b ^ k]. *)
Lemma low_digits (b : Z) (k : nat) (n m : Z) :
  1 < b ->
  (forall i : Z, 0 <= i < Z.of_nat k -> (n / b ^ i) mod b = (m / b ^ i) mod b)
  <-> n mod b ^ Z.of_nat k = m mod b ^ Z.of_nat k.
Proof.
  intros Hb. induction k as [| k IH].
  - cbn. rewrite !Z.mod_1_r. split; [done | lia].
  - rewrite Nat2Z.inj_succ, Z.pow_succ_r by lia.
    assert (Hpos : 0 < b ^ Z.of_nat k) by (apply Z.pow_pos_nonneg; lia).
    rewrite (Z.mul_comm b), !Z.rem_mul_r by lia.
    split.
    + intros Hd. rewrite (proj1 IH) by (intros i Hi; apply Hd; lia).
      rewrite (Hd (Z.of_nat k)) by lia. reflexivity.
    + intros Heq.
      pose proof (Z.mod_pos_bound n (b ^ Z.of_nat k) Hpos).
      pose proof (Z.mod_pos_bound m (b ^ Z.of_nat k) Hpos).
      pose proof (Z.mod_pos_bound (n / b ^ Z.of_nat k) b ltac:(lia)).
      pose proof (Z.mod_pos_bound (m / b ^ Z.of_nat k) b ltac:(lia)).
      assert (Hhi : (n / b ^ Z.of_nat k) mod b = (m / b ^ Z.of_nat k) mod b)
        by nia.
      assert (Hlo : n mod b ^ Z.of_nat k = m mod b ^ Z.of_nat k) by nia.
      intros i Hi.
      destruct (Z.eq_dec i (Z.of_nat k)) as [-> | Hne]; [exact Hhi |].
      apply (proj2 IH Hlo). lia.
Qed.

Lemma fmap_seqZ_inj {A : Type} (f g : Z -> A) (len : Z) :
  f <$> seqZ 0 len = g <$> seqZ 0 len
  <-> forall i, 0 <= i < len -> f i = g i.
Proof.
  split.
  - intros Heq i Hi.
    apply (f_equal (fun l => l !! Z.to_nat i)) in Heq.
    rewrite !list_lookup_fmap, !(lookup_seqZ_lt _ _ (Z.to_nat i)) in Heq by lia.
    rewrite Z2Nat.id, Z.add_0_l in Heq by lia. by injection Heq.
  - intros Hfg. apply list_fmap_ext. intros i x Hx.
    apply lookup_seqZ in Hx as [-> ?]. apply Hfg. lia.
Qed.

Lemma zpad_inj (width : nat) (n m : Z) :
  zpad width n = zpad width m
  <-> n mod 10 ^ Z.of_nat width = m mod 10 ^ Z.of_nat width.
Proof.
  unfold zpad. rewrite fmap_seqZ_inj, <- (low_digits 10 width n m) by lia.
  split.
  - intros Hd i Hi. apply digit_inj.
    replace i with (Z.of_nat width - 1 - (Z.of_nat width - 1 - i)) by lia.
    apply Hd. lia.
  - intros Hd i Hi. apply digit_inj, Hd. lia.
Qed.

(** The suffix is the top 32 bits of the UUID. *)
Lemma suffix_inj (u u' : Z) :
  prefix_of 8 (uuid_hex u) = prefix_of 8 (uuid_hex u')
  <-> (u / 2 ^ 96) mod 2 ^ 32 = (u' / 2 ^ 96) mod 2 ^ 32.
Proof.
  unfold prefix_of, uuid_hex.
  rewrite !list_ascii_of_string_of_list_ascii, <- !fmap_take.
  assert (Htake : take 8 (seqZ 0 32) = seqZ 0 8) by reflexivity.
  rewrite Htake.
  change (2 ^ 32) with (16 ^ Z.of_nat 8).
  rewrite <- (low_digits 16 8 (u / 2 ^ 96) (u' / 2 ^ 96)) by lia.
  assert (Hshift : forall v i, 0 <= i < 8 ->
            v / 2 ^ 96 / 16 ^ i = v / 16 ^ (24 + i)).
  { intros v i Hi. rewrite Z.div_div by (try apply Z.pow_pos_nonneg; lia).
    f_equal. rewrite Z.pow_add_r by lia. reflexivity. }
  split.
  - intros Heq i Hi.
    assert (Hl : (hexdigit ∘ (fun i => u / 16 ^ (31 - i))) <$> seqZ 0 8
                 = (hexdigit ∘ (fun i => u' / 16 ^ (31 - i))) <$> seqZ 0 8).
    { apply (f_equal list_ascii_of_string) in Heq.
      by rewrite !list_ascii_of_string_of_list_ascii in Heq. }
    rewrite fmap_seqZ_inj in Hl.
    specialize (Hl (7 - i) ltac:(lia)). cbn in Hl.
    apply hexdigit_inj in Hl.
    rewrite !Hshift by lia.
    replace (31 - (7 - i)) with (24 + i) in Hl by lia. exact Hl.
  - intros Hd. f_equal. apply fmap_seqZ_inj. intros i Hi.
    apply hexdigit_inj.
    specialize (Hd (7 - i) ltac:(lia)). rewrite !Hshift in Hd by lia.
    replace (24 + (7 - i)) with (31 - i) in Hd by lia. exact Hd.
Qed.

Lemma string_of_list_ascii_inj (l1 l2 : list ascii) :
  string_of_list_ascii l1 = string_of_list_ascii l2 -> l1 = l2.
Proof.
  intros Heq. apply (f_equal list_ascii_of_string) in Heq.
  by rewrite !list_ascii_of_string_of_list_ascii in Heq.
Qed.

Lemma list_ascii_of_string_inj (a b : string) :
  list_ascii_of_string a = list_ascii_of_string b -> a = b.
Proof.
  intros Heq. apply (f_equal string_of_list_ascii) in Heq.
  by rewrite !string_of_list_ascii_of_string in Heq.
Qed.

Lemma length_list_ascii_of_string (a : string) :
  length (list_ascii_of_string a) = String.length a.
Proof.
  by rewrite <- length_string_of_list_ascii, string_of_list_ascii_of_string.
Qed.

(** Distinct seconds are written differently. *)
Lemma strftime_inj (t t' : datetime) :
  utc_time t -> utc_time t' -> strftime t = strftime t' -> t = t'.
Proof.
  intros (Hy & Hmo & Hd & Hh & Hmi & Hs) (Hy' & Hmo' & Hd' & Hh' & Hmi' & Hs')
    Heq.
  unfold strftime in Heq. apply string_of_list_ascii_inj in Heq.
  rewrite <- !app_assoc in Heq.
  apply app_inj_1 in Heq as [Hz1 Heq]; [| by rewrite !(proj1 (zpad_digits _ _))].
  apply app_inj_1 in Heq as [Hz2 Heq]; [| by rewrite !(proj1 (zpad_digits _ _))].
  apply app_inj_1 in Heq as [Hz3 Heq]; [| by rewrite !(proj1 (zpad_digits _ _))].
  apply app_inj_1 in Heq as [_ Heq]; [| reflexivity].
  apply app_inj_1 in Heq as [Hz4 Heq]; [| by rewrite !(proj1 (zpad_digits _ _))].
  apply app_inj_1 in Heq as [Hz5 Hz6]; [| by rewrite !(proj1 (zpad_digits _ _))].
  apply zpad_inj in Hz1, Hz2, Hz3, Hz4, Hz5, Hz6.
  change (10 ^ Z.of_nat 4) with 10000 in *.
  change (10 ^ Z.of_nat 2) with 100 in *.
  rewrite !Z.mod_small in * by lia.
  destruct t, t'; cbn in *; congruence.
Qed.

(** Two names made for one uploaded name, with one prefix, are the same name
    exactly when they were made in the same second (UTC) and the two UUIDs
    agree on their 32 leading bits: the other 96 bits of the UUID play no
    part. *)
Theorem unique_name_collision (rt : runtime) (name prefix : string)
  (w w' : world) :
  utc_time (utcnow rt (clock_reads w)) ->
  utc_time (utcnow rt (clock_reads w')) ->
  (unique_name rt name prefix w).1 = (unique_name rt name prefix w').1
  <-> utcnow rt (clock_reads w) = utcnow rt (clock_reads w')
      /\ (uuid4 rt (uuid_draws w) / 2 ^ 96) mod 2 ^ 32
         = (uuid4 rt (uuid_draws w') / 2 ^ 96) mod 2 ^ 32.
Proof.
  intros Ht Ht'. rewrite !unique_name_fst, <- suffix_inj. split.
  - intros Heq.
    do 3 apply string_app_inv_head in Heq.
    apply (f_equal list_ascii_of_string) in Heq.
    rewrite !list_ascii_of_string_app in Heq.
    apply app_inj_1 in Heq as [Hstamp Heq];
      [| by rewrite !length_list_ascii_of_string, !strftime_length].
    apply app_inj_1 in Heq as [_ Heq]; [| reflexivity].
    apply app_inj_1 in Heq as [Hsuffix _];
      [| by rewrite !length_list_ascii_of_string, !suffix_length].
    split.
    + apply strftime_inj; [done | done |]. by apply list_ascii_of_string_inj.
    + by apply list_ascii_of_string_inj.
  - by intros [-> ->].
Qed.

Lemma unique_name_collision_witness :
  (unique_name (Sample.runtime_with Sample.service_up) "a.png" "labeled_"
     Sample.empty_world).1
  <> (unique_name (Sample.runtime_with Sample.service_up) "a.png" "labeled_"
        (tick Sample.empty_world)).1.
Proof.
  intros Heq.
  apply (unique_name_collision (Sample.runtime_with Sample.service_up)
           "a.png" "labeled_" Sample.empty_world (tick Sample.empty_world))
    in Heq as [_ Hbits].
  - vm_compute in Hbits. discriminate Hbits.
  - unfold utc_time. cbn. lia.
  - unfold utc_time. cbn. lia.
Defined.

(** *** Where the files go *)

Lemma forallb_not_elem (p : ascii -> bool) (c : ascii) (l : list ascii) :
  p c = false -> forallb p l = true -> c ∉ l.
Proof.
  intros Hc Hl Hin. rewrite forallb_forall in Hl.
  apply list_elem_of_In in Hin. apply Hl in Hin. congruence.
Qed.

Lemma strftime_no_slash (t : datetime) :
  "/"%char ∉ list_ascii_of_string (strftime t).
Proof.
  unfold strftime. rewrite list_ascii_of_string_of_list_ascii.
  rewrite !not_elem_of_app.
  repeat split;
    try (apply (forallb_not_elem is_digit); [reflexivity | apply zpad_digits]).
  by intros [=]%list_elem_of_singleton.
Qed.

Lemma suffix_no_slash (u : Z) :
  "/"%char ∉ list_ascii_of_string (prefix_of 8 (uuid_hex u)).
Proof.
  unfold prefix_of, uuid_hex.
  rewrite !list_ascii_of_string_of_list_ascii, <- fmap_take.
  apply (forallb_not_elem is_hexdigit); [reflexivity |].
  apply forallb_forall. intros c Hc.
  apply in_map_iff in Hc as (i & <- & _). apply is_hexdigit_hexdigit.
Qed.

(** No slash in the sanitized name, none in the name made from it. *)
Lemma unique_name_no_slash (rt : runtime) (name prefix : string) (w : world) :
  "/"%char ∉ list_ascii_of_string prefix ->
  "/"%char ∉ list_ascii_of_string (secure_filename rt name) ->
  "/"%char ∉ list_ascii_of_string (unique_name rt name prefix w).1.
Proof.
  intros Hp Hbase. rewrite unique_name_fst.
  rewrite <- (splitext_join (secure_filename rt name)) in Hbase.
  rewrite list_ascii_of_string_app, not_elem_of_app in Hbase.
  destruct Hbase as [Hstem Hext].
  rewrite !list_ascii_of_string_app, !not_elem_of_app.
  split; [done |]. split; [done |].
  split; [by intros [=]%list_elem_of_singleton |].
  split; [apply strftime_no_slash |].
  split; [by intros [=]%list_elem_of_singleton |].
  split; [apply suffix_no_slash |].
  destruct (bool_decide _); [| done].
  cbn. rewrite !not_elem_of_cons. repeat split; try done. apply not_elem_of_nil.
Qed.

Lemma os_path_join_leaf (leaf : string) :
  "/"%char ∉ list_ascii_of_string leaf ->
  os_path_join UPLOAD_FOLDER leaf = "static/uploads/" +:+ leaf.
Proof.
  intros Hleaf. rewrite os_path_join_UPLOAD_FOLDER.
  destruct leaf as [| c leaf]; [reflexivity |].
  destruct (Ascii.eqb_spec c "/") as [-> | Hne].
  - exfalso. apply Hleaf. cbn. apply list_elem_of_here.
  - destruct c as [[] [] [] [] [] [] [] []]; try reflexivity. done.
Qed.

(** When the sanitized name holds no slash (werkzeug's [secure_filename]
    returns none), the two names hold none either and both paths are the
    upload folder, a slash and the name: the files are made in
    static/uploads itself, never in another directory. *)
Theorem upload_paths_in_folder (rt : runtime) (name : string) (w1 w2 : world) :
  let original_name := (unique_name rt name "" w1).1 in
  let labeled_name := (unique_name rt name "labeled_" w2).1 in
  "/"%char ∉ list_ascii_of_string (secure_filename rt name) ->
  os_path_join UPLOAD_FOLDER original_name = "static/uploads/" +:+ original_name
  /\ os_path_join UPLOAD_FOLDER labeled_name = "static/uploads/" +:+ labeled_name
  /\ ("/"%char ∉ list_ascii_of_string original_name)
  /\ ("/"%char ∉ list_ascii_of_string labeled_name).
Proof.
  intros original_name labeled_name Hbase.
  assert (Ho : "/"%char ∉ list_ascii_of_string original_name).
  { apply unique_name_no_slash; [apply not_elem_of_nil | done]. }
  assert (Hl : "/"%char ∉ list_ascii_of_string labeled_name).
  { apply unique_name_no_slash; [| done].
    cbn. rewrite !not_elem_of_cons. repeat split; try done. apply not_elem_of_nil. }
  auto using os_path_join_leaf.
Qed.

Lemma upload_paths_in_folder_witness :
  os_path_join UPLOAD_FOLDER
    (unique_name (Sample.runtime_with Sample.service_up) "my cat.JPG" ""
       Sample.empty_world).1
  = "static/uploads/mycat_20261103-080559_9f1c2b3a.JPG".
Proof.
  pose proof (upload_paths_in_folder (Sample.runtime_with Sample.service_up)
                "my cat.JPG" Sample.empty_world (tick Sample.empty_world))
    as Hin.
  cbv zeta in Hin. destruct Hin as (Ho & _).
  - vm_compute. intros Hin.
    repeat (apply elem_of_cons in Hin as [Hin | Hin]; [discriminate Hin |]).
    by apply elem_of_nil in Hin.
  - rewrite Ho. reflexivity.
Defined.

(** *** The extension *)

Lemma existsb_elem (p : ascii -> bool) (l : list ascii) (c : ascii) :
  c ∈ l -> p c = true -> existsb p l = true.
Proof.
  intros Hin Hp. apply existsb_exists. exists c.
  split; [by apply list_elem_of_In | done].
Qed.

(** *** The parts of a name, read back *)

Lemma digit_value_digit (d : Z) : digit_value (digit d) = d mod 10.
Proof.
  unfold digit_value, digit.
  pose proof (Z.mod_pos_bound d 10 ltac:(lia)).
  rewrite nat_ascii_embedding by lia.
  destruct (Z.ltb_spec (Z.of_nat (48 + Z.to_nat (d mod 10))) 58); lia.
Qed.

Lemma digit_value_hexdigit (d : Z) : digit_value (hexdigit d) = d mod 16.
Proof.
  unfold digit_value, hexdigit.
  pose proof (Z.mod_pos_bound d 16 ltac:(lia)).
  destruct (Z.ltb_spec (d mod 16) 10); rewrite nat_ascii_embedding by lia.
  - destruct (Z.ltb_spec (Z.of_nat (48 + Z.to_nat (d mod 16))) 58); lia.
  - destruct (Z.ltb_spec (Z.of_nat (87 + Z.to_nat (d mod 16))) 58); lia.
Qed.

Lemma number_in_snoc (b : Z) (l : list ascii) (c : ascii) :
  number_in b (l ++ [c]) = b * number_in b l + digit_value c.
Proof. unfold number_in. by rewrite fold_left_app. Qed.

(** The [k] digits of [n] in base [b], written most significant first,
    read back as [n mod b ^ k]. *)
Lemma number_in_digits (b : Z) (f : Z -> ascii) (k : nat) (n : Z) :
  1 < b -> (forall d, digit_value (f d) = d mod b) ->
  number_in b ((fun i => f (n / b ^ (Z.of_nat k - 1 - i))) <$> seqZ 0 (Z.of_nat k))
  = n mod b ^ Z.of_nat k.
Proof.
  intros Hb Hf. revert n. induction k as [| k IH]; intros n.
  { cbn. by rewrite Z.mod_1_r. }
  rewrite seqZ_S, fmap_app, fmap_cons, fmap_nil, number_in_snoc, Hf.
  assert (Hinit : (fun i => f (n / b ^ (Z.of_nat (S k) - 1 - i))) <$> seqZ 0 (Z.of_nat k)
                  = (fun i => f (n / b / b ^ (Z.of_nat k - 1 - i))) <$> seqZ 0 (Z.of_nat k)).
  { apply fmap_seqZ_inj. intros i Hi. f_equal.
    rewrite Z.div_div by (try apply Z.pow_pos_nonneg; lia).
    f_equal. rewrite <- Z.pow_succ_r by lia. f_equal. lia. }
  rewrite Hinit, IH.
  replace (Z.of_nat (S k) - 1 - (0 + Z.of_nat k)) with 0 by lia.
  rewrite Z.pow_0_r, Z.div_1_r, Nat2Z.inj_succ, Z.pow_succ_r by lia.
  rewrite Z.rem_mul_r by (try apply Z.pow_pos_nonneg; lia). lia.
Qed.

Lemma number_in_zpad (width : nat) (n : Z) :
  number_in 10 (zpad width n) = n mod 10 ^ Z.of_nat width.
Proof.
  unfold zpad.
  apply (number_in_digits 10 digit width n); [lia | apply digit_value_digit].
Qed.

Lemma number_in_suffix (u : Z) :
  number_in 16 (list_ascii_of_string (prefix_of 8 (uuid_hex u)))
  = (u / 2 ^ 96) mod 2 ^ 32.
Proof.
  unfold prefix_of, uuid_hex.
  rewrite !list_ascii_of_string_of_list_ascii, <- fmap_take.
  change (take 8 (seqZ 0 32)) with (seqZ 0 (Z.of_nat 8)).
  change (2 ^ 32) with (16 ^ Z.of_nat 8).
  rewrite <- (number_in_digits 16 hexdigit 8 (u / 2 ^ 96))
    by (lia || apply digit_value_hexdigit).
  f_equal. apply fmap_seqZ_inj. intros i Hi. f_equal.
  rewrite Z.div_div by (try apply Z.pow_pos_nonneg; lia).
  f_equal. change (2 ^ 96) with (16 ^ 24).
  rewrite <- Z.pow_add_r by lia. f_equal. lia.
Qed.

(** The timestamp of a time of today, field by field. *)
Lemma strftime_fields (t : datetime) :
  utc_time t ->
  exists y mo d h mi s : list ascii,
    strftime t = string_of_list_ascii (y ++ mo ++ d ++ ["-"%char] ++ h ++ mi ++ s)
    /\ length y = 4%nat /\ length mo = 2%nat /\ length d = 2%nat
    /\ length h = 2%nat /\ length mi = 2%nat /\ length s = 2%nat
    /\ number_in 10 y = year t /\ number_in 10 mo = month t
    /\ number_in 10 d = day t /\ number_in 10 h = hour t
    /\ number_in 10 mi = minute t /\ number_in 10 s = second t.
Proof.
  intros (Hy & Hmo & Hd & Hh & Hmi & Hs).
  exists (zpad 4 (year t)), (zpad 2 (month t)), (zpad 2 (day t)),
         (zpad 2 (hour t)), (zpad 2 (minute t)), (zpad 2 (second t)).
  split; [unfold strftime; by rewrite <- !app_assoc |].
  rewrite !(proj1 (zpad_digits _ _)), !number_in_zpad.
  change (10 ^ Z.of_nat 4) with 10000. change (10 ^ Z.of_nat 2) with 100.
  rewrite !Z.mod_small by lia. done.
Qed.

(** [os.path.splitext] on a name without directory part: the extension
    starts at the last dot, when something other than dots stands before
    it. *)
Lemma splitext_split (a b : string) :
  "/"%char ∉ list_ascii_of_string a ->
  (exists c, c ∈ list_ascii_of_string a /\ c <> "."%char) ->
  "."%char ∉ list_ascii_of_string b ->
  "/"%char ∉ list_ascii_of_string b ->
  splitext (a +:+ "." +:+ b) = (a, "." +:+ b).
Proof.
  intros Ha (c & Hc & Hdot) Hnodot Hnoslash.
  unfold splitext.
  rewrite !list_ascii_of_string_app. cbn [list_ascii_of_string app].
  set (s := list_ascii_of_string a) in *.
  set (e := list_ascii_of_string b) in *.
  rewrite rfind_last by done.
  assert (Hsep : rfind "/" (s ++ "."%char :: e) = None).
  { apply rfind_None. rewrite not_elem_of_app, not_elem_of_cons. done. }
  rewrite Hsep. cbn [from_option].
  rewrite bool_decide_eq_true_2 by lia. cbn [andb].
  replace (Z.to_nat (-1 + 1)) with 0%nat by lia. rewrite drop_0.
  replace (Z.to_nat (Z.of_nat (length s) - (-1 + 1))) with (length s) by lia.
  rewrite Nat2Z.id, take_app_length, drop_app_length.
  rewrite (existsb_elem _ s c Hc).
  2:{ apply negb_true_iff. by apply Ascii.eqb_neq. }
  subst s e. by rewrite string_of_list_ascii_of_string; cbn;
    rewrite string_of_list_ascii_of_string.
Qed.

(** Without a dot, or with dots at the start only, there is no
    extension. *)
Lemma splitext_plain (dots rest : string) :
  (forall c, c ∈ list_ascii_of_string dots -> c = "."%char) ->
  "."%char ∉ list_ascii_of_string rest ->
  "/"%char ∉ list_ascii_of_string rest ->
  splitext (dots +:+ rest) = (dots +:+ rest, "").
Proof.
  intros Hdots Hnodot Hnoslash. unfold splitext.
  rewrite list_ascii_of_string_app.
  set (d := list_ascii_of_string dots) in *.
  set (r := list_ascii_of_string rest) in *.
  assert (Hsep : rfind "/" (d ++ r) = None).
  { apply rfind_None. rewrite not_elem_of_app. split; [| done].
    intros Hin. by apply Hdots in Hin. }
  rewrite Hsep. cbn [from_option].
  destruct (rfind "." (d ++ r)) as [i |] eqn:Hi; cbn [from_option].
  2:{ by rewrite bool_decide_eq_false_2 by lia. }
  replace (Z.to_nat (-1 + 1)) with 0%nat by lia. rewrite drop_0.
  replace (Z.to_nat (Z.of_nat i - (-1 + 1))) with i by lia.
  assert (Hlt : (i < length d)%nat).
  { apply rfind_nth in Hi.
    destruct (Nat.lt_ge_cases i (length d)) as [| Hge]; [done | exfalso].
    rewrite lookup_app_r in Hi by done.
    apply Hnodot. by eapply list_elem_of_lookup_2. }
  assert (Hall : existsb (fun c => negb (Ascii.eqb c ".")) (take i (d ++ r)) = false).
  { apply not_true_iff_false. intros (c & Hc & Hne)%existsb_exists.
    apply list_elem_of_In in Hc. rewrite take_app_le in Hc by lia.
    apply subseteq_take, Hdots in Hc. subst c. done. }
  by rewrite Hall, andb_false_r.
Qed.

(** A name with a plain stem and an accepted extension splits at its last
    dot. *)
Lemma splitext_accepted (stem ext : string) :
  string_of_list_ascii (lower (list_ascii_of_string ext)) ∈ ALLOWED_EXTENSIONS ->
  "/"%char ∉ list_ascii_of_string stem ->
  (exists c, c ∈ list_ascii_of_string stem /\ c <> "."%char) ->
  splitext (stem +:+ "." +:+ ext) = (stem, "." +:+ ext).
Proof.
  intros Hext Hstem Hc.
  destruct (allowed_letters _ Hext) as [Hnodot Hnoslash].
  by apply splitext_split.
Qed.

(** C7. The name is prefix, stem of the sanitized name, "_", eight digits,
    "-", six digits (the UTC time to the second), "_", eight hexadecimal
    digits of the random UUID, then the extension of the sanitized name
    (empty or starting with a dot), ".jpg" when it is empty.  The parts are
    those of the inputs: in a sanitized name [a.b] the stem is [a] and the
    extension [.b] ([b] the part after the last dot, [a] not made of dots
    only); a sanitized name without a dot, or with dots at its start only,
    is the stem itself and has no extension; the digits of the timestamp
    read back as year, month, day, hour, minute and second of the clock; the
    suffix reads back as the top 32 bits of the UUID.  Two calls for the
    same file name and prefix whose timestamps agree give different names
    whenever their random suffixes differ. *)
Theorem unique_name_form (rt : runtime) (original_name prefix : string)
  (w : world) :
  let base := secure_filename rt original_name in
  let stem := (splitext base).1 in
  let ext := (splitext base).2 in
  let stamp := strftime (utcnow rt (clock_reads w)) in
  let suffix := prefix_of 8 (uuid_hex (uuid4 rt (uuid_draws w))) in
  (unique_name rt original_name prefix w).1
  = prefix +:+ stem +:+ "_" +:+ stamp +:+ "_" +:+ suffix
    +:+ (if bool_decide (ext = "") then ".jpg" else ext)
  /\ stem +:+ ext = base
  /\ (ext = "" \/ exists rest, ext = String "." rest)
  /\ (forall a b : string,
        base = a +:+ "." +:+ b ->
        "/"%char ∉ list_ascii_of_string a ->
        (exists c, c ∈ list_ascii_of_string a /\ c <> "."%char) ->
        "."%char ∉ list_ascii_of_string b ->
        "/"%char ∉ list_ascii_of_string b ->
        stem = a /\ ext = "." +:+ b)
  /\ (forall dots rest : string,
        base = dots +:+ rest ->
        (forall c, c ∈ list_ascii_of_string dots -> c = "."%char) ->
        "."%char ∉ list_ascii_of_string rest ->
        "/"%char ∉ list_ascii_of_string rest ->
        stem = base /\ ext = ""
        /\ (unique_name rt original_name prefix w).1
           = prefix +:+ base +:+ "_" +:+ stamp +:+ "_" +:+ suffix +:+ ".jpg")
  /\ (exists date time : list ascii,
        stamp = string_of_list_ascii (date ++ ["-"%char] ++ time)
        /\ length date = 8%nat /\ forallb is_digit date = true
        /\ length time = 6%nat /\ forallb is_digit time = true)
  /\ (utc_time (utcnow rt (clock_reads w)) ->
      exists y mo d h mi s : list ascii,
        stamp = string_of_list_ascii (y ++ mo ++ d ++ ["-"%char] ++ h ++ mi ++ s)
        /\ length y = 4%nat /\ length mo = 2%nat /\ length d = 2%nat
        /\ length h = 2%nat /\ length mi = 2%nat /\ length s = 2%nat
        /\ number_in 10 y = year (utcnow rt (clock_reads w))
        /\ number_in 10 mo = month (utcnow rt (clock_reads w))
        /\ number_in 10 d = day (utcnow rt (clock_reads w))
        /\ number_in 10 h = hour (utcnow rt (clock_reads w))
        /\ number_in 10 mi = minute (utcnow rt (clock_reads w))
        /\ number_in 10 s = second (utcnow rt (clock_reads w)))
  /\ String.length suffix = 8%nat
  /\ forallb is_hexdigit (list_ascii_of_string suffix) = true
  /\ number_in 16 (list_ascii_of_string suffix)
     = (uuid4 rt (uuid_draws w) / 2 ^ 96) mod 2 ^ 32
  /\ forall w' : world,
       strftime (utcnow rt (clock_reads w')) = stamp ->
       prefix_of 8 (uuid_hex (uuid4 rt (uuid_draws w'))) <> suffix ->
       (unique_name rt original_name prefix w').1
       <> (unique_name rt original_name prefix w).1.
Proof.
  intros base stem ext stamp suffix.
  split; [apply unique_name_fst |].
  split; [apply splitext_join |].
  split; [apply splitext_ext |].
  split.
  { intros a b Hbase Ha Hc Hdot Hslash. subst stem ext.
    rewrite Hbase, splitext_split by done. by split. }
  split.
  { intros dots rest Hbase Hdots Hdot Hslash.
    assert (Hsplit : splitext base = (base, "")).
    { rewrite Hbase. by apply splitext_plain. }
    rewrite unique_name_fst. fold base stamp suffix. subst stem ext.
    by rewrite Hsplit. }
  split.
  { subst stamp. unfold strftime.
    set (t := utcnow rt (clock_reads w)).
    exists (zpad 4 (year t) ++ zpad 2 (month t) ++ zpad 2 (day t)),
           (zpad 2 (hour t) ++ zpad 2 (minute t) ++ zpad 2 (second t)).
    split; [reflexivity |].
    rewrite !length_app, !forallb_app.
    by rewrite !(proj1 (zpad_digits _ _)), !(proj2 (zpad_digits _ _)). }
  split; [apply strftime_fields |].
  split.
  { subst suffix. unfold prefix_of, uuid_hex.
    rewrite length_string_of_list_ascii, list_ascii_of_string_of_list_ascii.
    rewrite length_take, length_fmap, length_seqZ. lia. }
  split.
  { subst suffix. unfold prefix_of, uuid_hex.
    rewrite !list_ascii_of_string_of_list_ascii.
    rewrite <- fmap_take.
    apply forallb_forall. intros c Hc.
    apply in_map_iff in Hc as (i & <- & _).
    apply is_hexdigit_hexdigit. }
  split; [apply number_in_suffix |].
  intros w' Hstamp Hsuffix Heq.
  rewrite !unique_name_fst, Hstamp in Heq.
  do 5 apply string_app_inv_head in Heq.
  by apply string_app_inv_tail in Heq.
Qed.

(** Two names drawn for "my cat.JPG" within one second differ. *)
Lemma unique_name_form_witness :
  (unique_name (Sample.runtime_with Sample.service_up) "my cat.JPG" ""
     (tick Sample.empty_world)).1
  <> (unique_name (Sample.runtime_with Sample.service_up) "my cat.JPG" ""
        Sample.empty_world).1.
Proof.
  pose proof (unique_name_form (Sample.runtime_with Sample.service_up)
                "my cat.JPG" "" Sample.empty_world) as Hform.
  cbv zeta in Hform.
  destruct Hform as (_ & _ & _ & _ & _ & _ & _ & _ & _ & _ & Hdiffer).
  apply Hdiffer.
  - reflexivity.
  - vm_compute. discriminate.
Defined.

(** For a name the sanitizer returns unchanged, made of a stem without
    slash that is not only dots, a dot and an accepted extension: the name
    is accepted and the stored name ends with that very extension, in the
    letter case of the upload, after the stem, the time and the suffix. *)
Theorem unique_name_keeps_extension (rt : runtime) (stem ext prefix : string)
  (w : world) :
  let name := stem +:+ "." +:+ ext in
  secure_filename rt name = name ->
  string_of_list_ascii (lower (list_ascii_of_string ext)) ∈ ALLOWED_EXTENSIONS ->
  "/"%char ∉ list_ascii_of_string stem ->
  (exists c, c ∈ list_ascii_of_string stem /\ c <> "."%char) ->
  allowed_file name = true
  /\ (unique_name rt name prefix w).1
     = prefix +:+ stem +:+ "_" +:+ strftime (utcnow rt (clock_reads w)) +:+ "_"
       +:+ prefix_of 8 (uuid_hex (uuid4 rt (uuid_draws w))) +:+ "." +:+ ext.
Proof.
  intros name Hclean Hext Hstem Hc. split.
  - by apply allowed_file_accepts.
  - rewrite unique_name_fst, Hclean. subst name.
    rewrite (splitext_accepted _ _ Hext Hstem Hc). cbn [fst snd].
    by rewrite bool_decide_eq_false_2.
Qed.

Lemma unique_name_keeps_extension_witness :
  allowed_file "cat.PNG" = true
  /\ (unique_name (Sample.runtime_with Sample.service_up) "cat.PNG" "labeled_"
        Sample.empty_world).1
     = "labeled_cat_20261103-080559_9f1c2b3a.PNG".
Proof.
  apply (unique_name_keeps_extension (Sample.runtime_with Sample.service_up)
           "cat" "PNG" "labeled_" Sample.empty_world).
  - reflexivity.
  - vm_compute. apply list_elem_of_here.
  - vm_compute. intros Hin.
    repeat (apply elem_of_cons in Hin as [Hin | Hin]; [discriminate Hin |]).
    by apply elem_of_nil in Hin.
  - exists "c"%char. split; [apply list_elem_of_here | discriminate].
Defined.

(** ** The route, path by path *)

(** The route for a name that passed the checks: the file just written is
    read back, so the branch that finds no file is never taken. *)
Lemma upload_unfold (rt : runtime) (DRY_RUN : bool) (f : upload_file)
  (w : world) :
  allowed_file (filename f) = true ->
  upload rt DRY_RUN {| file := Some f |} w
  = let original_name := (unique_name rt (filename f) "" w).1 in
    let labeled_name := (unique_name rt (filename f) "labeled_" (tick w)).1 in
    let w := tick (tick w) in
    let save_path := os_path_join UPLOAD_FOLDER original_name in
    match Image_open rt (stream f) with
    | inl e => (ErrorPage ("Image processing error: " +:+ e) 400, w)
    | inr pil =>
    let pil := pil_auto_prepare pil in
    match Image_save rt save_path (pil, []) 95 with
    | inl e => (ErrorPage ("Image processing error: " +:+ e) 400, w)
    | inr saved =>
    let w := write_file save_path saved w in
    match detect rt DRY_RUN pil saved w with
    | (inl resp, w) => (resp, w)
    | (inr labels, w) =>
    match draw_labels rt (size pil).1 (size pil).2 labels [] with
    | inl e => (Unhandled e, w)
    | inr draw =>
    let labeled_path := os_path_join UPLOAD_FOLDER labeled_name in
    match Image_save rt labeled_path (pil, draw) 95 with
    | inl e => (Unhandled (OtherError e), w)
    | inr saved =>
        (ResultPage original_name labeled_name labels,
         write_file labeled_path saved w)
    end end end end end.
Proof.
  intros Hallowed. upload_accepted Hallowed. cbv zeta.
  destruct (Image_open rt (stream f)) as [e | pil]; [reflexivity |].
  destruct (Image_save rt _ (pil_auto_prepare pil, []) 95) as [e | saved];
    [reflexivity |].
  cbn [files write_file]. rewrite lookup_insert_eq.
  destruct (detect rt DRY_RUN _ _ _) as [[resp | labels] w1]; [reflexivity |].
  by destruct (size (pil_auto_prepare pil)).
Qed.

(** Every way through the route for a name that passed the checks. *)
Ltac upload_branches Hallowed :=
  rewrite (upload_unfold _ _ _ _ Hallowed); cbv zeta; unfold detect;
  repeat match goal with
    | |- context [match Image_open ?rt ?s with _ => _ end] =>
        destruct (Image_open rt s) as [? | ?] eqn:?
    | |- context [match Image_save ?rt ?p ?c ?q with _ => _ end] =>
        destruct (Image_save rt p c q) as [? | ?] eqn:?
    | |- context [if ?d then _ else _] => is_var d; destruct d
    | |- context [let '(_, _) := size ?p in _] => destruct (size p)
    | |- context [match detect_labels ?rt ?r with _ => _ end] =>
        destruct (detect_labels rt r) as [? | ? | ?] eqn:?
    | |- context [match draw_labels ?rt ?a ?b ?l ?d with _ => _ end] =>
        destruct (draw_labels rt a b l d) as [? | ?] eqn:?
    end;
  cbn [fst snd].

Lemma refused_false (request : http_request) :
  refused request = false
  <-> exists f, file request = Some f /\ filename f <> ""
                /\ allowed_file (filename f) = true.
Proof.
  unfold refused. destruct (file request) as [f |].
  - rewrite orb_false_iff, negb_false_iff, bool_decide_eq_false. split.
    + intros [? ?]. by exists f.
    + by intros (? & [= <-] & ? & ?).
  - split; [done | by intros (? & [=] & _)].
Qed.

Lemma upload_refused (rt : runtime) (DRY_RUN : bool) (request : http_request)
  (w : world) :
  refused request = true ->
  exists body,
    upload rt DRY_RUN request w = (ErrorPage body 400, w)
    /\ body ∈ ["No file uploaded"; "No selected file";
               "Invalid file type. Only JPG and PNG allowed."].
Proof.
  unfold refused, upload. destruct (file request) as [f |].
  - destruct (bool_decide (filename f = "")).
    + intros _. eexists. split; [reflexivity |].
      apply list_elem_of_further, list_elem_of_here.
    + cbn [orb]. intros ->. eexists. split; [reflexivity |].
      do 2 apply list_elem_of_further. apply list_elem_of_here.
  - intros _. eexists. split; [reflexivity | apply list_elem_of_here].
Qed.

(** A request that passes the checks reads the clock and the random source
    twice each, whatever happens next. *)
Lemma upload_clock (rt : runtime) (DRY_RUN : bool) (f : upload_file)
  (w : world) :
  allowed_file (filename f) = true ->
  clock_reads (upload rt DRY_RUN {| file := Some f |} w).2
  = S (S (clock_reads w))
  /\ uuid_draws (upload rt DRY_RUN {| file := Some f |} w).2
     = S (S (uuid_draws w)).
Proof.
  intros Hallowed. upload_branches Hallowed; split; reflexivity.
Qed.

(** The three checks of lines 89-97, in their order: no part named file, an
    empty file name, a name that is not accepted; each answers its own
    message with status 400.  The state is left exactly as it was (no file
    written, clock and random source not read, nothing sent) when one of
    the checks refuses the request, and only then. *)
Theorem upload_validation (rt : runtime) (DRY_RUN : bool)
  (request : http_request) (w : world) :
  (file request = None ->
   upload rt DRY_RUN request w = (ErrorPage "No file uploaded" 400, w))
  /\ (forall f, file request = Some f -> filename f = "" ->
      upload rt DRY_RUN request w = (ErrorPage "No selected file" 400, w))
  /\ (forall f, file request = Some f -> filename f <> "" ->
      allowed_file (filename f) = false ->
      upload rt DRY_RUN request w
      = (ErrorPage "Invalid file type. Only JPG and PNG allowed." 400, w))
  /\ ((upload rt DRY_RUN request w).2 = w <-> refused request = true).
Proof.
  destruct request as [[f |]]; unfold refused; cbn [file].
  2:{ repeat split; try done. }
  split; [done |]. split.
  { intros ? [= <-] Hname. unfold upload. cbn [file].
    by rewrite bool_decide_eq_true_2. }
  split.
  { intros ? [= <-] Hname Hno. unfold upload. cbn [file].
    by rewrite bool_decide_eq_false_2, Hno. }
  destruct (bool_decide (filename f = "")) eqn:Hname.
  { unfold upload. cbn [file]. by rewrite Hname. }
  destruct (allowed_file (filename f)) eqn:Hallowed.
  - cbn [orb negb]. split; [| done]. intros Heq.
    destruct (upload_clock rt DRY_RUN f w Hallowed) as [Hc _].
    rewrite Heq in Hc. lia.
  - unfold upload. cbn [file]. by rewrite Hname, Hallowed.
Qed.

Lemma upload_validation_witness :
  upload (Sample.runtime_with Sample.service_up) false
    {| file := Some {| filename := "notes.txt"; stream := [Byte.x2a] |} |}
    Sample.empty_world
  = (ErrorPage "Invalid file type. Only JPG and PNG allowed." 400,
     Sample.empty_world).
Proof.
  pose proof (upload_validation (Sample.runtime_with Sample.service_up) false
                {| file := Some {| filename := "notes.txt";
                                   stream := [Byte.x2a] |} |}
                Sample.empty_world) as (_ & _ & Hext & _).
  apply (Hext {| filename := "notes.txt"; stream := [Byte.x2a] |});
    [reflexivity | discriminate | reflexivity].
Defined.

(** What a request leaves in the upload folder, by the answer it gets.  An
    answer of status 400 leaves the files as they were.  Any other error
    page, and any exception that escapes the route, leaves the normalized
    original and nothing else: it is not removed.  A result page leaves
    both files, at two different paths, so that the original is still what
    was saved first. *)
Theorem upload_files (rt : runtime) (DRY_RUN : bool) (request : http_request)
  (w : world) :
  let w' := (upload rt DRY_RUN request w).2 in
  let original f :=
    os_path_join UPLOAD_FOLDER (unique_name rt (filename f) "" w).1 in
  match (upload rt DRY_RUN request w).1 with
  | ErrorPage _ 400 => files w' = files w
  | ErrorPage _ _ | Unhandled _ =>
      exists f saved, file request = Some f
                      /\ files w' = <[original f := saved]> (files w)
  | ResultPage original_name labeled_name _ =>
      let save_path := os_path_join UPLOAD_FOLDER original_name in
      let labeled_path := os_path_join UPLOAD_FOLDER labeled_name in
      exists saved annotated,
        save_path <> labeled_path
        /\ files w'
           = <[labeled_path := annotated]> (<[save_path := saved]> (files w))
        /\ files w' !! save_path = Some saved
        /\ files w' !! labeled_path = Some annotated
  end.
Proof.
  intros w' original. subst w'.
  destruct (refused request) eqn:Href.
  { by destruct (upload_refused rt DRY_RUN request w Href) as (b & -> & _). }
  apply refused_false in Href as (f & Hf & _ & Hallowed).
  destruct request as [o]. cbn in Hf. subst o.
  pose proof (upload_paths_differ rt (filename f) w (tick w)) as Hne.
  upload_branches Hallowed; cbn [files write_file send_request tick];
    first [ reflexivity
          | exists f; eexists; split; reflexivity
          | eexists _, _; split; [exact Hne |]; split; [reflexivity |];
            split; [rewrite lookup_insert_ne by (by apply not_eq_sym) |];
            apply lookup_insert_eq ].
Qed.



(** What one request does besides its answer.  A request that passes the
    checks reads the clock twice and draws two UUIDs, even when the image
    then fails to decode.  Under the dry run nothing is sent to the
    labeling service; otherwise at most one request is sent, with
    MaxLabels = 10 and MinConfidence = 70, and the bytes it carries are
    those of the original file as it is on disk afterwards.  No file that
    was there is removed. *)
Theorem upload_effects (rt : runtime) (DRY_RUN : bool)
  (request : http_request) (w : world) :
  let w' := (upload rt DRY_RUN request w).2 in
  (refused request = false ->
   clock_reads w' = S (S (clock_reads w))
   /\ uuid_draws w' = S (S (uuid_draws w)))
  /\ (DRY_RUN = true -> sent w' = sent w)
  /\ (sent w' = sent w
      \/ exists (f : upload_file) (saved : bytes),
           file request = Some f
           /\ sent w'
              = sent w ++ [{| Image_Bytes := saved; MaxLabels := 10;
                              MinConfidence := 70 |}]
           /\ files w'
              !! os_path_join UPLOAD_FOLDER (unique_name rt (filename f) "" w).1
              = Some saved)
  /\ (forall path : string,
        is_Some (files w !! path) -> is_Some (files w' !! path)).
Proof.
  intros w'. subst w'.
  destruct (refused request) eqn:Href.
  - destruct (upload_refused rt DRY_RUN request w Href) as (b & -> & _).
    cbn [snd]. split; [done |]. split; [done |]. split; [by left | done].
  - apply refused_false in Href as (f & Hf & _ & Hallowed).
    destruct request as [o]. cbn in Hf. subst o.
    pose proof (upload_paths_differ rt (filename f) w (tick w)) as Hne.
    split; [intros _; by apply upload_clock |].
    split.
    { intros ->. upload_branches Hallowed; reflexivity. }
    split.
    { upload_branches Hallowed; cbn [sent files write_file send_request tick];
        first [by left
              | right; eexists f, _;
                split; [reflexivity |]; split; [reflexivity |];
                rewrite ?(lookup_insert_ne _ _ _ _ (not_eq_sym Hne));
                apply lookup_insert_eq]. }
    intros path Hpath.
    upload_branches Hallowed; cbn [sent files write_file send_request tick];
      rewrite ?lookup_insert; repeat case_decide; eauto.
Qed.

(** Where a result page comes from.  The request had a file whose name
    passed the checks and whose bytes decoded; the two names on the page
    are those made for that file name, the first without prefix, the second
    with "labeled_" and the next reading of the clock, and they differ; the
    labels are the sample of the dry run, or the list the service answered
    to the one request (the empty list when it has no "Labels"); and every
    label on the page that has a box to draw has a name. *)
Theorem upload_result_page (rt : runtime) (DRY_RUN : bool)
  (request : http_request) (w : world) (original_image labeled_image : string)
  (labels : list label) :
  (upload rt DRY_RUN request w).1
  = ResultPage original_image labeled_image labels ->
  exists f : upload_file,
    file request = Some f
    /\ filename f <> "" /\ allowed_file (filename f) = true
    /\ original_image = (unique_name rt (filename f) "" w).1
    /\ labeled_image = (unique_name rt (filename f) "labeled_" (tick w)).1
    /\ original_image <> labeled_image
    /\ (exists pil, Image_open rt (stream f) = inr pil)
    /\ (if DRY_RUN then labels = dry_run_labels
        else exists (saved : bytes) (resp : detect_response),
               detect_labels rt
                 {| Image_Bytes := saved; MaxLabels := 10; MinConfidence := 70 |}
               = Responded resp
               /\ labels = default [] (Labels resp))
    /\ forallb renderable labels = true.
Proof.
  destruct (refused request) eqn:Href.
  - destruct (upload_refused rt DRY_RUN request w Href) as (b & -> & _). done.
  - apply refused_false in Href as (f & Hf & Hname & Hallowed).
    destruct request as [o]. cbn in Hf. subst o.
    pose proof (names_differ rt (filename f) w (tick w)) as Hne.
    upload_branches Hallowed; intros [=]; subst;
      exists f; split_and!; eauto using draw_labels_renderable.
Qed.

Lemma upload_result_page_witness :
  exists f : upload_file,
    file Sample.square_photo = Some f
    /\ "square_20261103-080559_9f1c2b3a.jpeg"
       = (unique_name (Sample.runtime_with Sample.service_down) (filename f) ""
            Sample.empty_world).1
    /\ forallb renderable dry_run_labels = true.
Proof.
  destruct (upload_result_page (Sample.runtime_with Sample.service_down) true
              Sample.square_photo Sample.empty_world
              "square_20261103-080559_9f1c2b3a.jpeg"
              "labeled_square_20261103-080559_9f1c2b3b.jpeg"
              dry_run_labels)
    as (f & Hf & _ & _ & Ho & _ & _ & _ & _ & Hr).
  - vm_compute. reflexivity.
  - exists f. split; [exact Hf |]. split; [exact Ho | exact Hr].
Defined.

(** A photo sent to a service that answers the label "Cat": the page, the
    two files and the one request. *)
Lemma upload_remote_result_witness :
  exists w' : world,
    upload (Sample.runtime_with Sample.service_up) false Sample.photo
      Sample.empty_world
    = (ResultPage "mycat_20261103-080559_9f1c2b3a.JPG"
         "labeled_mycat_20261103-080559_9f1c2b3b.JPG" [Sample.cat], w')
    /\ files w'
       = <["static/uploads/labeled_mycat_20261103-080559_9f1c2b3b.JPG"
            := replicate 4 Byte.x2a]>
           (<["static/uploads/mycat_20261103-080559_9f1c2b3a.JPG"
               := [Byte.x2a]]> ∅)
    /\ sent w'
       = [{| Image_Bytes := [Byte.x2a]; MaxLabels := 10; MinConfidence := 70 |}].
Proof.
  apply (upload_remote_result (Sample.runtime_with Sample.service_up)
           {| filename := "my cat.JPG"; stream := [Byte.xff; Byte.xd8] |}
           Sample.empty_world
           {| size := (4, 3);
              pixels := RasterRGB (replicate 12 (0, 0, 0));
              orientation := None |}
           [Byte.x2a] (replicate 4 Byte.x2a)
           {| Labels := Some [Sample.cat] |}
           [Rectangle (PFloat 2, PInt 0, PFloat 3, PInt 0) None
              (Some (255, 0, 0)) 3;
            Rectangle (PFloat 2, PInt 0, PFloat 70, PInt 19)
              (Some (255, 255, 255)) None 1;
            Text (PFloat 6, PInt 4) "Cat (0.0%)" (255, 0, 0) DefaultFont]);
    reflexivity.
Defined.

(** ** The size and the pixels of the normalized image *)

Lemma length_bind_const {A B : Type} (f : A -> list B) (l : list A) (c : nat) :
  (forall a, a ∈ l -> length (f a) = c) -> length (l ≫= f) = (length l * c)%nat.
Proof.
  induction l as [| a l IH]; intros Hf; [reflexivity |].
  cbn. rewrite length_app, Hf, IH by set_solver. reflexivity.
Qed.

Lemma transposed_from_range (m : transpose_method) (w h x y : Z) :
  0 <= x < (transposed_size m (w, h)).1 ->
  0 <= y < (transposed_size m (w, h)).2 ->
  0 <= (transposed_from m (w, h) x y).1 < w
  /\ 0 <= (transposed_from m (w, h) x y).2 < h.
Proof. destruct m; cbn; lia. Qed.

(** Every pixel of the turned image is read inside the source. *)
Lemma length_transpose_list {P : Type} (m : transpose_method) (w h : Z)
  (px : list P) :
  0 <= w -> 0 <= h -> length px = Z.to_nat (w * h) ->
  length (transpose_list m (w, h) px)
  = Z.to_nat ((transposed_size m (w, h)).1 * (transposed_size m (w, h)).2).
Proof.
  intros Hw Hh Hlen. unfold transpose_list.
  destruct (transposed_size m (w, h)) as [w' h'] eqn:Hsize. cbn [fst snd].
  assert (Hw' : 0 <= w') by (destruct m; cbn in Hsize; injection Hsize; lia).
  assert (Hh' : 0 <= h') by (destruct m; cbn in Hsize; injection Hsize; lia).
  rewrite (length_bind_const _ _ (Z.to_nat w')).
  { rewrite length_seqZ. nia. }
  intros y Hy. apply elem_of_seqZ in Hy.
  rewrite (length_bind_const _ _ 1).
  { rewrite length_seqZ. lia. }
  intros x Hx. apply elem_of_seqZ in Hx.
  pose proof (transposed_from_range m w h x y) as Hr.
  rewrite Hsize in Hr. cbn [fst snd] in Hr.
  destruct (transposed_from m (w, h) x y) as [sx sy]. cbn [fst snd] in *.
  destruct (Hr ltac:(lia) ltac:(lia)) as [Hsx Hsy].
  destruct (lookup_lt_is_Some_2 px (Z.to_nat (sy * w + sx))) as [p Hp]; [nia |].
  by rewrite Hp.
Qed.

Lemma transposed_size_nonneg (m : transpose_method) (wh : Z * Z) :
  0 <= wh.1 -> 0 <= wh.2 ->
  0 <= (transposed_size m wh).1 /\ 0 <= (transposed_size m wh).2.
Proof. destruct m; cbn; lia. Qed.

Lemma well_formed_exif_transpose (im : image) :
  well_formed im -> well_formed (exif_transpose im).
Proof.
  intros (Hw & Hh & Hlen). unfold exif_transpose.
  destruct (exif_method _) as [m |]; [| done].
  destruct im as [[w h] r o]. cbn [size pixels fst snd transpose] in *.
  destruct (transposed_size_nonneg m (w, h) Hw Hh) as [Hw' Hh'].
  split; [done |]. split; [done |].
  destruct r; cbn [raster_map raster_length] in *; by apply length_transpose_list.
Qed.

Lemma length_paste_mask_L (out : list rgb) (src : list rgba) (mask : list Z) :
  length out = length src -> length mask = length src ->
  length (paste_mask_L out src mask) = length src.
Proof.
  revert src mask. induction out as [| o out IH]; intros [| s src] [| m mask];
    cbn; try done.
  intros [=] [=]. f_equal. by apply IH.
Qed.

Lemma size_exif_transpose (im : image) :
  size (exif_transpose im)
  = if quarter_turn im then ((size im).2, (size im).1) else size im.
Proof.
  unfold exif_transpose, quarter_turn, exif_method.
  destruct (default 1 (orientation im)) as [| p | p]; [done | | done].
  do 4 (destruct p as [p | p |]; try done).
Qed.

Lemma size_after_exif (im : image) :
  size (pil_auto_prepare im) = size (exif_transpose im).
Proof.
  unfold pil_auto_prepare.
  by destruct (exif_transpose im) as [wh [px | px | px | px] o].
Qed.

(** The size of the normalized image is that of the input, width and height
    exchanged exactly when the Orientation tag is 5, 6, 7 or 8; and when
    the input holds as many pixels as its size says, so does the output:
    turning, converting and flattening lose and add no pixel. *)
Theorem pil_auto_prepare_size (im : image) :
  size (pil_auto_prepare im)
  = (if quarter_turn im then ((size im).2, (size im).1) else size im)
  /\ (well_formed im ->
      exists px : list rgb,
        pixels (pil_auto_prepare im) = RasterRGB px
        /\ length px
           = Z.to_nat ((size (pil_auto_prepare im)).1
                       * (size (pil_auto_prepare im)).2)).
Proof.
  split; [by rewrite size_after_exif, size_exif_transpose |].
  intros Hwf%well_formed_exif_transpose. rewrite size_after_exif.
  unfold pil_auto_prepare.
  destruct (exif_transpose im) as [wh r o].
  destruct Hwf as (Hw & Hh & Hlen). cbn [size pixels] in *.
  destruct r as [px | px | px | px]; cbn [raster_length] in Hlen.
  - change (bool_decide (mode _ ∉ ["RGB"; "RGBA"])) with true.
    cbn [convert_RGB pixels size]. eexists. split; [reflexivity |].
    by rewrite length_fmap.
  - change (bool_decide (mode _ ∉ ["RGB"; "RGBA"])) with true.
    cbn [convert_RGB pixels size]. eexists. split; [reflexivity |].
    by rewrite length_fmap.
  - change (bool_decide (mode _ ∉ ["RGB"; "RGBA"])) with false.
    cbn [pixels size]. by eexists.
  - change (bool_decide (mode _ ∉ ["RGB"; "RGBA"])) with false.
    cbn. eexists. split; [reflexivity |].
    rewrite length_paste_mask_L; [done | by rewrite length_replicate |].
    unfold alpha_band. by rewrite length_fmap.
Qed.

Lemma pil_auto_prepare_size_witness :
  exists px : list rgb,
    pixels (pil_auto_prepare
              {| size := (2, 1);
                 pixels := RasterRGBA [(10, 20, 30, 0); (10, 20, 30, 255)];
                 orientation := Some 6 |})
    = RasterRGB px
    /\ length px = 2%nat.
Proof.
  pose proof (pil_auto_prepare_size
                {| size := (2, 1);
                   pixels := RasterRGBA [(10, 20, 30, 0); (10, 20, 30, 255)];
                   orientation := Some 6 |}) as [_ Hwf].
  apply Hwf. unfold well_formed. cbn. lia.
Defined.

(** [BLEND8] is the weighted mean of its two inputs, rounded to the
    nearest integer. *)
Lemma blend8_rounded (mask in1 in2 : Z) :
  0 <= in1 * (255 - mask) + in2 * mask <= 65025 ->
  blend8 mask in1 in2 = (in1 * (255 - mask) + in2 * mask + 127) / 255.
Proof.
  intros Hx. unfold blend8. set (x := in1 * (255 - mask) + in2 * mask) in *.
  clearbody x. rewrite !Z.shiftr_div_pow2 by lia. change (2 ^ 8) with 256.
  Z.to_euclidean_division_equations; lia.
Qed.

Lemma blend8_over_white (c a : Z) :
  0 <= c <= 255 -> 0 <= a <= 255 ->
  blend8 a 255 c = white_mix c a /\ c <= white_mix c a <= 255.
Proof.
  intros Hc Ha. unfold white_mix. rewrite blend8_rounded by nia.
  assert (Hq : 0 <= (c * a + 127) / 255 <= a).
  { split; [apply Z.div_pos; nia |].
    apply Z.lt_succ_r, Z.div_lt_upper_bound; nia. }
  split.
  - replace (255 * (255 - a) + c * a + 127)
      with (c * a + 127 + (255 - a) * 255) by ring.
    rewrite Z.div_add by lia. lia.
  - split; [| lia].
    assert (c * a + 127 - 254 <= 255 * ((c * a + 127) / 255)).
    { pose proof (Z.mod_pos_bound (c * a + 127) 255 ltac:(lia)).
      pose proof (Z.div_mod (c * a + 127) 255 ltac:(lia)). lia. }
    nia.
Qed.

Lemma pil_auto_prepare_RGBA_pixels (im : image) (px : list rgba) :
  pixels (exif_transpose im) = RasterRGBA px ->
  length px
  = Z.to_nat ((size (exif_transpose im)).1 * (size (exif_transpose im)).2) ->
  pixels (pil_auto_prepare im) = RasterRGB (over_white <$> px).
Proof.
  intros Hpx Hlen. unfold pil_auto_prepare.
  destruct (exif_transpose im) as [wh r o]. cbn in Hpx, Hlen. subst r.
  change (bool_decide (mode _ ∉ ["RGB"; "RGBA"])) with false.
  cbn. f_equal. apply paste_over_white. lia.
Qed.

(** Flattening an 8-bit RGBA image: each channel [c] of a pixel of alpha
    [a] comes out as the mean of [c] and white weighted by [a] and
    [255 - a], rounded to the nearest integer; it is never darker than [c]
    and never above 255. *)
Theorem pil_auto_prepare_RGBA_blend (im : image) (px : list rgba) :
  pixels (exif_transpose im) = RasterRGBA px ->
  length px
  = Z.to_nat ((size (exif_transpose im)).1 * (size (exif_transpose im)).2) ->
  Forall eight_bit px ->
  exists out : list rgb,
    pixels (pil_auto_prepare im) = RasterRGB out
    /\ length out = length px
    /\ forall (i : nat) (r g b a : Z),
         px !! i = Some (r, g, b, a) ->
         out !! i = Some (white_mix r a, white_mix g a, white_mix b a)
         /\ r <= white_mix r a <= 255
         /\ g <= white_mix g a <= 255
         /\ b <= white_mix b a <= 255.
Proof.
  intros Hpx Hlen Hbits. exists (over_white <$> px).
  split; [by apply pil_auto_prepare_RGBA_pixels |].
  split; [apply length_fmap |].
  intros i r g b a Hi.
  rewrite Forall_lookup in Hbits. specialize (Hbits i _ Hi).
  destruct Hbits as (Hr & Hg & Hb & Ha).
  destruct (blend8_over_white r a Hr Ha) as [Er Br].
  destruct (blend8_over_white g a Hg Ha) as [Eg Bg].
  destruct (blend8_over_white b a Hb Ha) as [Eb Bb].
  rewrite list_lookup_fmap, Hi.
  cbn [fmap option_fmap option_map over_white paste_pixel].
  by rewrite Er, Eg, Eb.
Qed.

(** A half transparent pixel (10, 20, 30) comes out (132, 137, 142). *)
Lemma pil_auto_prepare_RGBA_blend_witness :
  exists out : list rgb,
    pixels (pil_auto_prepare
              {| size := (1, 1);
                 pixels := RasterRGBA [(10, 20, 30, 128)];
                 orientation := None |})
    = RasterRGB out
    /\ out !! 0%nat = Some (132, 137, 142).
Proof.
  destruct (pil_auto_prepare_RGBA_blend
              {| size := (1, 1);
                 pixels := RasterRGBA [(10, 20, 30, 128)];
                 orientation := None |}
              [(10, 20, 30, 128)] eq_refl eq_refl)
    as (out & Hpx & _ & Hout).
  - repeat constructor; cbn; lia.
  - exists out. split; [exact Hpx |].
    apply (Hout 0%nat 10 20 30 128 eq_refl).
Defined.

(** ** What the loop draws *)

(** When Pillow measures the texts and accepts the calls this loop makes,
    and every label with a box to draw has a name, the loop keeps the
    calls already made and adds, label by label and instance by instance
    in the order of the response, the three calls of each instance that has
    a non-empty box: outline, background, text.  Nothing is added for the other instances, so the
    number of calls added is three times the number of boxes. *)
Theorem rendering_loop_calls (rt : runtime) (img_w img_h : Z)
  (labels : list label) (draw : list draw_op) :
  loop_accepted rt img_w img_h labels = true ->
  forallb renderable labels = true ->
  exists added : list draw_op,
    draw_labels rt img_w img_h labels draw = inr (draw ++ added)
    /\ added = (lab ← labels;
                inst ← default [] (Instances lab);
                instance_calls rt img_w img_h lab inst)
    /\ length added = (3 * length (drawn_instances labels))%nat.
Proof.
  intros Hacc Hok. eexists. split; [by apply draw_labels_calls |].
  split; [reflexivity | by apply labels_calls_length].
Qed.

Lemma rendering_loop_calls_witness :
  exists added : list draw_op,
    draw_labels (Sample.runtime_with Sample.service_up) 4 3 [Sample.cat] []
    = inr ([] ++ added)
    /\ length added = 3%nat.
Proof.
  destruct (rendering_loop_calls (Sample.runtime_with Sample.service_up) 4 3
              [Sample.cat] [] eq_refl eq_refl)
    as (added & Hdraw & _ & Hlen).
  exists added. split; [exact Hdraw | exact Hlen].
Defined.

(** ** The box of the dry run *)

(** Scaling the float of a positive integer below 2^53 by a power of two
    [2^-k] is exact. *)
Lemma mul_pow2_exact (x y : float) (n k : Z) :
  fval x = Some (n * 2 ^ 1074) -> 1 <= n < 2 ^ 53 ->
  Prim2SF y = S754_finite false 4503599627370496 (-52 - k) -> 0 <= k <= 1000 ->
  fval (x * y) = Some (n * 2 ^ (1074 - k)).
Proof.
  intros Hx Hn Hy Hk.
  pose proof (pow2_pos 1074 ltac:(lia)) as H1074.
  destruct (repr_finite_pos _ _ (fval_repr _ _ Hx) ltac:(nia))
    as (m & e & Hsf & Hb & Hv).
  pose proof Hb as [Hcan He]%bounded_spec.
  pose proof (digits2_bounds m) as [Hlo Hhi].
  set (d := Z.pos (digits2_pos m)) in *.
  assert (Hd : d <= 53) by lia.
  assert (Hm : Z.pos m < 2 ^ 53).
  { eapply Z.lt_le_trans; [exact Hhi |]. apply Z.pow_le_mono_r; lia. }
  assert (Hemin : -1074 <= e) by lia.
  assert (He52 : -52 <= e).
  { destruct (Z.le_gt_cases (-52) e) as [| Hlt]; [assumption | exfalso].
    assert (2 ^ (e + 1074) <= 2 ^ 1021) by (apply Z.pow_le_mono_r; lia).
    pose proof (pow2_pos (e + 1074) ltac:(lia)).
    assert (Z.pos m * 2 ^ (e + 1074) < 2 ^ 53 * 2 ^ 1021) by nia.
    replace (2 ^ 53 * 2 ^ 1021) with (2 ^ 1074) in *
      by (rewrite <- Z.pow_add_r by lia; reflexivity).
    nia. }
  assert (Hd53 : d = 53) by lia.
  unfold fval. rewrite mul_spec. unfold SF64mul. rewrite Hsf, Hy.
  cbn [SFmul xorb].
  rewrite (binary_round_aux_exact false (m * 4503599627370496) m
             (e + (-52 - k)) (e - k)).
  - cbn [sf_val cond_Zopp]. f_equal.
    pose proof (pow2_pos k ltac:(lia)) as Hpk.
    assert (H1 : 2 ^ (e + 1074) = 2 ^ (e - k + 1074) * 2 ^ k)
      by (rewrite <- Z.pow_add_r by lia; f_equal; lia).
    assert (H2 : 2 ^ 1074 = 2 ^ (1074 - k) * 2 ^ k)
      by (rewrite <- Z.pow_add_r by lia; f_equal; lia).
    rewrite H1, H2, !Z.mul_assoc in Hv.
    apply Z.mul_cancel_r in Hv; lia.
  - apply bounded_spec. fold d. lia.
  - lia.
  - replace (e - k - (e + (-52 - k))) with 52 by lia. reflexivity.
Qed.

(** A quarter and three quarters of [n], computed as the loop does. *)
Lemma quarter_box (n : Z) :
  1 <= n -> 3 * n < 2 ^ 53 ->
  float_is (Z2float n * 0.25) n 4
  /\ float_is (Z2float n * 0.25 + Z2float n * 0.5) (3 * n) 4.
Proof.
  intros Hn H3.
  pose proof (Z2float_exact n ltac:(lia)) as Hf.
  pose proof (mul_pow2_exact (Z2float n) 0.25 n 2 Hf ltac:(lia) eq_refl
                ltac:(lia)) as Hq.
  pose proof (mul_pow2_exact (Z2float n) 0.5 n 1 Hf ltac:(lia) eq_refl
                ltac:(lia)) as Hh.
  change (1074 - 2) with 1072 in Hq. change (1074 - 1) with 1073 in Hh.
  assert (Hsum : n * 2 ^ 1072 + n * 2 ^ 1073 = 3 * n * 2 ^ 1072).
  { change 1073 with (1072 + 1). rewrite Z.pow_add_r by lia. lia. }
  split.
  - exists (n * 2 ^ 1072). split; [exact Hq |].
    change 1074 with (1072 + 2). rewrite Z.pow_add_r by lia. lia.
  - exists (3 * n * 2 ^ 1072). split.
    + rewrite <- Hsum. apply add_exact; [exact Hq | exact Hh |].
      rewrite Hsum. apply representable_scaled; lia.
    + change 1074 with (1072 + 2). rewrite Z.pow_add_r by lia. lia.
Qed.

(** Under the dry run the one box drawn is the middle of the image, for
    every image size (below 2^53 / 3): its edges are a quarter and three
    quarters of the width and of the height, exactly, with no rounding in
    the float arithmetic of the loop. *)
Theorem dry_run_box_centered (rt : runtime) (img_w img_h : Z) :
  1 <= img_w -> 3 * img_w < 2 ^ 53 ->
  1 <= img_h -> 3 * img_h < 2 ^ 53 ->
  exists l t r b : float,
    draw_labels rt img_w img_h dry_run_labels []
    = draw_label_box (fonts rt) [] (PFloat l, PFloat t, PFloat r, PFloat b)
        ("SampleObject (" +:+ float_str rt (py_round rt 99.1 1) +:+ "%)") None
    /\ float_is l img_w 4 /\ float_is t img_h 4
    /\ float_is r (3 * img_w) 4 /\ float_is b (3 * img_h) 4.
Proof.
  intros Hw Hw3 Hh Hh3.
  destruct (quarter_box img_w Hw Hw3) as [Hl Hr].
  destruct (quarter_box img_h Hh Hh3) as [Ht Hb].
  eexists _, _, _, _. split; [apply draw_labels_dry_run |]. auto.
Qed.

Lemma dry_run_box_centered_witness :
  exists l t r b : float,
    draw_labels (Sample.runtime_with Sample.service_down) 1920 1080
      dry_run_labels []
    = draw_label_box (fonts (Sample.runtime_with Sample.service_down)) []
        (PFloat l, PFloat t, PFloat r, PFloat b) "SampleObject (99.1%)" None
    /\ float_is l 1920 4 /\ float_is t 1080 4
    /\ float_is r (3 * 1920) 4 /\ float_is b (3 * 1080) 4.
Proof.
  apply (dry_run_box_centered (Sample.runtime_with Sample.service_down)
           1920 1080); lia.
Defined.

(** ** The switch of the dry run *)

Lemma lower_ascii_true (c : ascii) :
  (lower_ascii c = "t"%char <-> c ∈ ["t"; "T"]%char)
  /\ (lower_ascii c = "r"%char <-> c ∈ ["r"; "R"]%char)
  /\ (lower_ascii c = "u"%char <-> c ∈ ["u"; "U"]%char)
  /\ (lower_ascii c = "e"%char <-> c ∈ ["e"; "E"]%char).
Proof.
  rewrite !elem_of_cons, !elem_of_nil.
  destruct c as [[] [] [] [] [] [] [] []]; vm_compute;
    repeat split; try discriminate; auto;
    intros [H | [H | []]]; discriminate H.
Qed.

Lemma lower_true (v : string) :
  string_of_list_ascii (lower (list_ascii_of_string v)) = "true"
  <-> exists c1 c2 c3 c4 : ascii,
        v = String c1 (String c2 (String c3 (String c4 "")))
        /\ c1 ∈ ["t"; "T"]%char /\ c2 ∈ ["r"; "R"]%char
        /\ c3 ∈ ["u"; "U"]%char /\ c4 ∈ ["e"; "E"]%char.
Proof.
  split.
  - destruct v as [| c1 [| c2 [| c3 [| c4 [| c5 v]]]]]; cbn; try done.
    intros [= H1 H2 H3 H4]. exists c1, c2, c3, c4. split; [done |].
    apply (lower_ascii_true c1) in H1. apply (lower_ascii_true c2) in H2.
    apply (lower_ascii_true c3) in H3. apply (lower_ascii_true c4) in H4.
    done.
  - intros (c1 & c2 & c3 & c4 & -> & H1 & H2 & H3 & H4). cbn.
    apply (lower_ascii_true c1) in H1. apply (lower_ascii_true c2) in H2.
    apply (lower_ascii_true c3) in H3. apply (lower_ascii_true c4) in H4.
    by rewrite H1, H2, H3, H4.
Qed.

(** The dry run is on exactly when REKOGNITION_DRY_RUN is set to the four
    letters of "true", each in either case; unset, or set to anything else
    ("1", "yes", "true " with a space), it is off.  With the dry run on no
    client is requested and [rekognition] stays [None].  With it off the
    module asks boto3 for a "rekognition" client of the region AWS_REGION
    names, us-east-1 when that variable is unset: [rekognition] is the
    client boto3 returns, and an exception of boto3 (a region name it
    refuses) escapes the module. *)
Theorem DRY_RUN_switch (environ : gmap string string) :
  (Config.DRY_RUN environ = true
   <-> exists c1 c2 c3 c4 : ascii,
         environ !! "REKOGNITION_DRY_RUN"
         = Some (String c1 (String c2 (String c3 (String c4 ""))))
         /\ c1 ∈ ["t"; "T"]%char /\ c2 ∈ ["r"; "R"]%char
         /\ c3 ∈ ["u"; "U"]%char /\ c4 ∈ ["e"; "E"]%char)
  /\ (Config.DRY_RUN environ = true ->
      forall (client : Type)
             (boto3_client : string -> string -> exception + client),
        Config.rekognition boto3_client environ = inr None)
  /\ (Config.DRY_RUN environ = false ->
      forall (client : Type)
             (boto3_client : string -> string -> exception + client),
        let region := default "us-east-1" (environ !! "AWS_REGION") in
        (forall c, boto3_client "rekognition" region = inr c ->
                   Config.rekognition boto3_client environ = inr (Some c))
        /\ (forall e, boto3_client "rekognition" region = inl e ->
                      Config.rekognition boto3_client environ = inl e)).
Proof.
  split; [| split].
  - unfold Config.DRY_RUN, Config.getenv.
    rewrite bool_decide_eq_true, lower_true.
    destruct (environ !! "REKOGNITION_DRY_RUN") as [v |];
      cbn [default from_option id].
    + split; intros (c1 & c2 & c3 & c4 & H & Hc); exists c1, c2, c3, c4;
        (split; [congruence | exact Hc]).
    + split; intros (c1 & c2 & c3 & c4 & H & Hc); [| discriminate H].
      injection H as <- <- <- <-. destruct Hc as (Hc & _).
      rewrite !elem_of_cons, !elem_of_nil in Hc.
      destruct Hc as [Hc | [Hc | []]]; discriminate Hc.
  - intros Hon client boto3_client.
    unfold Config.rekognition. by rewrite Hon.
  - intros Hoff client boto3_client region.
    unfold Config.rekognition. rewrite Hoff. cbn [negb].
    change (Config.AWS_REGION environ) with region.
    split; [intros c -> | intros e ->]; reflexivity.
Qed.

(** With REKOGNITION_DRY_RUN set to "1" and an empty AWS_REGION, the import
    fails with the exception of a boto3 that refuses the empty region. *)
Lemma DRY_RUN_switch_witness :
  Config.DRY_RUN (<["REKOGNITION_DRY_RUN" := "1"]> (<["AWS_REGION" := ""]> ∅))
  = false
  /\ Config.rekognition
       (fun service region : string =>
          if bool_decide (region = "")
          then inl (ValueError "Provided region_name doesn't match a supported format.")
          else inr region)
       (<["REKOGNITION_DRY_RUN" := "1"]> (<["AWS_REGION" := ""]> ∅))
     = inl (ValueError "Provided region_name doesn't match a supported format.").
Proof.
  pose proof (DRY_RUN_switch
                (<["REKOGNITION_DRY_RUN" := "1"]> (<["AWS_REGION" := ""]> ∅)))
    as (_ & _ & Hoff).
  split; [reflexivity |].
  exact (proj2 (Hoff eq_refl string _) _ eq_refl).
Defined.

(** ** The exceptions that escape *)




(** ** Evaluations *)

Example allowed_file_samples :
  allowed_file "a.JPG" = true /\ allowed_file "x.tar.png" = true
  /\ allowed_file ".jpeg" = true /\ allowed_file "a.gif" = false
  /\ allowed_file "jpg" = false /\ allowed_file "a." = false.
Proof. repeat split. Qed.

Example splitext_samples :
  splitext "a.b.jpg" = ("a.b", ".jpg") /\ splitext ".bashrc" = (".bashrc", "")
  /\ splitext "jpg" = ("jpg", "") /\ splitext "dir.d/file" = ("dir.d/file", "").
Proof. repeat split. Qed.

Example unique_name_sample :
  (unique_name (Sample.runtime_with Sample.service_up) "my cat.JPG"
     "labeled_" Sample.empty_world).1
  = "labeled_mycat_20261103-080559_9f1c2b3a.JPG"
  /\ (unique_name (Sample.runtime_with Sample.service_up) "Makefile"
        "" Sample.empty_world).1
     = "Makefile_20261103-080559_9f1c2b3a.jpg".
Proof. split; reflexivity. Qed.

(** A turned RGBA image: the transparent pixel comes out white, the opaque
    one keeps its colour, and the image is turned a quarter clockwise. *)
Example pil_auto_prepare_sample :
  pil_auto_prepare
    {| size := (2, 1);
       pixels := RasterRGBA [(10, 20, 30, 0); (10, 20, 30, 255)];
       orientation := Some 6 |}
  = {| size := (1, 2);
       pixels := RasterRGB [(255, 255, 255); (10, 20, 30)];
       orientation := None |}.
Proof. reflexivity. Qed.

(** On floats: a box whose top is at 150.0 with a text 11 pixels high has
    its label from row 131.0 down to row 150.0; near the top of the image
    the label starts at row 0; and a label wider than a 4 pixel image ends
    far to the right of it. *)
Example label_background_float_samples :
  label_background (PFloat 200, PFloat 150, PFloat 600, PFloat 450)
    (PInt 60, PInt 11)
  = (PFloat 200, PFloat 131, PFloat 268, PFloat 150)
  /\ label_background (PFloat 100, PFloat 5, PFloat 300, PFloat 300)
       (PInt 120, PInt 11)
     = (PFloat 100, PInt 0, PFloat 228, PInt 19)
  /\ draw_labels (Sample.runtime_with Sample.service_up) 4 3 [Sample.cat] []
     = inr [Rectangle (PFloat 2, PInt 0, PFloat 3, PInt 0) None
              (Some (255, 0, 0)) 3;
            Rectangle (PFloat 2, PInt 0, PFloat 70, PInt 19)
              (Some (255, 255, 255)) None 1;
            Text (PFloat 6, PInt 4) "Cat (0.0%)" (255, 0, 0) DefaultFont].
Proof. repeat split; vm_compute; reflexivity. Qed.

(** A box of negative width: its pixel box is computed as it is, right edge
    left of the left edge; an earlier Pillow draws it, Pillow 9.5 and later
    refuse the outline and the loop ends on the [ValueError]. *)
Example inverted_box_samples :
  pixel_box 800 600
    (<["Left" := 0.5%float]> (<["Top" := 0.5%float]>
     (<["Width" := (-0.25)%float]> (<["Height" := 0.25%float]> ∅))))
  = (PFloat 400, PFloat 300, PFloat 200, PFloat 450)
  /\ (exists draw,
        draw_labels (Sample.runtime_with Sample.service_up) 800 600
          [Sample.inverted] [] = inr draw)
  /\ draw_labels (Sample.with_checks (Sample.runtime_with Sample.service_up))
       800 600 [Sample.inverted] []
     = inl (ValueError "x1 must be greater than or equal to x0").
Proof.
  split; [by vm_compute |]. split; [| by vm_compute].
  eexists. vm_compute. reflexivity.
Qed.
